(** * screen_person_detection.py: the control loop and the overlay lifecycle

    A shallow embedding of [ScreenPersonDetector] (capture -> infer -> draw,
    wrapped in window and thread lifecycle management) and the properties the
    specification states about it.

    Python objects are mutable and shared between the main thread and the
    worker, so every method is a computation over one store: the detector
    object ([self]) and the outside world (the Tk toolkit, the worker thread,
    the console).  A computation returns a value or raises; what it changed
    before raising stays changed, as in Python. *)

From Stdlib Require Import ZArith QArith Qabs String List Lia.
From Stdlib Require Import DecimalString.
From stdpp Require Import base option strings gmap list.

Open Scope string_scope.
Open Scope list_scope.
Open Scope Z_scope.

(** ** Exceptions

    The exceptions that the program's own statements and the libraries it
    calls raise; all are instances of [Exception], so [except Exception]
    catches every one of them and [except tk.TclError] only the toolkit's.
    [KeyboardInterrupt] and [SystemExit] are not: they arise on the main
    thread only, through the signal handler, which is left out here. *)

Inductive exn : Type :=
| FileNotFoundError (msg : string)
| TclError (msg : string)
| AttributeError (msg : string)
| RuntimeError (msg : string)
| ZeroDivisionError
| IndexError (msg : string)
| LibraryError (msg : string).

Definition is_TclError (e : exn) : bool :=
  match e with TclError _ => true | _ => false end.

Definition is_Exception (e : exn) : bool := true.

(** [str(e)] *)
Definition str_exn (e : exn) : string :=
  match e with
  | FileNotFoundError m | TclError m | AttributeError m
  | RuntimeError m | IndexError m | LibraryError m => m
  | ZeroDivisionError => "integer modulo by zero"
  end.

Inductive outcome (A : Type) : Type :=
| Returned (a : A)
| Raised (e : exn).
Arguments Returned {A} a.
Arguments Raised {A} e.

(** ** Numbers as Python prints them *)

Definition str_int (z : Z) : string := NilZero.string_of_int (Z.to_int z).

(** [int(x)] of a float: truncation toward zero. *)
Definition int_of_float (q : Q) : Z := Z.quot (Qnum q) (Zpos (Qden q)).

(** Nearest integer to [n/d], ties to even, for [0 <= n], [0 < d]. *)
Definition round_half_even (n d : Z) : Z :=
  let k := n / d in
  let r := n mod d in
  match 2 * r ?= d with
  | Lt => k
  | Gt => k + 1
  | Eq => if Z.even k then k else k + 1
  end.

Definition two_digits (z : Z) : string :=
  if z <? 10 then "0" +:+ str_int z else str_int z.

(** [f"{x:.2f}"]: the exact value of the float, correctly rounded to two
    decimals (ties to even), with a sign for negative values.  A finite
    float is a rational, so the value is taken in [Q]. *)
Definition format_2f (x : Q) : string :=
  let h := round_half_even (Z.abs (Qnum x) * 100) (Zpos (Qden x)) in
  (if Qnum x <? 0 then "-" else "") +:+ str_int (h / 100) +:+ "." +:+ two_digits (h mod 100).

(** ** The toolkit (tkinter), as far as the program uses it *)

Inductive item : Type :=
| Rectangle (x1 y1 x2 y2 : Z) (outline : string) (fill : option string) (width : Z)
| Text (x y : Z) (text fill anchor : string) (font : string * Z * string).

(** A canvas keeps its display list; item ids are never reused. *)
Record tkcanvas : Type := mkCanvas {
  cv_width : Z;
  cv_height : Z;
  cv_bg : string;
  next_item : nat;
  items : list (nat * item)
}.

Definition visible (c : tkcanvas) : list item := map snd (items c).

Record tkwin : Type := mkWin {
  w_options : list (string * string);
  w_canvas : option tkcanvas
}.

(** Who is calling: [threading.current_thread()]. *)
Inductive thread : Type := MainThread | WorkerThread | OtherThread.

(** The lines the program prints, by what they report. *)
Inductive line : Type :=
| UsingModel (path : string)          (* __init__, when verbose *)
| MonitorStart (w h : Z)              (* process_screen, when verbose *)
| UsingDevice (device : string)
| StatusEvery (secs : Q)
| Status (frames : Z) (persons : nat) (* the periodic status line *)
| ProcessingError (msg : string)      (* the handler of an iteration *)
| CaptureError (msg : string)         (* the outer handler of process_screen *)
| OverlayError (msg : string)         (* the handler of create_overlay_window *)
| StartError (msg : string)           (* the handler of start_detection *)
| Stopped                             (* stop_detection, when verbose *)
| Banner                              (* __main__, before start_detection *)
| StartupFailed (msg : string)        (* __main__, the outer handler *)
| StartupHint.

(** What the program asks of the outside world, and what happens there, in
    the order of occurrence. *)
Inductive event : Type :=
| TkCreate (w : nat)
| TkDestroy (w : nat)
| TkQuit (w : nat)
| TkMainloop (w : nat)
| TkUpdate (w : nat)
| DestroyedElsewhere (w : nat)
| ThreadStart
| ThreadJoin (timeout : Q)
| Sleep (secs : Q)
| GcCollect
| SignalInstalled (sig : string)
| Print (l : line).

(** [tk_doom = Some (w, k)]: another thread destroys window [w] after [k]
    more toolkit calls of this one. *)
Record World : Type := mkWorld {
  tk_windows : gmap nat tkwin;
  tk_next : nat;
  tk_doom : option (nat * nat);
  worker_alive : bool;
  events : list event
}.

Definition set_windows (f : gmap nat tkwin -> gmap nat tkwin) (w : World) : World :=
  mkWorld (f (tk_windows w)) (tk_next w) (tk_doom w) (worker_alive w) (events w).
Definition set_next (n : nat) (w : World) : World :=
  mkWorld (tk_windows w) n (tk_doom w) (worker_alive w) (events w).
Definition set_doom (d : option (nat * nat)) (w : World) : World :=
  mkWorld (tk_windows w) (tk_next w) d (worker_alive w) (events w).
Definition set_worker_alive (b : bool) (w : World) : World :=
  mkWorld (tk_windows w) (tk_next w) (tk_doom w) b (events w).
Definition add_event (e : event) (w : World) : World :=
  mkWorld (tk_windows w) (tk_next w) (tk_doom w) (worker_alive w) (events w ++ [e]).

(** One more toolkit call: the other thread's pending destruction comes
    one call closer, and happens when its count is used up. *)
Definition tick (w : World) : World :=
  match tk_doom w with
  | None => w
  | Some (v, O) =>
      match tk_windows w !! v with
      | Some _ => add_event (DestroyedElsewhere v) (set_doom None (set_windows (delete v) w))
      | None => set_doom None w
      end
  | Some (v, S k) => set_doom (Some (v, k)) w
  end.

(** ** The detection model *)

Definition image : Type := list (list (Z * Z * Z)).
Definition screenshot : Type := list (list (Z * Z * Z * Z)).

Record prediction : Type := mkPrediction {
  cls : nat;
  xyxy : Q * Q * Q * Q;
  conf : Q
}.

Record yolo : Type := mkYolo {
  weights : string;
  candidates : image -> list prediction
}.

Definition detection : Type := (Z * Z * Z * Z * Q).

(** ** The detector object *)

Record Detector : Type := mkDetector {
  verbose : bool;
  model : yolo;
  confidence_threshold : Q;
  screen_width : Z;
  screen_height : Z;
  running : bool;
  overlay_window : option nat;
  canvas : option nat;
  frame_skip : Z;
  frame_count : Z;
  last_output_time : Q;
  output_interval : Q;
  process_thread : bool
}.

Definition set_running (b : bool) (d : Detector) : Detector :=
  mkDetector (verbose d) (model d) (confidence_threshold d) (screen_width d)
    (screen_height d) b (overlay_window d) (canvas d) (frame_skip d)
    (frame_count d) (last_output_time d) (output_interval d) (process_thread d).
Definition set_overlay_window (o : option nat) (d : Detector) : Detector :=
  mkDetector (verbose d) (model d) (confidence_threshold d) (screen_width d)
    (screen_height d) (running d) o (canvas d) (frame_skip d)
    (frame_count d) (last_output_time d) (output_interval d) (process_thread d).
Definition set_canvas (o : option nat) (d : Detector) : Detector :=
  mkDetector (verbose d) (model d) (confidence_threshold d) (screen_width d)
    (screen_height d) (running d) (overlay_window d) o (frame_skip d)
    (frame_count d) (last_output_time d) (output_interval d) (process_thread d).
Definition set_frame_count (n : Z) (d : Detector) : Detector :=
  mkDetector (verbose d) (model d) (confidence_threshold d) (screen_width d)
    (screen_height d) (running d) (overlay_window d) (canvas d) (frame_skip d)
    n (last_output_time d) (output_interval d) (process_thread d).
Definition set_last_output_time (t : Q) (d : Detector) : Detector :=
  mkDetector (verbose d) (model d) (confidence_threshold d) (screen_width d)
    (screen_height d) (running d) (overlay_window d) (canvas d) (frame_skip d)
    (frame_count d) t (output_interval d) (process_thread d).
Definition set_process_thread (b : bool) (d : Detector) : Detector :=
  mkDetector (verbose d) (model d) (confidence_threshold d) (screen_width d)
    (screen_height d) (running d) (overlay_window d) (canvas d) (frame_skip d)
    (frame_count d) (last_output_time d) (output_interval d) b.

(** ** Computations over the store *)

Definition store : Type := Detector * World.

Definition M (A : Type) : Type := store -> outcome A * store.

Definition ret {A} (a : A) : M A := fun st => (Returned a, st).

Definition raise {A} (e : exn) : M A := fun st => (Raised e, st).

Definition bind {A B} (m : M A) (k : A -> M B) : M B :=
  fun st =>
    match m st with
    | (Returned a, st') => k a st'
    | (Raised e, st') => (Raised e, st')
    end.

Notation "x <- m ;; k" := (bind m (fun x => k))
  (at level 100, m at next level, right associativity).
Notation "m ;; k" := (bind m (fun _ => k))
  (at level 100, right associativity).

(** [try: body except <class>: handler] *)
Definition try_except {A} (body : M A) (catches : exn -> bool) (handler : exn -> M A) : M A :=
  fun st =>
    match body st with
    | (Raised e, st') => if catches e then handler e st' else (Raised e, st')
    | r => r
    end.

Definition self : M Detector := fun st => (Returned (fst st), st).
Definition assign (f : Detector -> Detector) : M unit :=
  fun st => (Returned tt, (f (fst st), snd st)).
Definition world : M World := fun st => (Returned (snd st), st).
Definition act (f : World -> World) : M unit :=
  fun st => (Returned tt, (fst st, f (snd st))).
Definition emit (e : event) : M unit := act (add_event e).
Definition when (b : bool) (m : M unit) : M unit := if b then m else ret tt.

Fixpoint for_each {A} (l : list A) (body : A -> M unit) : M unit :=
  match l with
  | [] => ret tt
  | x :: l' => body x ;; for_each l' body
  end.

(** An external call that the environment lets fail. *)
Definition external (fault : option exn) : M unit :=
  match fault with
  | Some e => raise e
  | None => ret tt
  end.

(** *** Toolkit calls

    A call on a window that no longer exists raises [TclError]. *)

Definition dead_window : exn := TclError "application has been destroyed".

Definition tk_on (w : nat) (op : tkwin -> tkwin) : M unit :=
  act tick ;;
  wd <- world ;;
  match tk_windows wd !! w with
  | Some win => act (set_windows <[w := op win]>)
  | None => raise dead_window
  end.

Definition canvas_on (c : nat) (op : tkcanvas -> tkcanvas) : M unit :=
  act tick ;;
  wd <- world ;;
  match tk_windows wd !! c with
  | Some win =>
      match w_canvas win with
      | Some cv => act (set_windows <[c := mkWin (w_options win) (Some (op cv))]>)
      | None => raise dead_window
      end
  | None => raise dead_window
  end.

Definition configure (key value : string) (win : tkwin) : tkwin :=
  mkWin (w_options win ++ [(key, value)]) (w_canvas win).

Definition add_item (it : item) (cv : tkcanvas) : tkcanvas :=
  mkCanvas (cv_width cv) (cv_height cv) (cv_bg cv)
    (S (next_item cv)) (items cv ++ [(next_item cv, it)]).

Definition delete_all (cv : tkcanvas) : tkcanvas :=
  mkCanvas (cv_width cv) (cv_height cv) (cv_bg cv) (next_item cv) [].

(** [tk.Tk()] *)
Definition tk_Tk : M nat :=
  wd <- world ;;
  let w := tk_next wd in
  act (fun wd => set_next (S w) (set_windows <[w := mkWin [] None]> wd)) ;;
  emit (TkCreate w) ;;
  ret w.

Definition tk_destroy (w : nat) : M unit :=
  act tick ;;
  wd <- world ;;
  match tk_windows wd !! w with
  | Some _ => act (set_windows (delete w)) ;; emit (TkDestroy w)
  | None => raise dead_window
  end.

Definition tk_quit (w : nat) : M unit := tk_on w id ;; emit (TkQuit w).
Definition tk_update (w : nat) : M unit := tk_on w id ;; emit (TkUpdate w).
Definition tk_mainloop (w : nat) : M unit := tk_on w id ;; emit (TkMainloop w).

(** ** [ScreenPersonDetector.__init__] *)

Record InitEnv : Type := mkInitEnv {
  path_exists : string -> bool;          (* os.path.exists *)
  load_model : string -> outcome yolo;   (* YOLO(model_path, task='detect') *)
  screen_size : outcome (Z * Z);         (* pyautogui.size() *)
  init_time : Q                          (* time.time() *)
}.

Definition missing_model (model_path : string) : exn :=
  FileNotFoundError ("模型文件 " +:+ model_path +:+ " 不存在").

Definition init (env : InitEnv) (model_path : string) (confidence_threshold : Q)
    (verbose : bool) (wd : World) : outcome Detector * World :=
  if path_exists env model_path then
    let wd := if verbose then add_event (Print (UsingModel model_path)) wd else wd in
    match load_model env model_path with
    | Raised e => (Raised e, wd)
    | Returned m =>
        match screen_size env with
        | Raised e => (Raised e, wd)
        | Returned (w, h) =>
            (Returned (mkDetector verbose m confidence_threshold w h
                         false None None 1 0 (init_time env) 5 false), wd)
        end
    end
  else (Raised (missing_model model_path), wd).

(** ** [create_overlay_window] *)

(** The toolkit calls of the [try] block, in order; the environment may let
    any one of them fail (no display, an attribute the platform lacks). *)
Inductive create_step : Type :=
| CallTk | CallTitle | CallGeometry | CallOverrideredirect | CallTopmost
| CallTransparentcolor | CallLift | CallCanvas | CallPack | CallProtocol
| CallBind.

#[global] Instance create_step_eq_dec : EqDecision create_step.
Proof. solve_decision. Defined.

Definition step {A} (fault : option (create_step * exn)) (s : create_step)
    (call : M A) : M A :=
  match fault with
  | Some (s', e) => if decide (s' = s) then raise e else call
  | None => call
  end.

(** [self.overlay_window.<method>]: the attribute is read at each use. *)
Definition on_window {A} (call : nat -> M A) : M A :=
  d <- self ;;
  match overlay_window d with
  | Some w => call w
  | None => raise (AttributeError "'NoneType' object has no attribute")
  end.

(** [self.canvas.<method>]: the attribute exists once a canvas was made. *)
Definition on_canvas {A} (call : nat -> M A) : M A :=
  d <- self ;;
  match canvas d with
  | Some c => call c
  | None => raise (AttributeError "'ScreenPersonDetector' object has no attribute 'canvas'")
  end.

Definition tk_Canvas (w : nat) (width height : Z) (bg : string) : M nat :=
  tk_on w (fun win => mkWin (w_options win) (Some (mkCanvas width height bg 1 []))) ;;
  ret w.

Definition create_overlay_window (fault : option (create_step * exn)) : M unit :=
  d <- self ;;
  match overlay_window d with
  | Some old => try_except (tk_destroy old) is_TclError (fun _ => ret tt)
  | None => ret tt
  end ;;
  try_except
    (w <- step fault CallTk tk_Tk ;;
     assign (set_overlay_window (Some w)) ;;
     step fault CallTitle
       (on_window (fun w => tk_on w (configure "title" "Person Detection Overlay"))) ;;
     d <- self ;;
     step fault CallGeometry
       (on_window (fun w => tk_on w (configure "geometry"
          (str_int (screen_width d) +:+ "x" +:+ str_int (screen_height d) +:+ "+0+0")))) ;;
     step fault CallOverrideredirect
       (on_window (fun w => tk_on w (configure "overrideredirect" "True"))) ;;
     step fault CallTopmost
       (on_window (fun w => tk_on w (configure "-topmost" "True"))) ;;
     step fault CallTransparentcolor
       (on_window (fun w => tk_on w (configure "-transparentcolor" "white"))) ;;
     step fault CallLift (on_window (fun w => tk_on w id)) ;;
     d <- self ;;
     c <- step fault CallCanvas
       (on_window (fun w => tk_Canvas w (screen_width d) (screen_height d) "white")) ;;
     assign (set_canvas (Some c)) ;;
     step fault CallPack (on_canvas (fun c => canvas_on c id)) ;;
     step fault CallProtocol
       (on_window (fun w => tk_on w (configure "WM_DELETE_WINDOW" "stop_detection"))) ;;
     step fault CallBind
       (on_window (fun w => tk_on w (configure "<Escape>" "stop_detection"))))
    is_Exception
    (fun e =>
       d <- self ;;
       when (verbose d) (emit (Print (OverlayError (str_exn e)))) ;;
       assign (set_overlay_window None)).

(** ** [update_overlay] *)

Definition draw (det : detection) : M unit :=
  let '(x1, y1, x2, y2, confidence) := det in
  on_canvas (fun c => canvas_on c
    (add_item (Rectangle x1 y1 x2 y2 "red" None 3))) ;;
  let label := "Person: " +:+ format_2f confidence in
  on_canvas (fun c => canvas_on c
    (add_item (Rectangle (x1 - 2) (y1 - 25) (x1 + 120) (y1 - 5) "red" (Some "white") 1))) ;;
  on_canvas (fun c => canvas_on c
    (add_item (Text x1 (y1 - 10) label "red" "sw" ("Arial", 14, "bold")))).

Definition update_overlay (detections : list detection) : M unit :=
  d <- self ;;
  match overlay_window d with
  | None => ret tt
  | Some _ =>
      try_except
        (on_canvas (fun c => canvas_on c delete_all) ;;
         for_each detections draw ;;
         on_window tk_update)
        is_TclError
        (fun _ => assign (set_overlay_window None))
  end.

(** ** [stop_detection] *)

#[global] Instance thread_eq_dec : EqDecision thread.
Proof. solve_decision. Defined.

(** [self.process_thread.join(timeout=1.0)]; [finished] tells whether the
    worker ends within the timeout.  A thread cannot join itself. *)
Definition thread_join (caller : thread) (finished : bool) : M unit :=
  if decide (caller = WorkerThread)
  then raise (RuntimeError "cannot join current thread")
  else emit (ThreadJoin 1) ;; when finished (act (set_worker_alive false)).

Definition stop_detection (caller : thread) (finished : bool) : M unit :=
  assign (set_running false) ;;
  d <- self ;;
  wd <- world ;;
  when (process_thread d && worker_alive wd) (thread_join caller finished) ;;
  d <- self ;;
  match overlay_window d with
  | Some _ =>
      try_except
        (when (bool_decide (caller = MainThread))
           (on_window tk_quit ;; on_window tk_destroy))
        is_TclError
        (fun _ => ret tt) ;;
      assign (set_overlay_window None)
  | None => ret tt
  end ;;
  d <- self ;;
  when (verbose d) (emit (Print Stopped)).

(** ** [process_screen] *)

(** Modelled from the spec: the detection model (the ultralytics library, not
    part of the repository).  "Confidence threshold: minimum score for a
    detection to be kept"; "class_filter restricts to the person category
    only".  One result per input image. *)
Definition predict (m : yolo) (frame : image) (threshold : Q) (classes : list nat)
    : list (list prediction) :=
  [List.filter
     (fun p => Qle_bool threshold (conf p) && bool_decide (cls p ∈ classes))
     (candidates m frame)].

(** The two nested [for] loops that fill [detections]. *)
Definition collect (results : list (list prediction)) : list detection :=
  fold_left
    (fun (detections : list detection) boxes =>
       fold_left
         (fun (detections : list detection) box =>
            let '(x1, y1, x2, y2) := xyxy box in
            (detections ++
               [(int_of_float x1, int_of_float y1, int_of_float x2, int_of_float y2,
                 conf box)])%list)
         boxes detections)
    results [].

Definition drop_alpha (px : Z * Z * Z * Z) : Z * Z * Z :=
  let '(b, g, r, _) := px in (b, g, r).

(** What the environment does during one pass of the loop. *)
Record IterEnv : Type := mkIterEnv {
  controller_stopped : bool;     (* [running] was cleared before the test *)
  grab : outcome screenshot;     (* sct.grab(monitor) *)
  np_array_fault : option exn;   (* np.array(screenshot) *)
  cvtColor_fault : option exn;   (* cv2.cvtColor(frame, COLOR_BGRA2BGR) *)
  inference_fault : option exn;  (* self.model(frame, ...) *)
  now : Q                        (* time.time() *)
}.

Definition external_value {A} (r : outcome A) : M A :=
  match r with
  | Returned a => ret a
  | Raised e => raise e
  end.

(** The body of the inner [try]; [device] only goes to the model call. *)
Definition body (device : string) (env : IterEnv) : M unit :=
  d <- self ;;
  assign (set_frame_count (frame_count d + 1)) ;;
  d <- self ;;
  if frame_skip d =? 0 then raise ZeroDivisionError
  else if negb (frame_count d mod frame_skip d =? 0) then emit (Sleep (1 # 100))
  else
    screenshot <- external_value (grab env) ;;
    external (np_array_fault env) ;;
    external (cvtColor_fault env) ;;
    let frame := map (map drop_alpha) screenshot in
    d <- self ;;
    external (inference_fault env) ;;
    let results := predict (model d) frame (confidence_threshold d) [0%nat] in
    let detections := collect results in
    update_overlay detections ;;
    let current_time := now env in
    d <- self ;;
    when (verbose d &&
          Qle_bool (output_interval d) (Qminus current_time (last_output_time d)))
      (emit (Print (Status (frame_count d) (length detections))) ;;
       assign (set_last_output_time current_time)) ;;
    d <- self ;;
    when (frame_count d mod 30 =? 0) (emit GcCollect).

(** One pass of the loop: the body under [except Exception]. *)
Definition iteration (device : string) (env : IterEnv) : M unit :=
  try_except (body device env) is_Exception
    (fun e =>
       let current_time := now env in
       d <- self ;;
       when (verbose d && Qle_bool 1 (Qminus current_time (last_output_time d)))
         (emit (Print (ProcessingError (substring 0 100 (str_exn e) +:+ "..."))) ;;
          assign (set_last_output_time current_time)) ;;
       emit (Sleep (1 # 10))).

Inductive loop_status : Type := LoopExited | StillRunning.

(** [while self.running: ...] along a script of the environment; the script
    is the part of the run under observation. *)
Fixpoint while_running (device : string) (script : list IterEnv) : M loop_status :=
  match script with
  | [] => ret StillRunning
  | env :: rest =>
      when (controller_stopped env) (assign (set_running false)) ;;
      d <- self ;;
      if running d
      then iteration device env ;; while_running device rest
      else ret LoopExited
  end.

Record LoopEnv : Type := mkLoopEnv {
  mss_fault : option exn;               (* mss.mss() *)
  monitors : list (Z * Z * Z * Z);      (* sct.monitors *)
  start_time : Q;                       (* time.time() *)
  cuda_available : bool                 (* torch.cuda.is_available() *)
}.

Definition process_screen (lenv : LoopEnv) (script : list IterEnv) : M loop_status :=
  try_except
    (external (mss_fault lenv) ;;
     _ <- match nth_error (monitors lenv) 1 with
          | Some monitor => ret monitor
          | None => raise (IndexError "list index out of range")
          end ;;
     assign (set_last_output_time (start_time lenv)) ;;
     let device := if cuda_available lenv then "cuda" else "cpu" in
     d <- self ;;
     when (verbose d)
       (emit (Print (MonitorStart (screen_width d) (screen_height d))) ;;
        emit (Print (UsingDevice device)) ;;
        emit (Print (StatusEvery (output_interval d)))) ;;
     while_running device script)
    is_Exception
    (fun e =>
       d <- self ;;
       when (verbose d) (emit (Print (CaptureError (str_exn e)))) ;;
       ret LoopExited).

(** ** [start_detection] *)

Record StartEnv : Type := mkStartEnv {
  create_fault : option (create_step * exn);
  thread_fault : option exn;      (* Thread.start() *)
  mainloop_fault : option exn;    (* an error escaping mainloop() *)
  join_finished : bool
}.

(** The worker runs [process_screen] beside this thread; callbacks that run
    inside [mainloop] (Escape, the close button) are calls of
    [stop_detection] on the main thread.

    [worker_alive] is [is_alive()] of the thread object that
    [self.process_thread] holds.  The assignment of line 193 puts a new
    [Thread] there, which is not alive until [start()] has succeeded; a
    worker of an earlier start is then out of the detector's reach. *)
Definition start_detection (caller : thread) (env : StartEnv) : M unit :=
  try_except
    (assign (set_running true) ;;
     create_overlay_window (create_fault env) ;;
     assign (set_process_thread true) ;;
     act (set_worker_alive false) ;;
     external (thread_fault env) ;;
     act (set_worker_alive true) ;;
     emit ThreadStart ;;
     d <- self ;;
     match overlay_window d with
     | Some _ => on_window tk_mainloop ;; external (mainloop_fault env)
     | None => ret tt
     end)
    is_Exception
    (fun e =>
       d <- self ;;
       when (verbose d) (emit (Print (StartError (str_exn e)))) ;;
       stop_detection caller (join_finished env)).

(** ** The program *)

Record MainEnv : Type := mkMainEnv {
  init_env : InitEnv;
  start_env : StartEnv
}.

(** The [__main__] block, up to the return of [start_detection]. *)
Definition main (env : MainEnv) (wd : World) : World :=
  let wd := add_event (SignalInstalled "SIGTERM") (add_event (SignalInstalled "SIGINT") wd) in
  match init (init_env env) "yolov8x.pt" (3 # 10) false wd with
  | (Returned detector, wd) =>
      let wd := add_event (Print Banner) wd in
      match start_detection MainThread (start_env env) (detector, wd) with
      | (Returned _, (_, wd)) => wd
      | (Raised e, (_, wd)) =>
          add_event (Print StartupHint) (add_event (Print (StartupFailed (str_exn e))) wd)
      end
  | (Raised e, wd) =>
      add_event (Print StartupHint) (add_event (Print (StartupFailed (str_exn e))) wd)
  end.

(** * Notions used in the statements *)

(** ** Running computations *)

Definition result_of {A} (r : outcome A * store) : outcome A := fst r.
Definition detector_of {A} (r : outcome A * store) : Detector := fst (snd r).
Definition world_of {A} (r : outcome A * store) : World := snd (snd r).

(** What [draw] puts on the canvas for one detection: the box outline, the
    label's background, the label. *)
Definition glyphs (det : detection) : list item :=
  let '(x1, y1, x2, y2, confidence) := det in
  [Rectangle x1 y1 x2 y2 "red" None 3;
   Rectangle (x1 - 2) (y1 - 25) (x1 + 120) (y1 - 5) "red" (Some "white") 1;
   Text x1 (y1 - 10) ("Person: " +:+ format_2f confidence) "red" "sw" ("Arial", 14, "bold")].

Definition add_items (its : list item) (cv : tkcanvas) : tkcanvas :=
  fold_left (fun cv it => add_item it cv) its cv.

Definition with_canvas (c : nat) (win : tkwin) (cv : tkcanvas) (wd : World) : World :=
  set_windows <[c := mkWin (w_options win) (Some cv)]> wd.

(** The canvas after a redraw: emptied, then the glyphs of each detection. *)
Definition repaint (dets : list detection) (cv : tkcanvas) : tkcanvas :=
  add_items (flat_map glyphs dets) (delete_all cv).

(** Counting what is on the canvas. *)
Definition rectangle_at (x1 y1 x2 y2 : Z) (it : item) : bool :=
  match it with
  | Rectangle a b c e _ _ _ => (a =? x1) && (b =? y1) && (c =? x2) && (e =? y2)
  | Text _ _ _ _ _ _ => false
  end.

Definition outline_at (x1 y1 x2 y2 : Z) (it : item) : bool :=
  match it with
  | Rectangle a b c e _ None _ => (a =? x1) && (b =? y1) && (c =? x2) && (e =? y2)
  | _ => false
  end.

Definition is_rectangle (it : item) : bool :=
  match it with Rectangle _ _ _ _ _ _ _ => true | _ => false end.

Definition label_of (it : item) : option string :=
  match it with Text _ _ text _ _ _ => Some text | _ => None end.

Definition labels (its : list item) : list string := omap label_of its.

Definition box_at (x1 y1 x2 y2 : Z) (det : detection) : bool :=
  let '(a, b, c, e, _) := det in (a =? x1) && (b =? y1) && (c =? x2) && (e =? y2).

Definition count {A} (p : A -> bool) (l : list A) : nat := length (List.filter p l).

Definition confidence_of (det : detection) : Q := snd det.

(** A detector in operation: window 0 with its canvas, worker started. *)
Definition sample_model : yolo :=
  mkYolo "yolov8x.pt"
    (fun _ => [mkPrediction 0 (10.7, 10.2, 50.9, 90.1)%Q (87 # 100);
               mkPrediction 0 (300, 20, 380, 200)%Q (2 # 10);
               mkPrediction 16 (5, 5, 60, 40)%Q (9 # 10)]).

Definition sample_detector : Detector :=
  mkDetector false sample_model (3 # 10) 1920 1080 true (Some 0%nat) (Some 0%nat)
    1 0 0 5 true.

Definition sample_window : tkwin :=
  mkWin [("title", "Person Detection Overlay"); ("geometry", "1920x1080+0+0");
         ("overrideredirect", "True"); ("-topmost", "True");
         ("-transparentcolor", "white"); ("WM_DELETE_WINDOW", "stop_detection");
         ("<Escape>", "stop_detection")]
    (Some (mkCanvas 1920 1080 "white" 4
       [(1%nat, Rectangle 700 300 760 480 "red" None 3);
        (2%nat, Rectangle 698 275 820 295 "red" (Some "white") 1);
        (3%nat, Text 700 290 "Person: 0.55" "red" "sw" ("Arial", 14, "bold"))])).

Definition sample_world : World :=
  mkWorld {[0%nat := sample_window]} 1 None true [TkCreate 0; ThreadStart; TkUpdate 0].

(** What is on screen: for each window, the display list of its canvas. *)
Definition screen (wd : World) : gmap nat (option (list item)) :=
  (fun win => visible <$> w_canvas win) <$> tk_windows wd.

(** ** A program logic for the computations

    [hoare P m Q]: from a store satisfying [P], [m] ends in an outcome and a
    store related by [Q].  Computations are total, so this is total
    correctness. *)

Definition hoare {A} (P : store -> Prop) (m : M A) (Q : outcome A -> store -> Prop) : Prop :=
  forall st, P st -> Q (fst (m st)) (snd (m st)).

(** ** Rendering on a window that another thread destroys *)

(** The destruction of [w] by the other thread comes before the [k]-th next
    toolkit call. *)
Definition pending (w : nat) (k : nat) (wd : World) : Prop :=
  exists j, tk_doom wd = Some (w, j) /\ (j < k)%nat.

Definition doomed (w : nat) (k : nat) (wd : World) : Prop :=
  tk_windows wd !! w = None \/ pending w k wd.

Definition raised_dead_or {A} (d : Detector) (P : World -> Prop)
    (r : outcome A) (st : store) : Prop :=
  fst st = d /\
  match r with
  | Raised e => e = dead_window
  | Returned _ => P (snd st)
  end.

(** [m] makes [n] toolkit calls on [w], each of which may be the one that
    finds the window destroyed. *)
Definition counts_down (w : nat) (d : Detector) (n : nat) (m : M unit) : Prop :=
  forall k,
    hoare (fun st => fst st = d /\ doomed w k (snd st)) m
      (raised_dead_or d (fun wd => exists k', k = (n + k')%nat /\ doomed w k' wd)).

Definition doomed_world : World :=
  mkWorld {[0%nat := sample_window]} 1 (Some (0%nat, 2%nat)) true
    [TkCreate 0; ThreadStart; TkUpdate 0].

(** ** What a computation leaves alone *)

(** [stable f m]: the observation [f] of the world is the same after [m],
    however [m] ends. *)
Definition stable {A X} (f : World -> X) (m : M A) : Prop :=
  forall st, f (snd (snd (m st))) = f (snd st).

(** Observations that depend on the log of events only through the count of
    some kind of event, a kind that [tick] does not produce. *)
Definition is_mainloop (e : event) : bool :=
  match e with TkMainloop _ => true | _ => false end.

Definition is_destroy (w : nat) (e : event) : bool :=
  match e with TkDestroy v => bool_decide (v = w) | _ => false end.

(** A call made by this program on the toolkit. *)
Definition is_tk_call (e : event) : bool :=
  match e with
  | TkCreate _ | TkDestroy _ | TkQuit _ | TkMainloop _ | TkUpdate _ => true
  | _ => false
  end.

Definition mainloops (wd : World) : nat := count is_mainloop (events wd).
Definition tk_calls (wd : World) : nat := count is_tk_call (events wd).
Definition destroys (w : nat) (wd : World) : nat := count (is_destroy w) (events wd).

(** ** Window creation that fails *)

(** [fails m]: [m] raises, whatever the store. *)
Definition fails {A} (m : M A) : Prop :=
  forall st, exists e st', m st = (Raised e, st').

(** [returns m]: [m] does not raise. *)
Definition returns {A} (m : M A) : Prop :=
  forall st, exists a st', m st = (Returned a, st').

(** Toolkit calls leave the detector alone and raise nothing but [TclError]. *)
Definition toolkit_call {A} (m : M A) : Prop :=
  forall d wd, exists wd',
    (exists a, m (d, wd) = (Returned a, (d, wd'))) \/
    m (d, wd) = (Raised dead_window, (d, wd')).

(** The world after the [join] of [stop_detection]. *)
Definition joined (finished : bool) (d : Detector) (wd : World) : World :=
  if process_thread d && worker_alive wd
  then (if finished then set_worker_alive false else id) (add_event (ThreadJoin 1) wd)
  else wd.

Definition announced (d : Detector) (wd : World) : World :=
  if verbose d then add_event (Print Stopped) wd else wd.

(** ** Creating the window again *)

(** The number of live windows after each event of a log, from [n] before. *)
Fixpoint live_along (n : nat) (evs : list event) : list nat :=
  match evs with
  | [] => []
  | e :: rest =>
      let n' := match e with
                | TkCreate _ => S n
                | TkDestroy _ | DestroyedElsewhere _ => pred n
                | _ => n
                end in
      n' :: live_along n' rest
  end.

(** ** The capture loop *)

(** [keeps g m]: the observation [g] of the detector is the same after [m],
    however [m] ends. *)
Definition keeps {A X} (g : Detector -> X) (m : M A) : Prop :=
  forall st, g (fst (snd (m st))) = g (fst st).

(** What the handler of an iteration adds to the log. *)
Definition error_log (env : IterEnv) (e : exn) (d : Detector) : list event :=
  (if verbose d && Qle_bool 1 (Qminus (now env) (last_output_time d))
   then [Print (ProcessingError (substring 0 100 (str_exn e) +:+ "..."))]
   else []) ++ [Sleep (1 # 10)].

Definition failing_capture : IterEnv :=
  mkIterEnv false (Raised (LibraryError "XGetImage() failed")) None None None 12.

Definition good_capture : IterEnv :=
  mkIterEnv false (Returned [[(0, 0, 0, 255); (1, 2, 3, 255)]]) None None None 13.

(** ** Start-up *)

Definition is_startup_failure (e : event) : bool :=
  match e with Print (StartupFailed _) => true | _ => false end.

Definition is_thread_start (e : event) : bool :=
  match e with ThreadStart => true | _ => false end.

Definition startup_failures (wd : World) : nat := count is_startup_failure (events wd).
Definition thread_starts (wd : World) : nat := count is_thread_start (events wd).

Definition no_weights : InitEnv :=
  mkInitEnv (fun _ => false) (fun p => Returned (mkYolo p (fun _ => [])))
    (Returned (1920, 1080)) 0.

Definition plain_start : StartEnv := mkStartEnv None None None true.

Definition fresh_world : World := mkWorld ∅ 0 None false [].

(** ** Filtering by confidence *)

Definition to_detection (box : prediction) : detection :=
  let '(x1, y1, x2, y2) := xyxy box in
  (int_of_float x1, int_of_float y1, int_of_float x2, int_of_float y2, conf box).

(** ** Windows in the whole program *)

Definition is_create (e : event) : bool :=
  match e with TkCreate _ => true | _ => false end.

Definition creates (evs : list event) : nat := count is_create evs.

(** [makes_windows n m]: [m] only appends to the log, creates at most [n]
    windows, and the toolkit has no more windows afterwards than it had
    before plus those created. *)
Definition grows (n : nat) (before after : World) : Prop :=
  exists new,
    events after = events before ++ new /\
    (creates new <= n)%nat /\
    (size (tk_windows after) <= size (tk_windows before) + creates new)%nat.

Definition makes_windows {A} (n : nat) (m : M A) : Prop :=
  forall st, grows n (snd st) (snd (snd (m st))).

Definition first_run : outcome unit * store :=
  create_overlay_window None
    (mkDetector false sample_model (3 # 10) 1920 1080 false None None 1 0 0 5 false,
     fresh_world).

(** Where the platform has no [-transparentcolor] attribute the creation
    fails at that call: the reference is dropped, the half-made window is
    not destroyed. *)
Definition no_transparency : option (create_step * exn) :=
  Some (CallTransparentcolor, TclError "bad attribute -transparentcolor").

Definition failed_run : outcome unit * store :=
  create_overlay_window no_transparency
    (mkDetector true sample_model (3 # 10) 1920 1080 false None None 1 0 0 5 false,
     fresh_world).

Definition three_passes : outcome loop_status * store :=
  process_screen (mkLoopEnv None [(0, 0, 3840, 1080); (0, 0, 1920, 1080)] 11 false)
    [good_capture; failing_capture; good_capture]
    (set_overlay_window (Some 0%nat) sample_detector, sample_world).

(** ** Numbers with two decimals *)

(** The character of a decimal digit. *)
Definition digit (z : Z) : string := String (Ascii.ascii_of_N (48 + Z.to_N z)) "".

(** A natural number in decimal, without leading zeros. *)
Definition decimal (n : Z) : string := NilZero.string_of_uint (N.to_uint (Z.to_N n)).

(** [text] is [x] written with two decimals: a minus sign for a negative
    [x], the integer part, the point and two digits, which together denote
    the hundredth nearest to [x], the even one of two equally near. *)
Definition two_decimals (x : Q) (text : string) : Prop :=
  exists n d1 d2 : Z,
    0 <= n /\ 0 <= d1 <= 9 /\ 0 <= d2 <= 9 /\
    text = (if Qle_bool 0 x then "" else "-") +:+ decimal n +:+ "." +:+ digit d1 +:+ digit d2 /\
    let h := 100 * n + 10 * d1 + d2 in
    (Qabs (Qabs x * 100 - inject_Z h) <= 1 # 2)%Q /\
    ((Qabs (Qabs x * 100 - inject_Z h) == 1 # 2)%Q -> Z.even h = true).

(** ** What shows through the overlay *)

(** The fill colour of an item, if it has one. *)
Definition fill_of (it : item) : option string :=
  match it with
  | Rectangle _ _ _ _ _ fill _ => fill
  | Text _ _ _ _ _ _ => None
  end.

(** The colour that [attributes("-transparentcolor", c)] has made
    transparent in a window: the last one set. *)
Definition transparent_colour (win : tkwin) : option string :=
  snd <$> List.find (fun kv => String.eqb (fst kv) "-transparentcolor")
            (rev (w_options win)).

(** ** Further notions *)

(** No pass of the script sees the flag cleared by the controller. *)
Definition undisturbed (script : list IterEnv) : Prop :=
  Forall (fun env => controller_stopped env = false) script.

Definition stop_request : IterEnv :=
  mkIterEnv true (Returned [[(0, 0, 0, 255)]]) None None None 14.

Definition every_other_frame : Detector :=
  mkDetector false sample_model (3 # 10) 1920 1080 true (Some 0%nat) (Some 0%nat)
    2 0 0 5 true.

Definition talkative : Detector :=
  mkDetector true sample_model (3 # 10) 1920 1080 true (Some 0%nat) (Some 0%nat)
    1 0 0 5 true.

Definition failing_again : IterEnv :=
  mkIterEnv false (Raised (LibraryError "XGetImage() failed")) None None None (25 # 2).

(** What a failed pass may add to the log: the error line and the sleep. *)
Definition is_error_trace (e : event) : bool :=
  match e with
  | Sleep _ | Print (ProcessingError _) => true
  | _ => false
  end.

Definition zero_stride : Detector :=
  mkDetector false sample_model (3 # 10) 1920 1080 true (Some 0%nat) (Some 0%nat)
    0 0 0 5 true.

(** The toolkit calls that decide over a window's life. *)
Definition is_lifecycle_call (e : event) : bool :=
  match e with
  | TkCreate _ | TkDestroy _ | TkQuit _ | TkMainloop _ => true
  | _ => false
  end.

Definition lifecycle_calls (wd : World) : nat := count is_lifecycle_call (events wd).

Definition thirtieth_frame : Detector :=
  mkDetector true sample_model (3 # 10) 1920 1080 true (Some 0%nat) (Some 0%nat)
    1 29 0 5 true.

(** [toolkit_calls_of d m]: run by detector [d], [m] is a sequence of
    toolkit calls: it leaves [d] alone and raises nothing but [TclError]. *)
Definition toolkit_calls_of (d : Detector) (m : M unit) : Prop :=
  forall wd, exists wd',
    m (d, wd) = (Returned tt, (d, wd')) \/ m (d, wd) = (Raised dead_window, (d, wd')).

(** The overlay as configured by a creation in which nothing fails. *)
Definition overlay_of (d : Detector) : tkwin :=
  mkWin [("title", "Person Detection Overlay");
         ("geometry", str_int (screen_width d) +:+ "x" +:+ str_int (screen_height d) +:+ "+0+0");
         ("overrideredirect", "True"); ("-topmost", "True");
         ("-transparentcolor", "white"); ("WM_DELETE_WINDOW", "stop_detection");
         ("<Escape>", "stop_detection")]
    (Some (mkCanvas (screen_width d) (screen_height d) "white" 1 [])).

(** The world once the window held so far is gone. *)
Definition without_old (d : Detector) (wd : World) : World :=
  match overlay_window d with
  | Some old =>
      match tk_windows wd !! old with
      | Some _ => add_event (TkDestroy old) (set_windows (delete old) wd)
      | None => wd
      end
  | None => wd
  end.

(** A postcondition for computations that may give up by raising. *)
Definition if_returned {A} (G : store -> Prop) (r : outcome A) (st : store) : Prop :=
  match r with
  | Returned _ => G st
  | Raised _ => True
  end.

(** Detector [d], with window [w] in state [win]. *)
Definition holding (d : Detector) (w : nat) (win : tkwin) (st : store) : Prop :=
  fst st = d /\ tk_windows (snd st) !! w = Some win.

Definition no_threads : StartEnv :=
  mkStartEnv None (Some (RuntimeError "can't start new thread")) None true.

Definition all_well : MainEnv :=
  mkMainEnv
    (mkInitEnv (fun _ => true) (fun _ => Returned sample_model) (Returned (2560, 1440)) 0)
    plain_start.

(** [z] is [x] with its fraction dropped: between zero and [x], less than
    one away from [x]. *)
Definition toward_zero (x : Q) (z : Z) : Prop :=
  ((0 <= x)%Q -> (inject_Z z <= x)%Q /\ (x < inject_Z z + 1)%Q /\ 0 <= z) /\
  ((x <= 0)%Q -> (x <= inject_Z z)%Q /\ (inject_Z z - 1 < x)%Q /\ z <= 0).

(** [preserves I m]: the invariant [I] of the store survives [m], however
    [m] ends. *)
Definition preserves {A} (I : store -> Prop) (m : M A) : Prop :=
  forall st, I st -> I (snd (m st)).

(** The detector holds no window, and the toolkit is in state [c]: its
    windows, the pending destruction and the number of calls made so far. *)
Definition headless (c : gmap nat tkwin * option (nat * nat) * nat) (st : store) : Prop :=
  overlay_window (fst st) = None /\
  (tk_windows (snd st), tk_doom (snd st), tk_calls (snd st)) = c.

(** The 10 ms sleep of a skipped frame. *)
Definition is_short_sleep (e : event) : bool :=
  match e with Sleep secs => Qeq_bool secs (1 # 100) | _ => false end.

Definition short_sleeps (wd : World) : nat := count is_short_sleep (events wd).

(** * Properties *)

Lemma bind_returned {A B} (m : M A) (k : A -> M B) st a st' :
  m st = (Returned a, st') -> bind m k st = k a st'.
Proof. intros H. unfold bind. now rewrite H. Qed.

Lemma bind_raised {A B} (m : M A) (k : A -> M B) st e st' :
  m st = (Raised e, st') -> bind m k st = (Raised e, st').
Proof. intros H. unfold bind. now rewrite H. Qed.

Lemma try_returned {A} (m : M A) c h st a st' :
  m st = (Returned a, st') -> try_except m c h st = (Returned a, st').
Proof. intros H. unfold try_except. now rewrite H. Qed.

Lemma try_caught {A} (m : M A) c h st e st' :
  m st = (Raised e, st') -> c e = true -> try_except m c h st = h e st'.
Proof. intros H Hc. unfold try_except. now rewrite H, Hc. Qed.

Lemma try_passed {A} (m : M A) c h st e st' :
  m st = (Raised e, st') -> c e = false -> try_except m c h st = (Raised e, st').
Proof. intros H Hc. unfold try_except. now rewrite H, Hc. Qed.

Lemma bind_assoc {A B C} (m : M A) (k : A -> M B) (k' : B -> M C) st :
  bind (bind m k) k' st = bind m (fun a => bind (k a) k') st.
Proof. unfold bind. now destruct (m st) as [[a|e] st']. Qed.

Lemma bind_self {B} (k : Detector -> M B) d wd : bind self k (d, wd) = k d (d, wd).
Proof. reflexivity. Qed.

Lemma bind_world {B} (k : World -> M B) d wd : bind world k (d, wd) = k wd (d, wd).
Proof. reflexivity. Qed.

Lemma bind_assign {B} f (k : unit -> M B) d wd :
  bind (assign f) k (d, wd) = k tt (f d, wd).
Proof. reflexivity. Qed.

Lemma bind_act {B} f (k : unit -> M B) d wd :
  bind (act f) k (d, wd) = k tt (d, f wd).
Proof. reflexivity. Qed.

Lemma bind_emit {B} e (k : unit -> M B) d wd :
  bind (emit e) k (d, wd) = k tt (d, add_event e wd).
Proof. reflexivity. Qed.

Lemma bind_ret {A B} (a : A) (k : A -> M B) st : bind (ret a) k st = k a st.
Proof. reflexivity. Qed.

Lemma bind_raise {A B} e (k : A -> M B) st : bind (raise e) k st = (Raised e, st).
Proof. reflexivity. Qed.

Lemma on_window_some {A} (call : nat -> M A) w d wd :
  overlay_window d = Some w -> on_window call (d, wd) = call w (d, wd).
Proof. intros H. unfold on_window. now rewrite bind_self, H. Qed.

Lemma on_canvas_some {A} (call : nat -> M A) c d wd :
  canvas d = Some c -> on_canvas call (d, wd) = call c (d, wd).
Proof. intros H. unfold on_canvas. now rewrite bind_self, H. Qed.

(** ** The toolkit when no other thread interferes *)

Lemma tick_quiet wd : tk_doom wd = None -> tick wd = wd.
Proof. intros H. unfold tick. now rewrite H. Qed.

Lemma set_windows_id wd m : tk_windows wd = m -> set_windows (fun _ => m) wd = wd.
Proof. intros <-. now destruct wd. Qed.

Lemma tk_on_quiet w op d wd :
  tk_doom wd = None ->
  tk_on w op (d, wd) =
    match tk_windows wd !! w with
    | Some win => (Returned tt, (d, set_windows <[w := op win]> wd))
    | None => (Raised dead_window, (d, wd))
    end.
Proof.
  intros H. unfold tk_on, bind, act, world. simpl. rewrite (tick_quiet _ H).
  now destruct (tk_windows wd !! w).
Qed.

Lemma canvas_on_quiet c op d wd :
  tk_doom wd = None ->
  canvas_on c op (d, wd) =
    match tk_windows wd !! c with
    | Some win =>
        match w_canvas win with
        | Some cv =>
            (Returned tt,
             (d, set_windows <[c := mkWin (w_options win) (Some (op cv))]> wd))
        | None => (Raised dead_window, (d, wd))
        end
    | None => (Raised dead_window, (d, wd))
    end.
Proof.
  intros H. unfold canvas_on, bind, act, world. simpl. rewrite (tick_quiet _ H).
  destruct (tk_windows wd !! c) as [win|]; [|done]. now destruct (w_canvas win).
Qed.

Lemma with_canvas_lookup c win cv wd :
  tk_windows (with_canvas c win cv wd) !! c = Some (mkWin (w_options win) (Some cv)).
Proof. unfold with_canvas. simpl. apply lookup_insert_eq. Qed.

Lemma with_canvas_twice c win win' cv cv' wd :
  with_canvas c win' cv' (with_canvas c win cv wd) = with_canvas c win' cv' wd.
Proof. unfold with_canvas, set_windows. simpl. now rewrite insert_insert_eq. Qed.

Lemma with_canvas_same c win cv wd :
  tk_windows wd !! c = Some win -> w_canvas win = Some cv ->
  with_canvas c win cv wd = wd.
Proof.
  intros Hw Hc. unfold with_canvas. destruct win as [o k]. simpl in *. subst k.
  destruct wd as [m n dm a ev]. unfold set_windows. simpl in *.
  now rewrite (insert_id _ _ _ Hw).
Qed.

Lemma draw_live det c win cv d wd :
  canvas d = Some c -> tk_doom wd = None ->
  tk_windows wd !! c = Some win -> w_canvas win = Some cv ->
  draw det (d, wd) = (Returned tt, (d, with_canvas c win (add_items (glyphs det) cv) wd)).
Proof.
  intros Hc Hd Hw Hcv. destruct det as [[[[x1 y1] x2] y2] confidence].
  unfold draw.
  erewrite bind_returned
    by (rewrite (on_canvas_some _ _ _ _ Hc), canvas_on_quiet, Hw, Hcv by done; reflexivity).
  erewrite bind_returned
    by (rewrite (on_canvas_some _ _ _ _ Hc), canvas_on_quiet by done; simpl;
        rewrite lookup_insert_eq; reflexivity).
  rewrite (on_canvas_some _ _ _ _ Hc), canvas_on_quiet by done. simpl.
  rewrite lookup_insert_eq. simpl.
  unfold with_canvas, set_windows. simpl. now rewrite !insert_insert_eq.
Qed.

Lemma add_items_app its its' cv :
  add_items (its ++ its') cv = add_items its' (add_items its cv).
Proof. unfold add_items. apply fold_left_app. Qed.

Lemma for_each_draw_live dets : forall c win cv d wd,
  canvas d = Some c -> tk_doom wd = None ->
  tk_windows wd !! c = Some win -> w_canvas win = Some cv ->
  for_each dets draw (d, wd) =
    (Returned tt, (d, with_canvas c win (add_items (flat_map glyphs dets) cv) wd)).
Proof.
  induction dets as [|det dets IH]; intros c win cv d wd Hc Hd Hw Hcv.
  - simpl. unfold ret. now rewrite (with_canvas_same _ _ _ _ Hw Hcv).
  - simpl for_each. erewrite bind_returned by (eapply draw_live; eauto).
    erewrite IH; eauto using with_canvas_lookup.
    cbn [flat_map]. now rewrite with_canvas_twice, add_items_app.
Qed.

Lemma tk_update_live w win d wd :
  tk_doom wd = None -> tk_windows wd !! w = Some win ->
  tk_update w (d, wd) = (Returned tt, (d, add_event (TkUpdate w) wd)).
Proof.
  intros Hd Hw. unfold tk_update.
  erewrite bind_returned by (rewrite tk_on_quiet, Hw by done; reflexivity).
  unfold emit, act, id. simpl. do 3 f_equal.
  destruct wd as [m n dm a ev]. unfold set_windows. simpl in *.
  now rewrite (insert_id _ _ _ Hw).
Qed.

Lemma tk_update_dead w d wd :
  tk_doom wd = None -> tk_windows wd !! w = None ->
  tk_update w (d, wd) = (Raised dead_window, (d, wd)).
Proof.
  intros Hd Hw. unfold tk_update.
  erewrite bind_raised; [reflexivity|]. now rewrite tk_on_quiet, Hw.
Qed.

(** [update_overlay] without interference, on a window that has a canvas. *)
Lemma update_overlay_quiet dets ow c win cv d wd :
  tk_doom wd = None ->
  overlay_window d = Some ow -> canvas d = Some c ->
  tk_windows wd !! c = Some win -> w_canvas win = Some cv ->
  update_overlay dets (d, wd) =
    let wd1 := with_canvas c win (repaint dets cv) wd in
    match tk_windows wd1 !! ow with
    | Some _ => (Returned tt, (d, add_event (TkUpdate ow) wd1))
    | None => (Returned tt, (set_overlay_window None d, wd1))
    end.
Proof.
  intros Hd How Hc Hw Hcv. unfold update_overlay. rewrite bind_self, How.
  set (wd0 := with_canvas c win (delete_all cv) wd).
  assert (H0 : (on_canvas (fun c => canvas_on c delete_all)) (d, wd)
               = (Returned tt, (d, wd0))).
  { rewrite (on_canvas_some _ _ _ _ Hc). now rewrite canvas_on_quiet, Hw, Hcv by done. }
  assert (H1 : for_each dets draw (d, wd0)
               = (Returned tt, (d, with_canvas c win (repaint dets cv) wd))).
  { erewrite for_each_draw_live; eauto using with_canvas_lookup.
    unfold wd0. now rewrite with_canvas_twice. }
  cbn zeta. destruct (tk_windows (with_canvas c win (repaint dets cv) wd) !! ow)
    as [win'|] eqn:Hlive.
  - apply try_returned. erewrite bind_returned by exact H0.
    erewrite bind_returned by exact H1. rewrite (on_window_some _ _ _ _ How).
    now apply tk_update_live with win'.
  - rewrite (try_caught _ _ _ _ dead_window
               (d, with_canvas c win (repaint dets cv) wd)); [reflexivity| |reflexivity].
    erewrite bind_returned by exact H0. erewrite bind_returned by exact H1.
    rewrite (on_window_some _ _ _ _ How). now apply tk_update_dead.
Qed.

Lemma update_overlay_without_window dets d wd :
  overlay_window d = None -> update_overlay dets (d, wd) = (Returned tt, (d, wd)).
Proof. intros H. unfold update_overlay. now rewrite bind_self, H. Qed.

Lemma visible_add_items its cv : visible (add_items its cv) = visible cv ++ its.
Proof.
  revert cv. induction its as [|it its IH]; intros cv; simpl.
  - now rewrite app_nil_r.
  - unfold add_items in *. simpl. rewrite IH. unfold visible, add_item. simpl.
    now rewrite map_app, <- app_assoc.
Qed.

Lemma visible_repaint dets cv : visible (repaint dets cv) = flat_map glyphs dets.
Proof. unfold repaint. now rewrite visible_add_items. Qed.

Lemma next_item_add_items its cv : (next_item cv <= next_item (add_items its cv))%nat.
Proof.
  revert cv. induction its as [|it its IH]; intros cv; simpl; [lia|].
  etransitivity; [|apply IH]. simpl. lia.
Qed.

Lemma items_add_items_fresh n its cv :
  (n <= next_item cv)%nat ->
  Forall (fun it => (n <= fst it)%nat) (items cv) ->
  Forall (fun it => (n <= fst it)%nat) (items (add_items its cv)).
Proof.
  revert cv. induction its as [|it its IH]; intros cv Hn Hall; simpl; [done|].
  apply IH; simpl; [lia|]. apply Forall_app. split; [done|].
  constructor; [simpl; lia|constructor].
Qed.

Lemma items_repaint_fresh dets cv :
  Forall (fun it => (next_item cv <= fst it)%nat) (items (repaint dets cv)).
Proof. apply items_add_items_fresh; simpl; [lia|constructor]. Qed.

Lemma count_app {A} (p : A -> bool) l l' : count p (l ++ l') = (count p l + count p l')%nat.
Proof. unfold count. now rewrite List.filter_app, length_app. Qed.

Lemma outlines_of_glyphs x1 y1 x2 y2 dets :
  count (outline_at x1 y1 x2 y2) (flat_map glyphs dets) = count (box_at x1 y1 x2 y2) dets.
Proof.
  induction dets as [|[[[[a b] c] e] q] dets IH]; [done|].
  cbn [flat_map]. rewrite count_app, IH. unfold count at 1 3. simpl.
  now destruct ((a =? x1) && (b =? y1) && (c =? x2) && (e =? y2)).
Qed.

Lemma labels_of_glyphs dets :
  labels (flat_map glyphs dets) =
  map (fun det => "Person: " +:+ format_2f (confidence_of det)) dets.
Proof.
  induction dets as [|[[[[a b] c] e] q] dets IH]; [done|].
  unfold labels in *. cbn [flat_map map]. now rewrite omap_app, IH.
Qed.

(** ** Rendering *)

Lemma str_int_decimal z : 0 <= z -> str_int z = decimal z.
Proof. intros Hz. destruct z as [|p|p]; [reflexivity|reflexivity|lia]. Qed.

Lemma two_digits_digits m :
  0 <= m < 100 -> two_digits m = digit (m / 10) +:+ digit (m mod 10).
Proof.
  intros Hm. rewrite <- (Z2Nat.id m) by lia.
  assert (Hn : (Z.to_nat m < 100)%nat) by lia.
  remember (Z.to_nat m) as n eqn:Heq. clear Heq Hm.
  do 100 (destruct n as [|n]; [reflexivity|]). lia.
Qed.

Lemma round_half_even_nearest n d :
  0 <= n -> 0 < d ->
  let h := round_half_even n d in
  0 <= h /\ 2 * Z.abs (n - h * d) <= d /\ (2 * Z.abs (n - h * d) = d -> Z.even h = true).
Proof.
  intros Hn Hd. unfold round_half_even.
  pose proof (Z.div_mod n d ltac:(lia)) as Hdm.
  pose proof (Z.mod_pos_bound n d Hd) as Hr.
  assert (Hk : 0 <= n / d) by (apply Z.div_pos; lia).
  assert (Hlow : n - n / d * d = n mod d) by lia.
  assert (Hup : n - (n / d + 1) * d = n mod d - d) by lia.
  destruct (Z.compare_spec (2 * (n mod d)) d) as [Hcmp|Hcmp|Hcmp]; cbn zeta.
  - destruct (Z.even (n / d)) eqn:He.
    + rewrite Hlow, Z.abs_eq by lia. split_and!; [lia|lia|done].
    + rewrite Hup, Z.abs_neq by lia. split_and!; [lia|lia|].
      intros _. rewrite Z.even_add, He. reflexivity.
  - rewrite Hlow, Z.abs_eq by lia.
    split_and!; [lia|lia|]. intros Heq. exfalso. lia.
  - rewrite Hup, Z.abs_neq by lia.
    split_and!; [lia|lia|]. intros Heq. exfalso. lia.
Qed.

Lemma format_2f_two_decimals (x : Q) : two_decimals x (format_2f x).
Proof.
  destruct x as [n d]. unfold two_decimals, format_2f. cbn [Qnum Qden].
  set (h := round_half_even (Z.abs n * 100) (Zpos d)).
  destruct (round_half_even_nearest (Z.abs n * 100) (Zpos d) ltac:(lia) ltac:(lia))
    as (Hh & Hnear & Htie). fold h in Hh, Hnear, Htie.
  pose proof (Z.div_mod h 100 ltac:(lia)) as H100.
  pose proof (Z.mod_pos_bound h 100 ltac:(lia)) as Hm.
  pose proof (Z.div_mod (h mod 100) 10 ltac:(lia)) as H10.
  pose proof (Z.mod_pos_bound (h mod 100) 10 ltac:(lia)) as Hm10.
  assert (Hq : 0 <= h / 100) by (apply Z.div_pos; lia).
  assert (Hq10 : 0 <= (h mod 100) / 10 <= 9).
  { split; [apply Z.div_pos; lia|lia]. }
  exists (h / 100), ((h mod 100) / 10), ((h mod 100) mod 10).
  split_and!; try lia.
  - rewrite str_int_decimal, two_digits_digits by lia. f_equal.
    unfold Qle_bool. cbn [Qnum Qden].
    destruct (Z.ltb_spec n 0), (Z.leb_spec (0 * Z.pos d) (n * 1)); try reflexivity; lia.
  - cbn zeta.
    replace (100 * (h / 100) + 10 * (h mod 100 / 10) + (h mod 100) mod 10) with h by lia.
    unfold Qle, Qabs, Qminus, Qplus, Qopp, Qmult, inject_Z. cbn [Qnum Qden].
    rewrite !Pos.mul_1_r.
    replace (Z.abs n * 100 * 1 + - h * Z.pos d) with (Z.abs n * 100 - h * Z.pos d) by ring.
    lia.
  - cbn zeta.
    replace (100 * (h / 100) + 10 * (h mod 100 / 10) + (h mod 100) mod 10) with h by lia.
    unfold Qeq, Qabs, Qminus, Qplus, Qopp, Qmult, inject_Z. cbn [Qnum Qden].
    rewrite !Pos.mul_1_r.
    replace (Z.abs n * 100 * 1 + - h * Z.pos d) with (Z.abs n * 100 - h * Z.pos d) by ring.
    intros Heq. apply Htie. lia.
Qed.

Lemma fills_of_glyphs dets :
  omap fill_of (flat_map glyphs dets) = map (fun _ => "white") dets.
Proof.
  induction dets as [|[[[[a b] c] e] q] dets IH]; [done|].
  cbn [flat_map map]. now rewrite omap_app, IH.
Qed.

Lemma fills_are_white dets :
  Forall (fun it => is_Some (fill_of it) -> fill_of it = Some "white")
    (flat_map glyphs dets).
Proof.
  induction dets as [|[[[[a b] c] e] q] dets IH]; [constructor|].
  cbn [flat_map]. apply Forall_app. split; [|exact IH].
  repeat constructor; simpl; intros [c0 H]; done.
Qed.

(** C2.  On an existing overlay window that nobody destroys meanwhile,
    [update_overlay detections] returns normally and leaves on the canvas
    only items created by this call (whatever was drawn before is cleared
    first); the display list is, detection by detection, one box outline at
    the detection's corners, the label's background and one label text:
    "Person: " followed by the confidence written with two decimals, that
    is, by the hundredth nearest to it.  So the number of outlines at given
    corners is the number of detections there, the empty list leaves no
    rectangle, and the detection (10,10,50,90) with confidence 0.87 gives
    one rectangle at those corners and the label "Person: 0.87".

    The background of a label is not what the claim says: its fill, the only
    fill on the canvas, is white, and in a window whose transparent colour is
    white (the overlay, as [create_overlay_window] configures it) that
    is the colour that does not show.  The label is drawn straight on the
    screen content. *)
Theorem update_overlay_draws dets d wd w win cv :
  overlay_window d = Some w -> canvas d = Some w ->
  tk_doom wd = None ->
  tk_windows wd !! w = Some win -> w_canvas win = Some cv ->
  exists cv',
    update_overlay dets (d, wd)
      = (Returned tt, (d, add_event (TkUpdate w) (with_canvas w win cv' wd))) /\
    Forall (fun it => (next_item cv <= fst it)%nat) (items cv') /\
    visible cv' = flat_map glyphs dets /\
    (forall x1 y1 x2 y2,
        count (outline_at x1 y1 x2 y2) (visible cv') = count (box_at x1 y1 x2 y2) dets) /\
    Forall2 (fun det text =>
               exists number, text = "Person: " +:+ number /\
                              two_decimals (confidence_of det) number)
      dets (labels (visible cv')) /\
    (dets = [] -> count is_rectangle (visible cv') = 0%nat) /\
    (dets = [(10, 10, 50, 90, 87 # 100)] ->
       count (rectangle_at 10 10 50 90) (visible cv') = 1%nat /\
       labels (visible cv') = ["Person: 0.87"]) /\
    omap fill_of (visible cv') = map (fun _ => "white") dets /\
    (transparent_colour win = Some "white" ->
       Forall (fun it => is_Some (fill_of it) -> fill_of it = transparent_colour win)
         (visible cv')).
Proof.
  intros How Hc Hd Hw Hcv. exists (repaint dets cv).
  split.
  { rewrite (update_overlay_quiet dets w w win cv) by done. cbn zeta.
    now rewrite with_canvas_lookup. }
  rewrite visible_repaint. split_and!.
  - apply items_repaint_fresh.
  - done.
  - intros. apply outlines_of_glyphs.
  - rewrite labels_of_glyphs. apply Forall2_fmap_r, Forall_Forall2_diag, Forall_forall.
    intros det _. eexists. split; [reflexivity|]. apply format_2f_two_decimals.
  - now intros ->.
  - now intros ->.
  - apply fills_of_glyphs.
  - intros Hwhite. rewrite Hwhite. apply fills_are_white.
Qed.

Lemma update_overlay_draws_witness :
  exists cv',
    update_overlay [(10, 10, 50, 90, 87 # 100)] (sample_detector, sample_world)
      = (Returned tt,
         (sample_detector,
          add_event (TkUpdate 0) (with_canvas 0 sample_window cv' sample_world))) /\
    visible cv' =
      [Rectangle 10 10 50 90 "red" None 3;
       Rectangle 8 (-15) 130 5 "red" (Some "white") 1;
       Text 10 0 "Person: 0.87" "red" "sw" ("Arial", 14, "bold")] /\
    transparent_colour sample_window = Some "white" /\
    Forall (fun it => is_Some (fill_of it) -> fill_of it = transparent_colour sample_window)
      (visible cv').
Proof.
  destruct (update_overlay_draws [(10, 10, 50, 90, 87 # 100)]
              sample_detector sample_world 0%nat sample_window
              (mkCanvas 1920 1080 "white" 4
                 [(1%nat, Rectangle 700 300 760 480 "red" None 3);
                  (2%nat, Rectangle 698 275 820 295 "red" (Some "white") 1);
                  (3%nat, Text 700 290 "Person: 0.55" "red" "sw" ("Arial", 14, "bold"))])
              eq_refl eq_refl eq_refl eq_refl eq_refl)
    as (cv' & Hrun & _ & Hvis & _ & _ & _ & _ & _ & Hthrough).
  exists cv'. split_and!; [exact Hrun|exact Hvis|reflexivity|exact (Hthrough eq_refl)].
Defined.

Lemma screen_with_canvas c win cv wd :
  screen (with_canvas c win cv wd) = <[c := Some (visible cv)]> (screen wd).
Proof. unfold screen, with_canvas. simpl. now rewrite fmap_insert. Qed.

Lemma screen_add_event e wd : screen (add_event e wd) = screen wd.
Proof. reflexivity. Qed.

(** C6.  Without interference from another thread, rendering the same
    detections twice ends like rendering them once: same outcome, same
    detector fields, same display lists on screen.  (Item ids and the log of
    toolkit calls do differ.) *)
Theorem update_overlay_idempotent dets d wd :
  tk_doom wd = None ->
  let once := update_overlay dets (d, wd) in
  let twice := update_overlay dets (snd once) in
  result_of twice = result_of once /\
  detector_of twice = detector_of once /\
  screen (world_of twice) = screen (world_of once).
Proof.
  intros Hd. cbn zeta.
  destruct (overlay_window d) as [ow|] eqn:How.
  2: { rewrite !update_overlay_without_window by done. simpl.
       now rewrite update_overlay_without_window. }
  destruct (canvas d) as [c|] eqn:Hc.
  2: { assert (H : update_overlay dets (d, wd)
                    = (Raised (AttributeError
                         "'ScreenPersonDetector' object has no attribute 'canvas'"), (d, wd))).
       { unfold update_overlay. rewrite bind_self, How.
         apply try_passed; [|done]. apply bind_raised.
         unfold on_canvas. now rewrite bind_self, Hc. }
       rewrite H. simpl. now rewrite H. }
  destruct (tk_windows wd !! c) as [win|] eqn:Hw.
  2: { assert (H : update_overlay dets (d, wd)
                    = (Returned tt, (set_overlay_window None d, wd))).
       { unfold update_overlay. rewrite bind_self, How.
         rewrite (try_caught _ _ _ _ dead_window (d, wd)); [done| |done].
         apply bind_raised. rewrite (on_canvas_some _ _ _ _ Hc).
         now rewrite canvas_on_quiet, Hw. }
       rewrite H. simpl. now rewrite update_overlay_without_window. }
  destruct (w_canvas win) as [cv|] eqn:Hcv.
  2: { assert (H : update_overlay dets (d, wd)
                    = (Returned tt, (set_overlay_window None d, wd))).
       { unfold update_overlay. rewrite bind_self, How.
         rewrite (try_caught _ _ _ _ dead_window (d, wd)); [done| |done].
         apply bind_raised. rewrite (on_canvas_some _ _ _ _ Hc).
         now rewrite canvas_on_quiet, Hw, Hcv. }
       rewrite H. simpl. now rewrite update_overlay_without_window. }
  rewrite (update_overlay_quiet dets ow c win cv) by done. cbn zeta.
  destruct (tk_windows (with_canvas c win (repaint dets cv) wd) !! ow) as [win'|] eqn:Hlive.
  2: { simpl. now rewrite update_overlay_without_window. }
  simpl snd.
  rewrite (update_overlay_quiet dets ow c
             (mkWin (w_options win) (Some (repaint dets cv))) (repaint dets cv));
    try done; [|apply with_canvas_lookup].
  cbn zeta.
  set (wd2 := with_canvas c (mkWin (w_options win) (Some (repaint dets cv)))
                (repaint dets (repaint dets cv))
                (add_event (TkUpdate ow) (with_canvas c win (repaint dets cv) wd))).
  assert (Hlive' : tk_windows wd2 !! ow <> None).
  { unfold wd2, with_canvas in *. simpl in *.
    destruct (decide (c = ow)) as [->|Hne].
    - now rewrite lookup_insert_eq.
    - rewrite !lookup_insert_ne by done. rewrite lookup_insert_ne in Hlive by done.
      now rewrite Hlive. }
  destruct (tk_windows wd2 !! ow); [|done].
  unfold result_of, detector_of, world_of. cbn [fst snd]. split_and!; [done..|].
  unfold wd2. rewrite !screen_add_event, !screen_with_canvas, screen_add_event.
  rewrite screen_with_canvas, insert_insert_eq. now rewrite !visible_repaint.
Qed.

Lemma update_overlay_idempotent_witness :
  let once := update_overlay [(10, 10, 50, 90, 87 # 100)] (sample_detector, sample_world) in
  let twice := update_overlay [(10, 10, 50, 90, 87 # 100)] (snd once) in
  result_of twice = result_of once /\
  detector_of twice = detector_of once /\
  screen (world_of twice) = screen (world_of once).
Proof.
  exact (update_overlay_idempotent [(10, 10, 50, 90, 87 # 100)]
           sample_detector sample_world eq_refl).
Defined.

(** ** The program logic *)

Lemma hoare_conseq {A} (P P' : store -> Prop) (m : M A) (Q Q' : outcome A -> store -> Prop) :
  hoare P' m Q' -> (forall st, P st -> P' st) -> (forall r st, Q' r st -> Q r st) ->
  hoare P m Q.
Proof. intros H HP HQ st Hst. apply HQ, H, HP, Hst. Qed.

Lemma hoare_ret {A} (a : A) (P : store -> Prop) Q :
  (forall st, P st -> Q (Returned a) st) -> hoare P (ret a) Q.
Proof. intros H st Hst. now apply H. Qed.

Lemma hoare_raise {A} e (P : store -> Prop) (Q : outcome A -> store -> Prop) :
  (forall st, P st -> Q (Raised e) st) -> hoare P (raise e) Q.
Proof. intros H st Hst. now apply H. Qed.

Lemma hoare_bind {A B} (R : A -> store -> Prop) P (m : M A) (k : A -> M B) Q :
  hoare P m (fun r st => match r with
                         | Returned a => R a st
                         | Raised e => Q (Raised e) st
                         end) ->
  (forall a, hoare (R a) (k a) Q) ->
  hoare P (bind m k) Q.
Proof.
  intros Hm Hk st Hst. specialize (Hm st Hst). unfold bind.
  destruct (m st) as [[a|e] st']; simpl in *; [now apply Hk|done].
Qed.

Lemma hoare_try {A} (H : exn -> store -> Prop) P (m : M A) (c : exn -> bool) h
    (Q : outcome A -> store -> Prop) :
  hoare P m (fun r st => match r with
                         | Returned a => Q (Returned a) st
                         | Raised e => if c e then H e st else Q (Raised e) st
                         end) ->
  (forall e, hoare (H e) (h e) Q) ->
  hoare P (try_except m c h) Q.
Proof.
  intros Hm Hh st Hst. specialize (Hm st Hst). unfold try_except.
  destruct (m st) as [[a|e] st']; simpl in *; [done|].
  destruct (c e); [now apply Hh|done].
Qed.

Lemma hoare_self {B} P (k : Detector -> M B) Q :
  (forall d, hoare (fun st => P st /\ fst st = d) (k d) Q) -> hoare P (bind self k) Q.
Proof. intros H [d wd] Hst. now apply (H d). Qed.

Lemma hoare_assign f (P : store -> Prop) Q :
  (forall d wd, P (d, wd) -> Q (Returned tt) (f d, wd)) -> hoare P (assign f) Q.
Proof. intros H [d wd] Hst. now apply H. Qed.

Lemma hoare_act f (P : store -> Prop) Q :
  (forall d wd, P (d, wd) -> Q (Returned tt) (d, f wd)) -> hoare P (act f) Q.
Proof. intros H [d wd] Hst. now apply H. Qed.

Lemma hoare_when (b : bool) P m Q :
  (b = true -> hoare P m Q) -> (b = false -> forall st, P st -> Q (Returned tt) st) ->
  hoare P (when b m) Q.
Proof. destruct b; intros H1 H2; [now apply H1|]. apply hoare_ret. now apply H2. Qed.

Lemma hoare_for_each {A} (I : list A -> store -> Prop) (body : A -> M unit) l
    (Q : outcome unit -> store -> Prop) :
  (forall x rest, hoare (I (x :: rest)) (body x)
     (fun r st => match r with
                  | Returned _ => I rest st
                  | Raised e => Q (Raised e) st
                  end)) ->
  (forall st, I [] st -> Q (Returned tt) st) ->
  hoare (I l) (for_each l body) Q.
Proof.
  intros Hbody Hend. induction l as [|x l IH]; simpl.
  - now apply hoare_ret.
  - apply (hoare_bind (fun _ => I l)); [apply Hbody|]. intros ?. apply IH.
Qed.

(** ** Rendering on a window that another thread destroys *)

Lemma tick_doomed w k wd :
  doomed w k wd ->
  tk_windows (tick wd) !! w = None \/
  exists k', k = S k' /\ pending w k' (tick wd).
Proof.
  intros [Hgone|(j & Hj & Hlt)]; unfold tick.
  - left. destruct (tk_doom wd) as [[v [|i]]|]; try done.
    destruct (tk_windows wd !! v) eqn:Hv; simpl; [|done].
    destruct (decide (v = w)) as [->|Hne]; [apply lookup_delete_eq|].
    now rewrite lookup_delete_ne.
  - rewrite Hj. destruct j as [|j].
    + left. destruct (tk_windows wd !! w) eqn:Hw; simpl; [apply lookup_delete_eq|done].
    + right. destruct k as [|k]; [lia|]. exists k. split; [done|].
      exists j. split; [done|lia].
Qed.

Lemma canvas_on_doomed w k op d :
  hoare (fun st => fst st = d /\ doomed w k (snd st)) (canvas_on w op)
    (raised_dead_or d (fun wd => exists k', k = S k' /\ pending w k' wd)).
Proof.
  intros [d' wd] [Hd Hk]. simpl in *. subst d'.
  unfold canvas_on, bind, act, world. simpl.
  destruct (tick_doomed _ _ _ Hk) as [Hgone|(k' & -> & j & Hj & Hlt)].
  - rewrite Hgone. now split.
  - destruct (tk_windows (tick wd) !! w) as [win|]; [|now split].
    destruct (w_canvas win); [|now split].
    split; [done|]. exists k'. split; [done|]. now exists j.
Qed.

Lemma tk_on_doomed w k op d :
  hoare (fun st => fst st = d /\ doomed w k (snd st)) (tk_on w op)
    (raised_dead_or d (fun wd => exists k', k = S k' /\ pending w k' wd)).
Proof.
  intros [d' wd] [Hd Hk]. simpl in *. subst d'.
  unfold tk_on, bind, act, world. simpl.
  destruct (tick_doomed _ _ _ Hk) as [Hgone|(k' & -> & j & Hj & Hlt)].
  - rewrite Hgone. now split.
  - destruct (tk_windows (tick wd) !! w) as [win|]; [|now split].
    split; [done|]. exists k'. split; [done|]. now exists j.
Qed.

Lemma counts_down_seq w d n n' m m' :
  counts_down w d n m -> counts_down w d n' m' -> counts_down w d (n + n') (m ;; m').
Proof.
  intros Hm Hm' k.
  apply (hoare_bind (fun _ st => fst st = d /\
                        exists k', k = (n + k')%nat /\ doomed w k' (snd st))).
  - eapply hoare_conseq; [apply (Hm k)|done|].
    intros [[]|e] st [Hd H]; [done|]. now split.
  - intros _ st (Hd & k' & -> & Hk'). specialize (Hm' k' st (conj Hd Hk')).
    destruct Hm' as [Hd' H]. split; [done|].
    destruct (fst (m' st)); [|done]. destruct H as (k'' & -> & H).
    exists k''. split; [lia|done].
Qed.

Lemma counts_down_canvas w d op :
  canvas d = Some w -> counts_down w d 1 (on_canvas (fun c => canvas_on c op)).
Proof.
  intros Hc k [d' wd] [Hd Hk]. simpl in Hd. subst d'.
  rewrite (on_canvas_some _ _ _ _ Hc).
  destruct (canvas_on_doomed w k op d (d, wd)) as [Hd' H]; [done|].
  split; [done|]. destruct (fst (canvas_on w op (d, wd))); [|done].
  destruct H as (k' & -> & H). exists k'. split; [done|now right].
Qed.

Lemma counts_down_draw w d det : canvas d = Some w -> counts_down w d 3 (draw det).
Proof.
  intros Hc. destruct det as [[[[x1 y1] x2] y2] q]. unfold draw.
  apply (counts_down_seq w d 1 2); [now apply counts_down_canvas|].
  apply (counts_down_seq w d 1 1); now apply counts_down_canvas.
Qed.

Lemma counts_down_for_each w d dets :
  canvas d = Some w -> counts_down w d (3 * length dets) (for_each dets draw).
Proof.
  intros Hc. induction dets as [|det dets IH].
  - intros k st [Hd Hk]. split; [done|]. exists k. now split.
  - replace (3 * length (det :: dets))%nat with (3 + 3 * length dets)%nat by (simpl; lia).
    apply counts_down_seq; [now apply counts_down_draw|apply IH].
Qed.

Lemma update_overlay_body_doomed w d dets :
  overlay_window d = Some w -> canvas d = Some w ->
  hoare (fun st => fst st = d /\ doomed w (2 + 3 * length dets) (snd st))
    (on_canvas (fun c => canvas_on c delete_all) ;;
     for_each dets draw ;;
     on_window tk_update)
    (fun r st => fst st = d /\ r = Raised dead_window).
Proof.
  intros How Hc.
  assert (Hpre : counts_down w d (1 + 3 * length dets)
                   (on_canvas (fun c => canvas_on c delete_all) ;; for_each dets draw)).
  { apply counts_down_seq; [now apply counts_down_canvas|now apply counts_down_for_each]. }
  intros st [Hd Hk]. specialize (Hpre _ st (conj Hd Hk)).
  unfold raised_dead_or in Hpre.
  pose proof (bind_assoc (on_canvas (fun c => canvas_on c delete_all))
                (fun _ => for_each dets draw) (fun _ => on_window tk_update) st) as E.
  cbn beta in E. rewrite <- E. clear E.
  destruct (bind _ _ st) as [[[]|e] [d2 wd2]] eqn:Hrun; simpl in Hpre.
  2: { destruct Hpre as [-> ->]. now rewrite (bind_raised _ _ _ _ _ Hrun). }
  destruct Hpre as (-> & k' & Hk' & Hdoom). assert (k' = 1%nat) as -> by lia.
  rewrite (bind_returned _ _ _ _ _ Hrun).
  rewrite (on_window_some _ _ _ _ How). unfold tk_update.
  destruct (tk_on_doomed w 1 id d (d, wd2)) as [Hd' H]; [done|].
  unfold bind. destruct (tk_on w id (d, wd2)) as [[[]|e] st3]; simpl in *.
  - destruct H as (k'' & [= <-] & j & _ & Hj). lia.
  - now subst e.
Qed.

(** C8.  When the overlay window is gone at the time of the call, or the
    other thread destroys it before the call has made all its toolkit calls,
    [update_overlay] returns normally with the window reference set to
    [None]; after that every render is a no-op: whatever the detections, it
    returns normally and leaves the detector and the world as they are, until
    [create_overlay_window] makes a window again. *)
Theorem update_overlay_window_destroyed dets d wd w :
  overlay_window d = Some w -> canvas d = Some w ->
  (tk_windows wd !! w = None \/
   exists j, tk_doom wd = Some (w, j) /\ (j < 2 + 3 * length dets)%nat) ->
  let after := update_overlay dets (d, wd) in
  result_of after = Returned tt /\
  detector_of after = set_overlay_window None d /\
  forall later : list (list detection),
    for_each later update_overlay (snd after) = (Returned tt, snd after).
Proof.
  intros How Hc Hgone. cbn zeta.
  assert (Hrun : exists wd',
    update_overlay dets (d, wd) = (Returned tt, (set_overlay_window None d, wd'))).
  { destruct (update_overlay_body_doomed w d dets How Hc (d, wd)) as [Hd Hr]; [done|].
    unfold update_overlay. rewrite bind_self, How.
    destruct (bind _ _ (d, wd)) as [r [d' wd']] eqn:Hbody. simpl in Hd, Hr. subst r d'.
    exists wd'. now rewrite (try_caught _ _ _ _ _ _ Hbody). }
  destruct Hrun as [wd' ->]. unfold result_of, detector_of. cbn [fst snd].
  split_and!; [done..|].
  intros later. induction later as [|dets' later IH]; [done|].
  simpl for_each. erewrite bind_returned; [exact IH|].
  now apply update_overlay_without_window.
Qed.

Lemma update_overlay_window_destroyed_witness :
  let after := update_overlay [(10, 10, 50, 90, 87 # 100)] (sample_detector, doomed_world) in
  result_of after = Returned tt /\
  detector_of after = set_overlay_window None sample_detector /\
  forall later : list (list detection),
    for_each later update_overlay (snd after) = (Returned tt, snd after).
Proof.
  apply (update_overlay_window_destroyed [(10, 10, 50, 90, 87 # 100)]
           sample_detector doomed_world 0%nat); [reflexivity|reflexivity|].
  right. exists 2%nat. split; [reflexivity|simpl; lia].
Defined.

(** ** What a computation leaves alone *)

Section Stable.
Context {X : Type} (f : World -> X).

Lemma stable_ret {A} (a : A) : stable f (ret a).
Proof. done. Qed.

Lemma stable_raise {A} e : stable f (@raise A e).
Proof. done. Qed.

Lemma stable_bind {A B} (m : M A) (k : A -> M B) :
stable f m -> (forall a, stable f (k a)) -> stable f (bind m k).
Proof.
intros Hm Hk st. unfold bind. specialize (Hm st).
destruct (m st) as [[a|e] st']; simpl in *; [|done]. now rewrite Hk.
Qed.

Lemma stable_try {A} (m : M A) c h :
stable f m -> (forall e, stable f (h e)) -> stable f (try_except m c h).
Proof.
intros Hm Hh st. unfold try_except. specialize (Hm st).
destruct (m st) as [[a|e] st']; simpl in *; [done|].
destruct (c e); [|done]. now rewrite Hh.
Qed.

Lemma stable_self : stable f self.
Proof. done. Qed.

Lemma stable_world : stable f world.
Proof. done. Qed.

Lemma stable_assign g : stable f (assign g).
Proof. done. Qed.

Lemma stable_act g : (forall wd, f (g wd) = f wd) -> stable f (act g).
Proof. intros H st. apply H. Qed.

Lemma stable_when b m : stable f m -> stable f (when b m).
Proof. destruct b; [done|]. intros _. apply stable_ret. Qed.

Lemma stable_external fault : stable f (external fault).
Proof. now destruct fault. Qed.

Lemma stable_external_value {A} (r : outcome A) : stable f (external_value r).
Proof. now destruct r. Qed.

Lemma stable_step {A} fault s (m : M A) : stable f m -> stable f (step fault s m).
Proof.
intros H. unfold step. destruct fault as [[s' e]|]; [|done].
destruct (decide (s' = s)); [apply stable_raise|done].
Qed.

Lemma stable_on_window {A} (call : nat -> M A) :
(forall w, stable f (call w)) -> stable f (on_window call).
Proof.
intros H. apply stable_bind; [apply stable_self|]. intros d.
destruct (overlay_window d); [apply H|apply stable_raise].
Qed.

Lemma stable_on_canvas {A} (call : nat -> M A) :
(forall c, stable f (call c)) -> stable f (on_canvas call).
Proof.
intros H. apply stable_bind; [apply stable_self|]. intros d.
destruct (canvas d); [apply H|apply stable_raise].
Qed.

Lemma stable_for_each {A} (l : list A) body :
(forall x, stable f (body x)) -> stable f (for_each l body).
Proof.
intros H. induction l as [|x l IH]; [apply stable_ret|].
apply stable_bind; [apply H|]. intros _. apply IH.
Qed.
End Stable.

Lemma count_add_event p e wd :
  count p (events (add_event e wd)) = (count p (events wd) + if p e then 1 else 0)%nat.
Proof. simpl. rewrite count_app. unfold count at 2. simpl. now destruct (p e). Qed.

Lemma count_tick p wd :
  (forall v, p (DestroyedElsewhere v) = false) ->
  count p (events (tick wd)) = count p (events wd).
Proof.
  intros Hp. unfold tick. destruct (tk_doom wd) as [[v [|k]]|]; try done.
  destruct (tk_windows wd !! v); [|done].
  rewrite count_add_event, Hp. simpl. lia.
Qed.

Section StableCount.
Context (p : event -> bool) (Hp : forall v, p (DestroyedElsewhere v) = false).

Let f (wd : World) : nat := count p (events wd).

Lemma stable_emit e : p e = false -> stable f (emit e).
Proof.
intros He. apply stable_act. intros wd. unfold f.
rewrite count_add_event, He. lia.
Qed.

Lemma stable_tick : stable f (act tick).
Proof. apply stable_act. intros wd. now apply count_tick. Qed.

Lemma stable_tk_on w op : stable f (tk_on w op).
Proof.
unfold tk_on. apply stable_bind; [apply stable_tick|]. intros _.
apply stable_bind; [apply stable_world|]. intros wd.
destruct (tk_windows wd !! w); [now apply stable_act|apply stable_raise].
Qed.

Lemma stable_canvas_on c op : stable f (canvas_on c op).
Proof.
unfold canvas_on. apply stable_bind; [apply stable_tick|]. intros _.
apply stable_bind; [apply stable_world|]. intros wd.
destruct (tk_windows wd !! c) as [win|]; [|apply stable_raise].
destruct (w_canvas win); [now apply stable_act|apply stable_raise].
Qed.

Lemma stable_tk_Tk :
(forall w, p (TkCreate w) = false) -> stable f tk_Tk.
Proof.
intros Hc. unfold tk_Tk. apply stable_bind; [apply stable_world|]. intros wd.
apply stable_bind; [now apply stable_act|]. intros _.
apply stable_bind; [now apply stable_emit|]. intros _. apply stable_ret.
Qed.

Lemma stable_tk_destroy w :
(forall w, p (TkDestroy w) = false) -> stable f (tk_destroy w).
Proof.
intros Hc. unfold tk_destroy. apply stable_bind; [apply stable_tick|]. intros _.
apply stable_bind; [apply stable_world|]. intros wd.
destruct (tk_windows wd !! w); [|apply stable_raise].
apply stable_bind; [now apply stable_act|]. intros _. now apply stable_emit.
Qed.
End StableCount.

(** ** Window creation that fails *)

Lemma fails_here {A B} (m : M A) (k : A -> M B) : fails m -> fails (bind m k).
Proof.
  intros H st. destruct (H st) as (e & st' & Hm). exists e, st'.
  now apply bind_raised.
Qed.

Lemma fails_later {A B} (m : M A) (k : A -> M B) :
  (forall a, fails (k a)) -> fails (bind m k).
Proof.
  intros H st. unfold bind. destruct (m st) as [[a|e] st']; [apply H|eauto].
Qed.

Lemma fails_step {A} s e (call : M A) : fails (step (Some (s, e)) s call).
Proof.
  intros st. unfold step. destruct (decide (s = s)); [|done]. now exists e, st.
Qed.

Lemma returns_bind {A B} (m : M A) (k : A -> M B) :
  returns m -> (forall a, returns (k a)) -> returns (bind m k).
Proof.
  intros Hm Hk st. destruct (Hm st) as (a & st' & Hrun).
  rewrite (bind_returned _ _ _ _ _ Hrun). apply Hk.
Qed.

Lemma returns_try_all {A} (m : M A) h :
  (forall e, returns (h e)) -> returns (try_except m is_Exception h).
Proof.
  intros Hh st. unfold try_except. destruct (m st) as [[a|e] st']; [eauto|].
  apply Hh.
Qed.

Lemma returns_when b m : returns m -> returns (when b m).
Proof. destruct b; [done|]. intros _ st. now exists tt, st. Qed.

Lemma returns_emit e : returns (emit e).
Proof. intros st. now eexists _, _. Qed.

Lemma returns_assign g : returns (assign g).
Proof. intros st. now eexists _, _. Qed.

Lemma tk_destroy_raises_TclError w st e st' :
  tk_destroy w st = (Raised e, st') -> e = dead_window.
Proof.
  destruct st as [d wd]. unfold tk_destroy, bind, act, world, emit, raise. simpl.
  destruct (tk_windows (tick wd) !! w); unfold act; simpl; congruence.
Qed.

Lemma destroy_old_returns w :
  returns (try_except (tk_destroy w) is_TclError (fun _ => ret tt)).
Proof.
  intros st. unfold try_except. destruct (tk_destroy w st) as [[[]|e] st'] eqn:Hrun.
  - now exists tt, st'.
  - rewrite (tk_destroy_raises_TclError _ _ _ _ Hrun). now exists tt, st'.
Qed.

Lemma create_overlay_window_returns fault : returns (create_overlay_window fault).
Proof.
  unfold create_overlay_window. intros [d wd]. rewrite bind_self.
  apply returns_bind.
  - destruct (overlay_window d); [apply destroy_old_returns|]. intros st. now exists tt, st.
  - intros _. apply returns_try_all. intros e [d' wd']. rewrite bind_self.
    apply returns_bind; [apply returns_when, returns_emit|]. intros _. apply returns_assign.
Qed.

(** After the handler of [create_overlay_window] the reference is [None]. *)
Lemma create_handler_clears (e : exn) st :
  overlay_window
    (fst (snd ((d <- self ;;
                when (verbose d) (emit (Print (OverlayError (str_exn e)))) ;;
                assign (set_overlay_window None)) st))) = None.
Proof. destruct st as [d wd]. rewrite bind_self. now destruct (verbose d). Qed.

Lemma create_overlay_window_fault_clears s e st :
  overlay_window (fst (snd (create_overlay_window (Some (s, e)) st))) = None.
Proof.
  destruct st as [d wd]. unfold create_overlay_window. rewrite bind_self.
  assert (H1 : returns (match overlay_window d with
                        | Some old => try_except (tk_destroy old) is_TclError (fun _ => ret tt)
                        | None => ret tt
                        end)).
  { destruct (overlay_window d); [apply destroy_old_returns|]. intros st. now exists tt, st. }
  destruct (H1 (d, wd)) as ([] & st1 & Hrun1). rewrite (bind_returned _ _ _ _ _ Hrun1).
  match goal with
  | |- context [try_except ?b is_Exception ?h] => assert (Hf : fails b)
  end.
  { destruct s;
      repeat first [apply fails_step
                   |apply fails_here; apply fails_step
                   |apply fails_later; intros]. }
  destruct (Hf st1) as (e' & st2 & Hrun2).
  rewrite (try_caught _ _ _ _ _ _ Hrun2) by done. apply create_handler_clears.
Qed.

Lemma toolkit_call_tk_on w op : toolkit_call (tk_on w op).
Proof.
  intros d wd. unfold tk_on, bind, act, world, raise. simpl.
  destruct (tk_windows (tick wd) !! w); eauto.
Qed.

Lemma toolkit_call_emit e : toolkit_call (emit e).
Proof. intros d wd. unfold emit, act. eauto. Qed.

Lemma toolkit_call_seq {A B} (m : M A) (m' : M B) :
  toolkit_call m -> toolkit_call m' -> toolkit_call (m ;; m').
Proof.
  intros Hm Hm' d wd. destruct (Hm d wd) as (wd1 & [[a H]|H]).
  - rewrite (bind_returned _ _ _ _ _ H). apply Hm'.
  - rewrite (bind_raised _ _ _ _ _ H). eauto.
Qed.

Lemma toolkit_call_tk_quit w : toolkit_call (tk_quit w).
Proof. apply toolkit_call_seq; [apply toolkit_call_tk_on|apply toolkit_call_emit]. Qed.

Lemma toolkit_call_tk_destroy w : toolkit_call (tk_destroy w).
Proof.
  intros d wd. unfold tk_destroy, bind, act, world, raise, emit. simpl.
  destruct (tk_windows (tick wd) !! w); unfold act; simpl; eauto.
Qed.

Lemma set_overlay_window_same d :
  overlay_window d = None -> set_overlay_window None d = d.
Proof. destruct d. simpl. now intros ->. Qed.

(** [stop_detection] ends normally, unless the worker tries to join itself. *)
Lemma stop_detection_returns caller fin d wd :
  caller <> WorkerThread ->
  exists wd',
    stop_detection caller fin (d, wd)
      = (Returned tt, (set_overlay_window None (set_running false d), wd')).
Proof.
  intros Hcaller. unfold stop_detection.
  assert (Hjoin : exists wd1,
    when (process_thread (set_running false d) && worker_alive wd)
      (thread_join caller fin) (set_running false d, wd)
    = (Returned tt, (set_running false d, wd1))).
  { destruct (process_thread (set_running false d) && worker_alive wd);
      [|now eexists]. simpl. unfold thread_join.
    destruct (decide (caller = WorkerThread)); [done|].
    destruct fin; now eexists. }
  destruct Hjoin as [wd1 Hjoin].
  erewrite bind_returned by reflexivity. rewrite bind_self.
  erewrite bind_returned by reflexivity. cbn [snd].
  rewrite (bind_returned _ _ _ _ _ Hjoin). rewrite bind_self.
  destruct (overlay_window (set_running false d)) as [w|] eqn:How.
  - assert (Hwin : exists wd2,
      try_except
        (when (bool_decide (caller = MainThread))
           (on_window tk_quit ;; on_window tk_destroy))
        is_TclError (fun _ => ret tt) (set_running false d, wd1)
      = (Returned tt, (set_running false d, wd2))).
    { destruct (bool_decide (caller = MainThread)); [|now eexists]. simpl.
      destruct (toolkit_call_tk_quit w (set_running false d) wd1) as (wd2 & [[[] Hq]|Hq]).
      - destruct (toolkit_call_tk_destroy w (set_running false d) wd2) as (wd3 & [[[] Hx]|Hx]).
        + exists wd3. apply try_returned.
          rewrite (bind_returned _ _ _ tt (set_running false d, wd2))
            by now rewrite (on_window_some _ _ _ _ How).
          now rewrite (on_window_some _ _ _ _ How).
        + exists wd3.
          rewrite (try_caught _ _ _ _ dead_window (set_running false d, wd3));
            [reflexivity| |reflexivity].
          rewrite (bind_returned _ _ _ tt (set_running false d, wd2))
            by now rewrite (on_window_some _ _ _ _ How).
          now rewrite (on_window_some _ _ _ _ How).
      - exists wd2.
        rewrite (try_caught _ _ _ _ dead_window (set_running false d, wd2));
          [reflexivity| |reflexivity].
        apply bind_raised. now rewrite (on_window_some _ _ _ _ How). }
    destruct Hwin as [wd2 Hwin].
    rewrite (bind_returned _ _ _ tt (set_overlay_window None (set_running false d), wd2)).
    2: { now rewrite (bind_returned _ _ _ _ _ Hwin). }
    rewrite bind_self. destruct (verbose _); now eexists.
  - erewrite bind_returned by reflexivity. rewrite bind_self.
    rewrite (set_overlay_window_same _ How). destruct (verbose _); now eexists.
Qed.

Ltac stabilize_step :=
  lazymatch goal with
  | |- stable _ (ret _) => apply stable_ret
  | |- stable _ (raise _) => apply stable_raise
  | |- stable _ self => apply stable_self
  | |- stable _ world => apply stable_world
  | |- stable _ (assign _) => apply stable_assign
  | |- stable _ (external _) => apply stable_external
  | |- stable _ (step _ _ _) => apply stable_step
  | |- stable _ (on_window _) => apply stable_on_window; intros
  | |- stable _ (on_canvas _) => apply stable_on_canvas; intros
  | |- stable _ (when _ _) => apply stable_when
  | |- stable _ (for_each _ _) => apply stable_for_each; intros
  | |- stable _ (tk_on _ _) => apply stable_tk_on; done
  | |- stable _ (canvas_on _ _) => apply stable_canvas_on; done
  | |- stable _ tk_Tk => apply stable_tk_Tk; done
  | |- stable _ (tk_destroy _) => apply stable_tk_destroy; done
  | |- stable _ (emit _) => apply stable_emit; done
  | |- stable _ (act _) =>
      first [apply stable_act; done
            |apply stable_act; intros ?; rewrite count_add_event; simpl; lia]
  | |- stable _ (bind _ _) => apply stable_bind; [|intros]
  | |- stable _ (try_except _ _ _) => apply stable_try; [|intros]
  | |- stable _ (match ?x with _ => _ end) => destruct x
  end.

Ltac stabilize := repeat stabilize_step.

Lemma create_overlay_window_no_mainloop fault :
  stable mainloops (create_overlay_window fault).
Proof. unfold mainloops, create_overlay_window, tk_Canvas. stabilize. Qed.

Lemma stop_detection_no_mainloop caller fin :
  stable mainloops (stop_detection caller fin).
Proof. unfold mainloops, stop_detection, thread_join, tk_quit. stabilize. Qed.

(** C10.  Whichever toolkit call of the creation fails, and with whatever
    exception, [create_overlay_window] returns normally and leaves the window
    reference [None]; [start_detection] then returns without a single
    [mainloop] call, and every later render is a no-op. *)
Theorem failed_creation_is_silent s e d wd :
  let created := create_overlay_window (Some (s, e)) (d, wd) in
  result_of created = Returned tt /\
  overlay_window (detector_of created) = None /\
  (forall later : list (list detection),
     for_each later update_overlay (snd created) = (Returned tt, snd created)) /\
  forall on_start on_mainloop finished,
    let started :=
      start_detection MainThread
        (mkStartEnv (Some (s, e)) on_start on_mainloop finished) (d, wd) in
    result_of started = Returned tt /\
    overlay_window (detector_of started) = None /\
    mainloops (world_of started) = mainloops wd /\
    forall later : list (list detection),
      for_each later update_overlay (snd started) = (Returned tt, snd started).
Proof.
  assert (Hnoop : forall st : store, overlay_window (fst st) = None ->
            forall later : list (list detection),
              for_each later update_overlay st = (Returned tt, st)).
  { intros [d0 wd0] H0 later. induction later as [|dets later IH]; [done|].
    simpl for_each. erewrite bind_returned; [exact IH|].
    now apply update_overlay_without_window. }
  assert (Hcreate : forall d0 wd0, exists d1 wd1,
            create_overlay_window (Some (s, e)) (d0, wd0) = (Returned tt, (d1, wd1)) /\
            overlay_window d1 = None /\ mainloops wd1 = mainloops wd0).
  { intros d0 wd0.
    destruct (create_overlay_window_returns (Some (s, e)) (d0, wd0)) as ([] & [d1 wd1] & Hrun).
    exists d1, wd1. split; [done|]. split.
    - pose proof (create_overlay_window_fault_clears s e (d0, wd0)) as H.
      now rewrite Hrun in H.
    - pose proof (create_overlay_window_no_mainloop (Some (s, e)) (d0, wd0)) as H.
      now rewrite Hrun in H. }
  cbn zeta. split_and!.
  - destruct (Hcreate d wd) as (d1 & wd1 & -> & _). done.
  - destruct (Hcreate d wd) as (d1 & wd1 & -> & H & _). done.
  - destruct (Hcreate d wd) as (d1 & wd1 & -> & H & _). now apply Hnoop.
  - intros on_start on_mainloop finished.
    destruct (Hcreate (set_running true d) wd) as (d1 & wd1 & Hrun & Hnone & Hloops).
    set (d2 := set_process_thread true d1).
    set (wd2 := set_worker_alive false wd1).
    assert (Hnone2 : overlay_window d2 = None) by now destruct d1.
    assert (Hloops2 : mainloops wd2 = mainloops wd) by exact Hloops.
    unfold start_detection. cbn [create_fault thread_fault mainloop_fault join_finished].
    destruct on_start as [e'|].
    + assert (Hbody : forall (k : unit -> M unit),
        (assign (set_running true) ;;
         create_overlay_window (Some (s, e)) ;;
         assign (set_process_thread true) ;;
         act (set_worker_alive false) ;;
         external (Some e') ;; k tt) (d, wd) = (Raised e', (d2, wd2))).
      { intros k. rewrite bind_assign, (bind_returned _ _ _ _ _ Hrun), bind_assign, bind_act.
        apply bind_raise. }
      rewrite (try_caught _ _ _ _ e' (d2, wd2)); [|apply (Hbody (fun _ => _))|done].
      rewrite bind_self.
      destruct (stop_detection_returns MainThread finished d2
                  (if verbose d2 then add_event (Print (StartError (str_exn e'))) wd2 else wd2))
        as [wd3 Hstop]; [done|].
      assert (Hfinal :
        (when (verbose d2) (emit (Print (StartError (str_exn e')))) ;;
         stop_detection MainThread finished) (d2, wd2)
        = (Returned tt, (set_overlay_window None (set_running false d2), wd3))).
      { rewrite <- Hstop. now destruct (verbose d2). }
      rewrite Hfinal. unfold result_of, detector_of, world_of. cbn [fst snd].
      split_and!; [done|done| |now apply Hnoop].
      rewrite <- Hloops2.
      pose proof (stop_detection_no_mainloop MainThread finished
                    (d2, if verbose d2 then add_event (Print (StartError (str_exn e'))) wd2
                         else wd2)) as H.
      rewrite Hstop in H. cbn [fst snd] in H. rewrite H.
      destruct (verbose d2); [|done]. unfold mainloops. rewrite count_add_event. simpl. lia.
    + assert (Hbody :
        (assign (set_running true) ;;
         create_overlay_window (Some (s, e)) ;;
         assign (set_process_thread true) ;;
         act (set_worker_alive false) ;;
         external None ;;
         act (set_worker_alive true) ;;
         emit ThreadStart ;;
         d <- self ;;
         match overlay_window d with
         | Some _ => on_window tk_mainloop ;; external on_mainloop
         | None => ret tt
         end) (d, wd)
        = (Returned tt, (d2, add_event ThreadStart (set_worker_alive true wd2)))).
      { rewrite bind_assign, (bind_returned _ _ _ _ _ Hrun), bind_assign, bind_act.
        unfold external. rewrite bind_ret, bind_act, bind_emit, bind_self.
        fold d2. now rewrite Hnone2. }
      rewrite (try_returned _ _ _ _ _ _ Hbody).
      unfold result_of, detector_of, world_of. cbn [fst snd].
      split_and!; [done|done| |now apply Hnoop].
      rewrite <- Hloops2. unfold mainloops. rewrite count_add_event. simpl. lia.
Qed.

(** ** Stopping *)

Lemma tk_quit_live w win d wd :
  tk_doom wd = None -> tk_windows wd !! w = Some win ->
  tk_quit w (d, wd) = (Returned tt, (d, add_event (TkQuit w) wd)).
Proof.
  intros Hd Hw. unfold tk_quit.
  erewrite bind_returned by (rewrite tk_on_quiet, Hw by done; reflexivity).
  unfold emit, act, id. simpl. do 3 f_equal.
  destruct wd as [m n dm a ev]. unfold set_windows. simpl in *.
  now rewrite (insert_id _ _ _ Hw).
Qed.

Lemma tk_quit_dead w d wd :
  tk_doom wd = None -> tk_windows wd !! w = None ->
  tk_quit w (d, wd) = (Raised dead_window, (d, wd)).
Proof.
  intros Hd Hw. unfold tk_quit. apply bind_raised. now rewrite tk_on_quiet, Hw.
Qed.

Lemma tk_destroy_live w win d wd :
  tk_doom wd = None -> tk_windows wd !! w = Some win ->
  tk_destroy w (d, wd)
    = (Returned tt, (d, add_event (TkDestroy w) (set_windows (delete w) wd))).
Proof.
  intros Hd Hw. unfold tk_destroy. rewrite bind_act, bind_world.
  rewrite (tick_quiet _ Hd), Hw. now rewrite bind_act.
Qed.

Lemma tk_destroy_dead w d wd :
  tk_doom wd = None -> tk_windows wd !! w = None ->
  tk_destroy w (d, wd) = (Raised dead_window, (d, wd)).
Proof.
  intros Hd Hw. unfold tk_destroy. rewrite bind_act, bind_world.
  now rewrite (tick_quiet _ Hd), Hw.
Qed.

Lemma stop_detection_join caller finished d wd :
  caller <> WorkerThread ->
  when (process_thread d && worker_alive wd) (thread_join caller finished) (d, wd)
    = (Returned tt, (d, joined finished d wd)).
Proof.
  intros Hcaller. unfold joined.
  destruct (process_thread d && worker_alive wd); [|done]. simpl. unfold thread_join.
  destruct (decide (caller = WorkerThread)); [done|]. now destruct finished.
Qed.

Lemma tk_windows_joined finished d wd : tk_windows (joined finished d wd) = tk_windows wd.
Proof.
  unfold joined. destruct (process_thread d && worker_alive wd); [|done].
  now destruct finished.
Qed.

Lemma tk_doom_joined finished d wd : tk_doom (joined finished d wd) = tk_doom wd.
Proof.
  unfold joined. destruct (process_thread d && worker_alive wd); [|done].
  now destruct finished.
Qed.

(** On the main thread, with a live window: quit, destroy, forget. *)
Lemma stop_detection_main_live finished d wd w win :
  tk_doom wd = None -> overlay_window d = Some w -> tk_windows wd !! w = Some win ->
  stop_detection MainThread finished (d, wd)
    = (Returned tt,
       (set_overlay_window None (set_running false d),
        announced d
          (add_event (TkDestroy w)
             (set_windows (delete w) (add_event (TkQuit w) (joined finished d wd)))))).
Proof.
  intros Hd How Hw. unfold stop_detection.
  rewrite bind_assign, bind_self, bind_world.
  rewrite (bind_returned _ _ _ _ _
             (stop_detection_join MainThread finished (set_running false d) wd ltac:(done))).
  rewrite bind_self.
  assert (How' : overlay_window (set_running false d) = Some w) by done.
  rewrite How'.
  set (wd1 := joined finished (set_running false d) wd).
  assert (Hd1 : tk_doom wd1 = None) by (unfold wd1; now rewrite tk_doom_joined).
  assert (Hw1 : tk_windows wd1 !! w = Some win) by (unfold wd1; now rewrite tk_windows_joined).
  rewrite (bind_returned _ _ _ tt
             (set_overlay_window None (set_running false d),
              add_event (TkDestroy w) (set_windows (delete w) (add_event (TkQuit w) wd1)))).
  - rewrite bind_self. unfold announced. cbn [verbose set_overlay_window set_running].
    now destruct (verbose d).
  - rewrite (bind_returned _ _ _ tt
               (set_running false d,
                add_event (TkDestroy w) (set_windows (delete w) (add_event (TkQuit w) wd1))));
      [done|].
    apply try_returned. simpl when.
    rewrite (bind_returned _ _ _ tt (set_running false d, add_event (TkQuit w) wd1)).
    + rewrite (on_window_some _ _ _ _ How'). now apply tk_destroy_live with win.
    + rewrite (on_window_some _ _ _ _ How'). now apply tk_quit_live with win.
Qed.

(** Everywhere else [stop_detection] asks nothing of the toolkit. *)
Lemma stop_detection_no_call caller finished d wd :
  caller <> WorkerThread ->
  caller <> MainThread \/ overlay_window d = None \/
    (tk_doom wd = None /\ exists w, overlay_window d = Some w /\ tk_windows wd !! w = None) ->
  stop_detection caller finished (d, wd)
    = (Returned tt,
       (set_overlay_window None (set_running false d), announced d (joined finished d wd))).
Proof.
  intros Hcaller Hcase. unfold stop_detection.
  rewrite bind_assign, bind_self, bind_world.
  rewrite (bind_returned _ _ _ _ _
             (stop_detection_join caller finished (set_running false d) wd Hcaller)).
  rewrite bind_self.
  set (wd1 := joined finished (set_running false d) wd).
  assert (Hfin : forall d', verbose d' = verbose d ->
            (d0 <- self ;; when (verbose d0) (emit (Print Stopped))) (d', wd1)
            = (Returned tt, (d', announced d (joined finished d wd)))).
  { intros d' Hv. rewrite bind_self, Hv. unfold announced. now destruct (verbose d). }
  destruct (overlay_window (set_running false d)) as [w|] eqn:How.
  - rewrite (bind_returned _ _ _ tt (set_overlay_window None (set_running false d), wd1));
      [now apply Hfin|].
    rewrite (bind_returned _ _ _ tt (set_running false d, wd1)); [done|].
    destruct Hcase as [Hne|[Hnone|(Hd & w' & How' & Hw)]].
    + apply try_returned. now rewrite bool_decide_eq_false_2.
    + simpl in How. congruence.
    + assert (w' = w) as -> by (simpl in How; congruence).
      destruct (bool_decide (caller = MainThread)); [|done]. simpl when.
      rewrite (try_caught _ _ _ _ dead_window (set_running false d, wd1)); [done| |done].
      apply bind_raised. rewrite (on_window_some _ _ _ _ How).
      apply tk_quit_dead; unfold wd1; [now rewrite tk_doom_joined|now rewrite tk_windows_joined].
  - rewrite bind_ret. rewrite <- (set_overlay_window_same _ How) at 1. now apply Hfin.
Qed.

Lemma count_announced p d wd :
  p (Print Stopped) = false -> count p (events (announced d wd)) = count p (events wd).
Proof.
  intros Hp. unfold announced. destruct (verbose d); [|done].
  rewrite count_add_event, Hp. lia.
Qed.

Lemma count_joined p finished d wd :
  p (ThreadJoin 1) = false -> count p (events (joined finished d wd)) = count p (events wd).
Proof.
  intros Hp. unfold joined. destruct (process_thread d && worker_alive wd); [|done].
  transitivity (count p (events (add_event (ThreadJoin 1) wd))); [now destruct finished|].
  rewrite count_add_event, Hp. lia.
Qed.

Lemma tk_windows_announced d wd : tk_windows (announced d wd) = tk_windows wd.
Proof. unfold announced. now destruct (verbose d). Qed.

Lemma tk_doom_announced d wd : tk_doom (announced d wd) = tk_doom wd.
Proof. unfold announced. now destruct (verbose d). Qed.

Lemma events_set_windows f wd : events (set_windows f wd) = events wd.
Proof. reflexivity. Qed.

Ltac count_events :=
  repeat first
    [ rewrite count_announced by done
    | rewrite count_joined by done
    | rewrite count_add_event
    | rewrite events_set_windows ].

(** C3, as the code has it.  Two calls of [stop_detection] in a row, from a
    thread other than the worker itself and with no other thread destroying
    windows meanwhile: neither raises; afterwards [running] is false and the
    window reference is [None]; the second call makes no toolkit call and
    leaves the windows as the first left them.  On the main thread the
    existing overlay window is destroyed exactly once; from any other thread
    no window is destroyed at all, the reference is only dropped. *)
Theorem stop_detection_twice caller fin1 fin2 d wd :
  caller <> WorkerThread -> tk_doom wd = None ->
  let once := stop_detection caller fin1 (d, wd) in
  let twice := stop_detection caller fin2 (snd once) in
  result_of once = Returned tt /\ result_of twice = Returned tt /\
  running (detector_of twice) = false /\
  overlay_window (detector_of twice) = None /\
  tk_windows (world_of twice) = tk_windows (world_of once) /\
  tk_calls (world_of twice) = tk_calls (world_of once) /\
  (forall w, (destroys w (world_of twice) <= S (destroys w wd))%nat) /\
  (forall w, caller = MainThread -> overlay_window d = Some w ->
             is_Some (tk_windows wd !! w) ->
             tk_windows (world_of twice) !! w = None /\
             destroys w (world_of twice) = S (destroys w wd)) /\
  (caller <> MainThread ->
     tk_windows (world_of twice) = tk_windows wd /\
     forall w, destroys w (world_of twice) = destroys w wd).
Proof.
  intros Hcaller Hd. cbn zeta.
  assert (Hsecond : forall d1 wd1, overlay_window d1 = None ->
            stop_detection caller fin2 (d1, wd1)
            = (Returned tt, (set_overlay_window None (set_running false d1),
                             announced d1 (joined fin2 d1 wd1)))).
  { intros d1 wd1 H1. apply stop_detection_no_call; auto. }
  assert (Hlive : {w & {win | caller = MainThread /\ overlay_window d = Some w /\
                                tk_windows wd !! w = Some win}} +
                  {caller <> MainThread \/ overlay_window d = None \/
                   (tk_doom wd = None /\
                    exists w, overlay_window d = Some w /\ tk_windows wd !! w = None)}).
  { destruct (decide (caller = MainThread)) as [Hm|Hm]; [|now right; left].
    destruct (overlay_window d) as [w|]; [|now right; right; left].
    destruct (tk_windows wd !! w) as [win|] eqn:Hw.
    - left. now exists w, win.
    - right. right. right. split; [done|]. now exists w. }
  destruct Hlive as [(w & win & -> & How & Hw)|Hcase].
  - rewrite (stop_detection_main_live fin1 d wd w win) by done. cbn [snd].
    rewrite Hsecond by done. unfold result_of, detector_of, world_of. cbn [fst snd].
    split_and!; try done.
    + now rewrite tk_windows_announced, tk_windows_joined.
    + unfold tk_calls. now count_events.
    + intros v. unfold destroys. count_events. simpl.
      destruct (bool_decide (w = v)); lia.
    + intros v _ Hv _. assert (v = w) as -> by congruence. split.
      * rewrite tk_windows_announced, tk_windows_joined, tk_windows_announced. simpl.
        apply lookup_delete_eq.
      * unfold destroys. count_events. simpl.
        rewrite bool_decide_eq_true_2 by done. lia.
  - rewrite (stop_detection_no_call caller fin1 d wd) by done. cbn [snd].
    rewrite Hsecond by done. unfold result_of, detector_of, world_of. cbn [fst snd].
    split_and!; try done.
    + now rewrite tk_windows_announced, tk_windows_joined.
    + unfold tk_calls. now count_events.
    + intros v. unfold destroys. count_events. lia.
    + intros v Hm How [win Hw].
      destruct Hcase as [Hne|[Hnone|(_ & w' & How' & Hw')]]; [done|congruence|].
      congruence.
    + intros _. split.
      * now rewrite tk_windows_announced, tk_windows_joined, tk_windows_announced,
          tk_windows_joined.
      * intros v. unfold destroys. count_events. lia.
Qed.

Lemma stop_detection_twice_witness :
  let once := stop_detection MainThread true (sample_detector, sample_world) in
  let twice := stop_detection MainThread true (snd once) in
  result_of once = Returned tt /\ result_of twice = Returned tt /\
  running (detector_of twice) = false /\
  overlay_window (detector_of twice) = None /\
  tk_windows (world_of twice) !! 0%nat = None /\
  destroys 0 (world_of twice) = 1%nat.
Proof.
  destruct (stop_detection_twice MainThread true true sample_detector sample_world
              ltac:(discriminate) eq_refl)
    as (H1 & H2 & H3 & H4 & _ & _ & _ & H5 & _).
  destruct (H5 0%nat eq_refl eq_refl (ex_intro _ sample_window eq_refl)) as [H6 H7].
  repeat split; assumption.
Defined.

(** C3 as stated fails off the main thread: two calls in a row from another
    thread raise nothing and leave [running] false, but the overlay window,
    which exists, is not destroyed once: it is not destroyed at all. *)
Lemma stop_detection_twice_off_main_destroys_nothing :
  let once := stop_detection OtherThread true (sample_detector, sample_world) in
  let twice := stop_detection OtherThread true (snd once) in
  overlay_window sample_detector = Some 0%nat /\
  tk_windows sample_world !! 0%nat = Some sample_window /\
  result_of once = Returned tt /\ result_of twice = Returned tt /\
  running (detector_of twice) = false /\
  tk_windows (world_of twice) !! 0%nat = Some sample_window /\
  ~ (destroys 0 (world_of twice) = S (destroys 0 sample_world)).
Proof.
  cbn zeta. split_and!; try reflexivity.
  intros H. vm_compute in H. discriminate H.
Qed.

(** Off the main thread [stop_detection] does not touch the toolkit. *)
Lemma stop_detection_off_main caller finished :
  caller <> MainThread ->
  stable tk_windows (stop_detection caller finished) /\
  stable tk_calls (stop_detection caller finished).
Proof.
  intros Hcaller. unfold tk_calls, stop_detection, thread_join, emit.
  rewrite (bool_decide_eq_false_2 _ Hcaller). simpl when. split; stabilize.
Qed.

(** C9, as the code has it.  [stop_detection] destroys the overlay window
    only when it runs on the main thread: called there while the window
    exists it quits the event loop, destroys the window and clears the
    reference; called from any other thread it makes no toolkit call at all
    and the windows stay as they are. *)
Theorem stop_detection_destroys_on_main_thread_only caller finished d wd w win :
  overlay_window d = Some w -> tk_windows wd !! w = Some win -> tk_doom wd = None ->
  let after := stop_detection caller finished (d, wd) in
  (caller = MainThread ->
     result_of after = Returned tt /\
     overlay_window (detector_of after) = None /\
     tk_windows (world_of after) !! w = None /\
     count (fun e => match e with TkQuit v => bool_decide (v = w) | _ => false end)
       (events (world_of after))
     = S (count (fun e => match e with TkQuit v => bool_decide (v = w) | _ => false end)
            (events wd)) /\
     destroys w (world_of after) = S (destroys w wd)) /\
  (caller <> MainThread ->
     tk_windows (world_of after) = tk_windows wd /\
     tk_calls (world_of after) = tk_calls wd).
Proof.
  intros How Hw Hd. cbn zeta. split.
  - intros ->. rewrite (stop_detection_main_live finished d wd w win) by done.
    unfold result_of, detector_of, world_of, destroys. cbn [fst snd].
    split_and!; try done.
    + rewrite tk_windows_announced. simpl. apply lookup_delete_eq.
    + count_events. simpl. rewrite bool_decide_eq_true_2 by done. lia.
    + count_events. simpl. rewrite bool_decide_eq_true_2 by done. lia.
  - intros Hcaller. destruct (stop_detection_off_main caller finished Hcaller) as [H1 H2].
    split; [apply (H1 (d, wd))|apply (H2 (d, wd))].
Qed.

Lemma stop_detection_destroys_on_main_thread_only_witness :
  let after := stop_detection MainThread true (sample_detector, sample_world) in
  result_of after = Returned tt /\
  overlay_window (detector_of after) = None /\
  tk_windows (world_of after) !! 0%nat = None /\
  destroys 0 (world_of after) = 1%nat.
Proof.
  destruct (stop_detection_destroys_on_main_thread_only MainThread true
              sample_detector sample_world 0%nat sample_window eq_refl eq_refl eq_refl)
    as [H _].
  destruct (H eq_refl) as (H1 & H2 & H3 & _ & H4). repeat split; assumption.
Defined.

(** C9 as stated fails: called from a thread other than the main one while
    the window exists, [stop_detection] neither tears the window down nor
    hands anything to the toolkit (a deferred or routed destruction would be
    a toolkit call); it only drops the reference. *)
Lemma stop_detection_off_main_drops_window :
  let after := stop_detection OtherThread true (sample_detector, sample_world) in
  overlay_window sample_detector = Some 0%nat /\
  tk_windows sample_world !! 0%nat = Some sample_window /\
  result_of after = Returned tt /\
  overlay_window (detector_of after) = None /\
  ~ (tk_windows (world_of after) !! 0%nat = None \/
     (tk_calls sample_world < tk_calls (world_of after))%nat).
Proof.
  cbn zeta. split_and!; try reflexivity.
  intros [H|H]; vm_compute in H; [discriminate|lia].
Qed.

(** ** Creating the window again *)

Arguments tk_on : simpl never.
Arguments canvas_on : simpl never.
Arguments tk_destroy : simpl never.
Arguments str_int : simpl never.

Lemma tk_on_mk w op win m d nx al ev :
  tk_on w op (d, mkWorld (<[w := win]> m) nx None al ev)
    = (Returned tt, (d, mkWorld (<[w := op win]> m) nx None al ev)).
Proof.
  rewrite tk_on_quiet by done. simpl. rewrite lookup_insert_eq.
  unfold set_windows. simpl. now rewrite insert_insert_eq.
Qed.

Lemma canvas_on_mk c op o cv m d nx al ev :
  canvas_on c op (d, mkWorld (<[c := mkWin o (Some cv)]> m) nx None al ev)
    = (Returned tt, (d, mkWorld (<[c := mkWin o (Some (op cv))]> m) nx None al ev)).
Proof.
  rewrite canvas_on_quiet by done. simpl. rewrite lookup_insert_eq.
  unfold set_windows. simpl. now rewrite insert_insert_eq.
Qed.

Lemma tk_destroy_mk_live w win d nx al ev :
  tk_destroy w (d, mkWorld {[w := win]} nx None al ev)
    = (Returned tt, (d, mkWorld ∅ nx None al (ev ++ [TkDestroy w]))).
Proof.
  rewrite (tk_destroy_live w win) by (try done; apply lookup_singleton_eq).
  unfold set_windows, add_event. simpl. now rewrite delete_singleton_eq.
Qed.

Lemma tk_destroy_mk_dead w d nx al ev :
  tk_destroy w (d, mkWorld ∅ nx None al ev)
    = (Raised dead_window, (d, mkWorld ∅ nx None al ev)).
Proof. now rewrite tk_destroy_dead. Qed.

(** Run a computation on a store given by constructors. *)
Ltac exec :=
  repeat (progress (unfold try_except, step, on_window, on_canvas, set_overlay_window,
                      set_canvas, add_event, set_next, set_windows, tk_Tk, tk_Canvas,
                      assign, self, world, ret, raise, emit, act, when, bind; simpl)
          || rewrite tk_on_mk || rewrite canvas_on_mk
          || rewrite tk_destroy_mk_live || rewrite tk_destroy_mk_dead).

(** A map whose only possible key is [w]. *)
Lemma only_window (m : gmap nat tkwin) w :
  (forall v, is_Some (m !! v) -> v = w) ->
  (m = ∅ /\ m !! w = None) \/ exists win, m = {[w := win]} /\ m !! w = Some win.
Proof.
  intros Honly. destruct (m !! w) as [win|] eqn:Hw.
  - right. exists win. split; [|done]. apply map_eq. intros v.
    destruct (decide (v = w)) as [->|Hne].
    + now rewrite lookup_singleton_eq.
    + rewrite lookup_singleton_ne by done.
      destruct (m !! v) eqn:Hv; [|done]. exfalso. apply Hne, Honly. now rewrite Hv.
  - left. split; [|done]. apply map_eq. intros v. rewrite lookup_empty.
    destruct (m !! v) eqn:Hv; [|done].
    assert (v = w) as -> by (apply Honly; now rewrite Hv). congruence.
Qed.

Lemma size_holding (m : gmap nat tkwin) w win :
  m !! w = Some win -> size m = S (size (delete w m)).
Proof.
  intros Hw. rewrite <- (insert_delete_id m w win Hw) at 1.
  rewrite map_size_insert_None; [done|]. apply lookup_delete_eq.
Qed.

Lemma size_insert_le (m : gmap nat tkwin) v win :
  (size (<[v := win]> m) <= S (size m))%nat.
Proof.
  destruct (m !! v) eqn:Hv.
  - rewrite map_size_insert_Some by eauto. lia.
  - rewrite map_size_insert_None by done. lia.
Qed.

(** With the held window alive, one window goes before one comes. *)
Lemma create_overlay_window_swaps fault d wd w win :
  overlay_window d = Some w ->
  tk_windows wd !! w = Some win ->
  tk_doom wd = None ->
  let after := create_overlay_window fault (d, wd) in
  let before := size (tk_windows wd) in
  result_of after = Returned tt /\
  (size (tk_windows (world_of after)) <= before)%nat /\
  (forall v, v <> w -> v <> tk_next wd ->
     tk_windows (world_of after) !! v = tk_windows wd !! v) /\
  (w <> tk_next wd -> tk_windows (world_of after) !! w = None) /\
  (fault = None ->
     overlay_window (detector_of after) = Some (tk_next wd) /\
     is_Some (tk_windows (world_of after) !! tk_next wd)) /\
  exists rest,
    events (world_of after) = events wd ++ TkDestroy w :: rest /\
    Forall (fun n => (n <= before)%nat) (live_along before (TkDestroy w :: rest)).
Proof.
  intros How Hw Hd. destruct d as [vb md ct sw sh rn ow cn fs fc lo oi pt].
  destruct wd as [m nx dm al ev]. simpl in *. subst.
  pose proof (size_holding m w win Hw) as Hsize.
  pose proof (size_insert_le (delete w m) nx) as Hins.
  unfold create_overlay_window. rewrite bind_self. cbn [overlay_window].
  rewrite (bind_returned _ _ _ tt
             (mkDetector vb md ct sw sh rn (Some w) cn fs fc lo oi pt,
              mkWorld (delete w m) nx None al (ev ++ [TkDestroy w])));
    [|apply try_returned; now rewrite (tk_destroy_live w win)].
  destruct fault as [[s e]|]; [destruct s|]; destruct vb;
    unfold result_of, detector_of, world_of; exec.
  all: split; [reflexivity|].
  all: split; [try rewrite Hsize; first [apply Hins|lia]|].
  all: split;
    [intros v Hv Hv'; rewrite ?lookup_insert_ne by done; now apply lookup_delete_ne|].
  all: split;
    [intros Hne; rewrite ?lookup_insert_ne by done; apply lookup_delete_eq|].
  all: split;
    [first [intros H; discriminate H
           |intros _; split; [reflexivity|rewrite lookup_insert_eq; by eexists]]|].
  all: eexists; split;
    [rewrite <- ?List.app_assoc; simpl; reflexivity|].
  all: rewrite Hsize; simpl; repeat constructor; lia.
Qed.

(** C4, as the code has it.  When [create_overlay_window] is called while
    the detector holds an overlay window that exists, it returns normally
    whatever fails during the creation, and the destruction of the held
    window is the first thing it asks of the toolkit, before any creation:
    the held window is gone, no other window is touched, and neither
    after any event of the call nor at its end are there more windows than
    before it.  So when the held window was the only one, at most one
    window exists at any time of the call.  When nothing fails the
    reference is the newly created window. *)
Theorem create_overlay_window_replaces fault d wd w win :
  overlay_window d = Some w ->
  tk_windows wd !! w = Some win ->
  tk_doom wd = None ->
  let after := create_overlay_window fault (d, wd) in
  let before := size (tk_windows wd) in
  result_of after = Returned tt /\
  (size (tk_windows (world_of after)) <= before)%nat /\
  (forall v, v <> w -> v <> tk_next wd ->
     tk_windows (world_of after) !! v = tk_windows wd !! v) /\
  (w <> tk_next wd -> tk_windows (world_of after) !! w = None) /\
  (fault = None ->
     overlay_window (detector_of after) = Some (tk_next wd) /\
     is_Some (tk_windows (world_of after) !! tk_next wd)) /\
  exists rest,
    events (world_of after) = events wd ++ TkDestroy w :: rest /\
    Forall (fun n => (n <= before)%nat) (live_along before (TkDestroy w :: rest)) /\
    ((forall v, is_Some (tk_windows wd !! v) -> v = w) ->
     before = 1%nat /\
     (size (tk_windows (world_of after)) <= 1)%nat /\
     Forall (fun n => (n <= 1)%nat) (live_along 1 (TkDestroy w :: rest))).
Proof.
  intros How Hw Hd. cbn zeta.
  destruct (create_overlay_window_swaps fault d wd w win How Hw Hd)
    as (H1 & H2 & H3 & H4 & H5 & rest & H6 & H7).
  split_and!; try done. exists rest. split_and!; try done.
  intros Honly.
  assert (Hone : size (tk_windows wd) = 1%nat).
  { destruct (only_window (tk_windows wd) w Honly) as [[_ Hnone]|(win' & -> & _)];
      [congruence|apply map_size_singleton]. }
  rewrite Hone in H2, H7. done.
Qed.

Lemma create_overlay_window_replaces_witness :
  let after := create_overlay_window None (sample_detector, sample_world) in
  result_of after = Returned tt /\
  (size (tk_windows (world_of after)) <= 1)%nat /\
  tk_windows (world_of after) !! 0%nat = None /\
  overlay_window (detector_of after) = Some 1%nat.
Proof.
  destruct (create_overlay_window_replaces None sample_detector sample_world 0%nat
              sample_window eq_refl eq_refl eq_refl) as (H1 & H2 & _ & H3 & H4 & _).
  destruct (H4 eq_refl) as [H5 _].
  split_and!; [exact H1|exact H2|apply H3; discriminate|exact H5].
Defined.

(** C4 as stated fails: [create_overlay_window] destroys only the window
    the detector still refers to.  After a stop from another thread, which
    drops the reference and leaves the window, and likewise after a creation
    that failed half-way, a window exists when it is called, it destroys
    none, and two windows exist afterwards. *)
Lemma create_overlay_window_keeps_unheld_window :
  let stopped := stop_detection OtherThread true (sample_detector, sample_world) in
  let created := create_overlay_window None (snd stopped) in
  let again := create_overlay_window None (snd failed_run) in
  (tk_windows (world_of stopped) !! 0%nat = Some sample_window /\
   result_of created = Returned tt /\
   destroys 0 (world_of created) = 0%nat /\
   ~ (size (tk_windows (world_of created)) <= 1)%nat) /\
  (is_Some (tk_windows (world_of failed_run) !! 0%nat) /\
   result_of again = Returned tt /\
   destroys 0 (world_of again) = 0%nat /\
   ~ (size (tk_windows (world_of again)) <= 1)%nat).
Proof.
  cbn zeta. split; split_and!; try reflexivity.
  - intros H. vm_compute in H. lia.
  - vm_compute. eauto.
  - intros H. vm_compute in H. lia.
Qed.

(** ** The capture loop *)

Section Keeps.
Context {X : Type} (g : Detector -> X).

Lemma keeps_ret {A} (a : A) : keeps g (ret a).
Proof. done. Qed.

Lemma keeps_raise {A} e : keeps g (@raise A e).
Proof. done. Qed.

Lemma keeps_bind {A B} (m : M A) (k : A -> M B) :
keeps g m -> (forall a, keeps g (k a)) -> keeps g (bind m k).
Proof.
intros Hm Hk st. unfold bind. specialize (Hm st).
destruct (m st) as [[a|e] st']; simpl in *; [|done]. now rewrite Hk.
Qed.

Lemma keeps_try {A} (m : M A) c h :
keeps g m -> (forall e, keeps g (h e)) -> keeps g (try_except m c h).
Proof.
intros Hm Hh st. unfold try_except. specialize (Hm st).
destruct (m st) as [[a|e] st']; simpl in *; [done|].
destruct (c e); [|done]. now rewrite Hh.
Qed.

Lemma keeps_self : keeps g self.
Proof. done. Qed.

Lemma keeps_world : keeps g world.
Proof. done. Qed.

Lemma keeps_assign f : (forall d, g (f d) = g d) -> keeps g (assign f).
Proof. intros H st. apply H. Qed.

Lemma keeps_act f : keeps g (act f).
Proof. done. Qed.

Lemma keeps_emit e : keeps g (emit e).
Proof. done. Qed.

Lemma keeps_when b m : keeps g m -> keeps g (when b m).
Proof. destruct b; [done|]. intros _. apply keeps_ret. Qed.

Lemma keeps_external fault : keeps g (external fault).
Proof. now destruct fault. Qed.

Lemma keeps_external_value {A} (r : outcome A) : keeps g (external_value r).
Proof. now destruct r. Qed.

Lemma keeps_for_each {A} (l : list A) body :
(forall x, keeps g (body x)) -> keeps g (for_each l body).
Proof.
intros H. induction l as [|x l IH]; [apply keeps_ret|].
apply keeps_bind; [apply H|]. intros _. apply IH.
Qed.

Lemma keeps_tk_on w op : keeps g (tk_on w op).
Proof.
intros [d wd]. unfold tk_on. rewrite bind_act, bind_world.
now destruct (tk_windows (tick wd) !! w).
Qed.

Lemma keeps_canvas_on c op : keeps g (canvas_on c op).
Proof.
intros [d wd]. unfold canvas_on. rewrite bind_act, bind_world.
destruct (tk_windows (tick wd) !! c) as [win|]; [|done]. now destruct (w_canvas win).
Qed.
End Keeps.

Ltac keep_step :=
  lazymatch goal with
  | |- keeps _ (ret _) => apply keeps_ret
  | |- keeps _ (raise _) => apply keeps_raise
  | |- keeps _ self => apply keeps_self
  | |- keeps _ world => apply keeps_world
  | |- keeps _ (assign _) => apply keeps_assign; done
  | |- keeps _ (act _) => apply keeps_act
  | |- keeps _ (emit _) => apply keeps_emit
  | |- keeps _ (external _) => apply keeps_external
  | |- keeps _ (external_value _) => apply keeps_external_value
  | |- keeps _ (when _ _) => apply keeps_when
  | |- keeps _ (for_each _ _) => apply keeps_for_each; intros
  | |- keeps _ (tk_on _ _) => apply keeps_tk_on
  | |- keeps _ (canvas_on _ _) => apply keeps_canvas_on
  | |- keeps _ (bind _ _) => apply keeps_bind; [|intros]
  | |- keeps _ (try_except _ _ _) => apply keeps_try; [|intros]
  | |- keeps _ (match ?x with _ => _ end) => destruct x
  end.

Ltac keep := repeat keep_step.

Lemma update_overlay_keeps {X} (g : Detector -> X) dets :
  (forall o d, g (set_overlay_window o d) = g d) -> keeps g (update_overlay dets).
Proof.
  intros Hg. unfold update_overlay, draw, on_canvas, on_window, tk_update. keep.
Qed.

Lemma body_counts device env d wd :
  frame_count (detector_of (body device env (d, wd))) = frame_count d + 1 /\
  running (detector_of (body device env (d, wd))) = running d.
Proof.
  unfold body, detector_of. rewrite bind_self, bind_assign.
  split.
  - match goal with |- frame_count (fst (snd (?m ?st))) = _ =>
      assert (H : keeps frame_count m) end.
    { keep; apply update_overlay_keeps; done. }
    now rewrite H.
  - match goal with |- running (fst (snd (?m ?st))) = _ =>
      assert (H : keeps running m) end.
    { keep; apply update_overlay_keeps; done. }
    now rewrite H.
Qed.

Lemma iteration_returns device env st :
  result_of (iteration device env st) = Returned tt.
Proof.
  unfold iteration, try_except, result_of.
  destruct (body device env st) as [[[]|e] [d wd]]; [done|]. simpl.
  rewrite bind_self. now destruct (verbose d && _).
Qed.

Lemma iteration_counts device env d wd :
  frame_count (detector_of (iteration device env (d, wd))) = frame_count d + 1 /\
  running (detector_of (iteration device env (d, wd))) = running d.
Proof.
  destruct (body_counts device env d wd) as [Hf Hr].
  unfold iteration, try_except, detector_of in *.
  destruct (body device env (d, wd)) as [[[]|e] [d' wd']]; [done|]. simpl in *.
  rewrite bind_self. now destruct (verbose d' && _).
Qed.

Lemma iteration_handles device env d wd e :
  result_of (body device env (d, wd)) = Raised e ->
  events (world_of (iteration device env (d, wd)))
    = events (world_of (body device env (d, wd)))
      ++ error_log env e (detector_of (body device env (d, wd))).
Proof.
  unfold iteration, try_except, result_of, world_of, detector_of, error_log.
  destruct (body device env (d, wd)) as [[[]|e'] [d' wd']]; [done|]. simpl.
  intros [= ->]. rewrite bind_self.
  destruct (verbose d' && _); simpl; [|done]. now rewrite <- List.app_assoc.
Qed.

Lemma while_running_step device env rest d wd :
  running d = true -> controller_stopped env = false ->
  while_running device (env :: rest) (d, wd)
    = while_running device rest (snd (iteration device env (d, wd))).
Proof.
  intros Hr Hc. simpl while_running. rewrite Hc. simpl when.
  rewrite bind_ret, bind_self, Hr.
  pose proof (iteration_returns device env (d, wd)) as H. unfold result_of in H.
  unfold bind. destruct (iteration device env (d, wd)) as [r st]. simpl in *. now subst r.
Qed.



(** A failure of any step of a processed frame is an exception of the body. *)
Lemma body_raises_at_step device env d wd e shot :
  frame_skip d <> 0 -> (frame_count d + 1) mod frame_skip d = 0 ->
  grab env = Raised e \/
  (grab env = Returned shot /\
   (np_array_fault env = Some e \/
    (np_array_fault env = None /\
     (cvtColor_fault env = Some e \/
      (cvtColor_fault env = None /\
       (inference_fault env = Some e \/
        (inference_fault env = None /\
         result_of
           (update_overlay
              (collect (predict (model d) (map (map drop_alpha) shot)
                          (confidence_threshold d) [0%nat]))
              (set_frame_count (frame_count d + 1) d, wd)) = Raised e))))))) ->
  result_of (body device env (d, wd)) = Raised e.
Proof.
  intros Hskip Hmod Hstep. unfold body, result_of.
  rewrite bind_self, bind_assign, bind_self. cbn [frame_skip frame_count set_frame_count].
  destruct (Z.eqb_spec (frame_skip d) 0) as [|_]; [done|].
  rewrite Hmod. change (negb (0 =? 0)) with false. cbv iota.
  destruct Hstep as [Hg|(Hg & Hstep)]; rewrite Hg; [done|].
  change (external_value (Returned shot)) with (ret (A:=screenshot) shot). rewrite bind_ret.
  destruct Hstep as [Hn|(Hn & Hstep)]; rewrite Hn; [done|].
  simpl external. rewrite bind_ret.
  destruct Hstep as [Hn'|(Hn' & Hstep)]; rewrite Hn'; [done|].
  simpl external. rewrite bind_ret, bind_self.
  destruct Hstep as [Hi|(Hi & Hstep)]; rewrite Hi; [done|].
  simpl external. rewrite bind_ret.
  cbn [model confidence_threshold set_frame_count].
  unfold result_of in Hstep. unfold bind at 1.
  destruct (update_overlay _ _) as [[[]|e'] st']; simpl in Hstep; [done|]. now simpl.
Qed.

(** ** Start-up *)

Lemma start_detection_returns env : returns (start_detection MainThread env).
Proof.
  unfold start_detection. apply returns_try_all. intros e [d wd]. rewrite bind_self.
  apply returns_bind; [apply returns_when, returns_emit|]. intros _ [d' wd'].
  destruct (stop_detection_returns MainThread (join_finished env) d' wd') as [wd'' H];
    [done|].
  rewrite H. now eexists _, _.
Qed.

Lemma start_detection_no_startup_failure env :
  stable startup_failures (start_detection MainThread env).
Proof.
  unfold startup_failures, start_detection, create_overlay_window, stop_detection,
    thread_join, tk_Canvas, tk_quit, tk_mainloop.
  stabilize.
Qed.

Lemma init_world env path conf v wd :
  snd (init env path conf v wd)
  = if path_exists env path && v then add_event (Print (UsingModel path)) wd else wd.
Proof.
  unfold init. destruct (path_exists env path); [|done]. simpl.
  destruct (load_model env path); [|now destruct v].
  destruct (screen_size env) as [[w h]|]; now destruct v.
Qed.

(** C7.  If the weights file does not exist, construction raises
    [FileNotFoundError] at once, before any library is called; if it exists,
    whatever construction raises comes from loading the model or from the
    screen-size query, and with those succeeding construction succeeds.  In
    the program a failed construction prints the start-up failure and ends
    before any thread is started or any window made; once construction has
    succeeded nothing makes the program print a start-up failure. *)
Theorem startup_failure_is_the_only_fatal_error env path conf v wd :
  (path_exists env path = false ->
     init env path conf v wd = (Raised (missing_model path), wd)) /\
  (path_exists env path = true ->
     (forall e, fst (init env path conf v wd) = Raised e ->
        load_model env path = Raised e \/ screen_size env = Raised e) /\
     (forall m wh, load_model env path = Returned m -> screen_size env = Returned wh ->
        exists d, fst (init env path conf v wd) = Returned d)) /\
  forall senv,
    let menv := mkMainEnv env senv in
    let booted := add_event (SignalInstalled "SIGTERM")
                    (add_event (SignalInstalled "SIGINT") wd) in
    (path_exists env "yolov8x.pt" = false ->
       main menv wd
       = add_event (Print StartupHint)
           (add_event (Print (StartupFailed (str_exn (missing_model "yolov8x.pt"))))
              booted)) /\
    (forall e, fst (init env "yolov8x.pt" (3 # 10) false booted) = Raised e ->
       main menv wd
       = add_event (Print StartupHint)
           (add_event (Print (StartupFailed (str_exn e))) booted) /\
       startup_failures (main menv wd) = S (startup_failures wd) /\
       thread_starts (main menv wd) = thread_starts wd /\
       tk_calls (main menv wd) = tk_calls wd) /\
    (forall d, fst (init env "yolov8x.pt" (3 # 10) false booted) = Returned d ->
       startup_failures (main menv wd) = startup_failures wd).
Proof.
  split_and!.
  - intros H. unfold init. now rewrite H.
  - intros H. unfold init. rewrite H. split.
    + intros e. destruct (load_model env path) as [m|e']; simpl; [|intros [= ->]; now left].
      destruct (screen_size env) as [[w h]|e']; simpl; [done|]. intros [= ->]. now right.
    + intros m [w h] -> ->. simpl. eauto.
  - intros senv menv booted.
    assert (Hraise : forall e,
      fst (init env "yolov8x.pt" (3 # 10) false booted) = Raised e ->
      main menv wd
      = add_event (Print StartupHint)
          (add_event (Print (StartupFailed (str_exn e))) booted)).
    { intros e He. unfold main. fold booted. cbn [init_env menv].
      pose proof (init_world env "yolov8x.pt" (3 # 10) false booted) as Hw.
      rewrite andb_false_r in Hw.
      destruct (init env "yolov8x.pt" (3 # 10) false booted) as [r wd']. simpl in *.
      now subst. }
    split_and!.
    + intros H. apply Hraise. unfold init. now rewrite H.
    + intros e He. rewrite (Hraise e He). split_and!; [done|..].
      * unfold startup_failures, booted. rewrite !count_add_event. simpl. lia.
      * unfold thread_starts, booted. rewrite !count_add_event. simpl. lia.
      * unfold tk_calls, booted. rewrite !count_add_event. simpl. lia.
    + intros d Hd. unfold main. fold booted. cbn [init_env start_env menv].
      pose proof (init_world env "yolov8x.pt" (3 # 10) false booted) as Hw.
      rewrite andb_false_r in Hw.
      destruct (init env "yolov8x.pt" (3 # 10) false booted) as [r wd']. simpl in *.
      subst r wd'.
      destruct (start_detection_returns senv (d, add_event (Print Banner) booted))
        as ([] & [d' wd'] & Hrun).
      pose proof (start_detection_no_startup_failure senv
                    (d, add_event (Print Banner) booted)) as Hs.
      rewrite Hrun in *. cbn [fst snd] in Hs. rewrite Hs.
      unfold startup_failures, booted. rewrite !count_add_event. simpl. lia.
Qed.

Lemma startup_failure_is_the_only_fatal_error_witness :
  init no_weights "yolov8x.pt" (3 # 10) false fresh_world
    = (Raised (missing_model "yolov8x.pt"), fresh_world) /\
  events (main (mkMainEnv no_weights plain_start) fresh_world)
    = [SignalInstalled "SIGINT"; SignalInstalled "SIGTERM";
       Print (StartupFailed (str_exn (missing_model "yolov8x.pt")));
       Print StartupHint].
Proof.
  destruct (startup_failure_is_the_only_fatal_error no_weights "yolov8x.pt" (3 # 10)
              false fresh_world) as (H1 & _ & H3).
  split; [exact (H1 eq_refl)|].
  destruct (H3 plain_start) as (H4 & _). rewrite (H4 eq_refl). reflexivity.
Defined.

(** ** Filtering by confidence *)

Lemma collect_boxes (boxes : list prediction) (acc : list detection) :
  fold_left
    (fun (detections : list detection) box =>
       let '(x1, y1, x2, y2) := xyxy box in
       detections ++
         [(int_of_float x1, int_of_float y1, int_of_float x2, int_of_float y2, conf box)])
    boxes acc
  = acc ++ map to_detection boxes.
Proof.
  revert acc. induction boxes as [|box boxes IH]; intros acc; simpl.
  - now rewrite List.app_nil_r.
  - rewrite IH. unfold to_detection. destruct (xyxy box) as [[[x1 y1] x2] y2].
    now rewrite <- List.app_assoc.
Qed.

Lemma collect_results (results : list (list prediction)) (acc : list detection) :
  fold_left
    (fun (detections : list detection) boxes =>
       fold_left
         (fun (detections : list detection) box =>
            let '(x1, y1, x2, y2) := xyxy box in
            detections ++
              [(int_of_float x1, int_of_float y1, int_of_float x2, int_of_float y2,
                conf box)])
         boxes detections)
    results acc
  = acc ++ flat_map (map to_detection) results.
Proof.
  revert acc. induction results as [|boxes results IH]; intros acc; simpl.
  - now rewrite List.app_nil_r.
  - rewrite collect_boxes, IH. now rewrite <- List.app_assoc.
Qed.

Lemma collect_flat (results : list (list prediction)) :
  collect results = flat_map (map to_detection) results.
Proof. unfold collect. now rewrite collect_results. Qed.

(** C5.  With the detection model as the specification describes it (the
    candidates of a frame, kept when their confidence reaches the threshold
    and their class is in the filter), every detection the loop collects at
    the higher threshold is among those it collects at the lower one. *)
Theorem threshold_filtering_monotone (m : yolo) (frame : image) (t1 t2 : Q)
    (classes : list nat) (det : detection) :
  (t1 < t2)%Q ->
  In det (collect (predict m frame t2 classes)) ->
  In det (collect (predict m frame t1 classes)).
Proof.
  intros Hlt. rewrite !collect_flat. unfold predict. simpl. rewrite !List.app_nil_r.
  rewrite !in_map_iff. intros (box & Hbox & Hin). exists box. split; [done|].
  apply List.filter_In in Hin. destruct Hin as [Hin Hkeep].
  apply List.filter_In. split; [done|].
  apply andb_true_iff in Hkeep. destruct Hkeep as [Hconf Hcls].
  apply andb_true_iff. split; [|done].
  apply Qle_bool_iff. apply Qle_bool_iff in Hconf.
  apply Qle_trans with t2; [now apply Qlt_le_weak|done].
Qed.

Lemma threshold_filtering_monotone_witness :
  In ((10, 10, 50, 90, 87 # 100) : detection)
    (collect (predict sample_model [] (5 # 10) [0%nat])) /\
  In ((10, 10, 50, 90, 87 # 100) : detection)
    (collect (predict sample_model [] (3 # 10) [0%nat])).
Proof.
  assert (H : In ((10, 10, 50, 90, 87 # 100) : detection)
                (collect (predict sample_model [] (5 # 10) [0%nat]))).
  { simpl. left. reflexivity. }
  split; [exact H|].
  apply (threshold_filtering_monotone sample_model [] (3 # 10) (5 # 10) [0%nat]);
    [reflexivity|exact H].
Defined.

(** ** Windows in the whole program *)

Lemma grows_same n wd wd' :
  events wd' = events wd -> tk_windows wd' = tk_windows wd -> grows n wd wd'.
Proof.
  intros He Hw. exists []. rewrite List.app_nil_r, Hw. unfold creates, count. simpl.
  split_and!; [done|lia..].
Qed.

Lemma grows_refl n wd : grows n wd wd.
Proof. now apply grows_same. Qed.

Lemma grows_trans n1 n2 wd1 wd2 wd3 :
  grows n1 wd1 wd2 -> grows n2 wd2 wd3 -> grows (n1 + n2) wd1 wd3.
Proof.
  intros (new1 & E1 & C1 & S1) (new2 & E2 & C2 & S2). exists (new1 ++ new2).
  unfold creates in *. rewrite count_app. split_and!; [|lia..].
  now rewrite E2, E1, <- List.app_assoc.
Qed.

Lemma grows_weaken n n' wd wd' : (n <= n')%nat -> grows n wd wd' -> grows n' wd wd'.
Proof. intros Hn (new & E & C & S). exists new. split_and!; [done|lia..]. Qed.

Lemma grows_add_event n e wd :
  is_create e = false -> grows n wd (add_event e wd).
Proof.
  intros He. exists [e]. unfold creates, count. simpl. rewrite He. simpl.
  split_and!; [done|lia..].
Qed.

Lemma grows_tick n wd : grows n wd (tick wd).
Proof.
  unfold tick. destruct (tk_doom wd) as [[v [|k]]|]; try now apply grows_same.
  destruct (tk_windows wd !! v) eqn:Hv; [|now apply grows_same].
  exists [DestroyedElsewhere v]. unfold creates, count. simpl.
  rewrite map_size_delete, Hv. simpl. split_and!; [done|lia..].
Qed.

Section MakesWindows.
Context (n : nat).

Lemma mw_ret {A} (a : A) : makes_windows n (ret a).
Proof. intros st. apply grows_refl. Qed.

Lemma mw_raise {A} e : makes_windows n (@raise A e).
Proof. intros st. apply grows_refl. Qed.

Lemma mw_self : makes_windows n self.
Proof. intros st. apply grows_refl. Qed.

Lemma mw_world : makes_windows n world.
Proof. intros st. apply grows_refl. Qed.

Lemma mw_assign f : makes_windows n (assign f).
Proof. intros st. apply grows_refl. Qed.

Lemma mw_external fault : makes_windows n (external fault).
Proof. destruct fault; intros st; apply grows_refl. Qed.

Lemma mw_external_value {A} (r : outcome A) : makes_windows n (external_value r).
Proof. destruct r; intros st; apply grows_refl. Qed.

Lemma mw_emit e : is_create e = false -> makes_windows n (emit e).
Proof. intros He st. now apply grows_add_event. Qed.

Lemma mw_set_worker_alive b : makes_windows n (act (set_worker_alive b)).
Proof. intros st. now apply grows_same. Qed.

Lemma mw_bind_first {A B} (m : M A) (k : A -> M B) :
makes_windows n m -> (forall a, makes_windows 0 (k a)) -> makes_windows n (bind m k).
Proof.
intros Hm Hk st. unfold bind. specialize (Hm st).
destruct (m st) as [[a|e] st']; simpl in *; [|done].
replace n with (n + 0)%nat by lia. eapply grows_trans; [exact Hm|apply Hk].
Qed.

Lemma mw_bind_then {A B} (m : M A) (k : A -> M B) :
makes_windows 0 m -> (forall a, makes_windows n (k a)) -> makes_windows n (bind m k).
Proof.
intros Hm Hk st. unfold bind. specialize (Hm st).
destruct (m st) as [[a|e] st']; simpl in *; [|now apply (grows_weaken 0); [lia|]].
change n with (0 + n)%nat. eapply grows_trans; [exact Hm|apply Hk].
Qed.

Lemma mw_try {A} (m : M A) c h :
makes_windows n m -> (forall e, makes_windows 0 (h e)) -> makes_windows n (try_except m c h).
Proof.
intros Hm Hh st. unfold try_except. specialize (Hm st).
destruct (m st) as [[a|e] st']; simpl in *; [done|].
destruct (c e); [|done].
replace n with (n + 0)%nat by lia. eapply grows_trans; [exact Hm|apply Hh].
Qed.

Lemma mw_when b m : makes_windows n m -> makes_windows n (when b m).
Proof. destruct b; [done|]. intros _. apply mw_ret. Qed.

Lemma mw_step {A} fault s (m : M A) : makes_windows n m -> makes_windows n (step fault s m).
Proof.
intros H. unfold step. destruct fault as [[s' e]|]; [|done].
destruct (decide (s' = s)); [apply mw_raise|done].
Qed.

Lemma mw_tk_on w op : makes_windows n (tk_on w op).
Proof.
intros [d wd]. unfold tk_on. rewrite bind_act, bind_world. cbn [snd].
destruct (tk_windows (tick wd) !! w) as [win|] eqn:Hw; simpl.
- apply (grows_weaken (n + 0)); [lia|].
  eapply grows_trans; [apply grows_tick|]. exists []. simpl.
  rewrite List.app_nil_r, map_size_insert, Hw. unfold creates, count. simpl.
  split_and!; [done|lia..].
- apply grows_tick.
Qed.

Lemma mw_canvas_on c op : makes_windows n (canvas_on c op).
Proof.
intros [d wd]. unfold canvas_on. rewrite bind_act, bind_world. cbn [snd].
destruct (tk_windows (tick wd) !! c) as [win|] eqn:Hw; simpl; [|apply grows_tick].
destruct (w_canvas win); simpl; [|apply grows_tick].
apply (grows_weaken (n + 0)); [lia|].
eapply grows_trans; [apply grows_tick|]. exists []. simpl.
rewrite List.app_nil_r, map_size_insert, Hw. unfold creates, count. simpl.
split_and!; [done|lia..].
Qed.

Lemma mw_tk_destroy w : makes_windows n (tk_destroy w).
Proof.
intros [d wd]. unfold tk_destroy. rewrite bind_act, bind_world. cbn [snd].
destruct (tk_windows (tick wd) !! w) as [win|] eqn:Hw; simpl; [|apply grows_tick].
apply (grows_weaken (n + 0)); [lia|].
eapply grows_trans; [apply grows_tick|]. exists [TkDestroy w]. simpl.
rewrite map_size_delete, Hw. unfold creates, count. simpl.
split_and!; [done|lia..].
Qed.

Lemma mw_on_window {A} (call : nat -> M A) :
(forall w, makes_windows n (call w)) -> makes_windows n (on_window call).
Proof.
intros H [d wd]. unfold on_window. rewrite bind_self.
destruct (overlay_window d); [apply H|apply grows_refl].
Qed.

Lemma mw_on_canvas {A} (call : nat -> M A) :
(forall c, makes_windows n (call c)) -> makes_windows n (on_canvas call).
Proof.
intros H [d wd]. unfold on_canvas. rewrite bind_self.
destruct (canvas d); [apply H|apply grows_refl].
Qed.
End MakesWindows.

Lemma mw_tk_Tk : makes_windows 1 tk_Tk.
Proof.
  intros [d wd]. unfold tk_Tk. rewrite bind_world, bind_act, bind_emit. simpl.
  exists [TkCreate (tk_next wd)]. unfold creates, count. simpl.
  rewrite map_size_insert. split_and!; [done|lia|].
  destruct (tk_windows wd !! tk_next wd); simpl; lia.
Qed.

Lemma mw_for_each {A} (l : list A) body :
  (forall x, makes_windows 0 (body x)) -> makes_windows 0 (for_each l body).
Proof.
  intros H. induction l as [|x l IH]; [apply mw_ret|].
  apply mw_bind_then; [apply H|]. intros _. apply IH.
Qed.

Ltac windows_step :=
  lazymatch goal with
  | |- makes_windows _ (ret _) => apply mw_ret
  | |- makes_windows _ (raise _) => apply mw_raise
  | |- makes_windows _ self => apply mw_self
  | |- makes_windows _ world => apply mw_world
  | |- makes_windows _ (assign _) => apply mw_assign
  | |- makes_windows _ (external _) => apply mw_external
  | |- makes_windows _ (external_value _) => apply mw_external_value
  | |- makes_windows _ (emit _) => apply mw_emit; reflexivity
  | |- makes_windows _ (act (set_worker_alive _)) => apply mw_set_worker_alive
  | |- makes_windows _ (step _ _ _) => apply mw_step
  | |- makes_windows _ (on_window _) => apply mw_on_window; intros
  | |- makes_windows _ (on_canvas _) => apply mw_on_canvas; intros
  | |- makes_windows _ (when _ _) => apply mw_when
  | |- makes_windows 0 (for_each _ _) => apply mw_for_each; intros
  | |- makes_windows _ (tk_on _ _) => apply mw_tk_on
  | |- makes_windows _ (canvas_on _ _) => apply mw_canvas_on
  | |- makes_windows _ (tk_destroy _) => apply mw_tk_destroy
  | |- makes_windows 1 tk_Tk => apply mw_tk_Tk
  | |- makes_windows 0 (bind _ _) => apply mw_bind_then; [|intros]
  | |- makes_windows _ (try_except _ _ _) => apply mw_try; [|intros]
  | |- makes_windows _ (match ?x with _ => _ end) => destruct x
  end.

Ltac windows := repeat windows_step.

Lemma update_overlay_makes_no_window dets : makes_windows 0 (update_overlay dets).
Proof. unfold update_overlay, draw, tk_update. windows. Qed.

Lemma stop_detection_makes_no_window caller finished :
  makes_windows 0 (stop_detection caller finished).
Proof. unfold stop_detection, thread_join, tk_quit. windows. Qed.

Lemma iteration_makes_no_window device env : makes_windows 0 (iteration device env).
Proof.
  unfold iteration, body. windows. apply update_overlay_makes_no_window.
Qed.

Lemma while_running_makes_no_window device script :
  makes_windows 0 (while_running device script).
Proof.
  induction script as [|env script IH]; simpl; windows.
  - apply iteration_makes_no_window.
  - apply IH.
Qed.

Lemma process_screen_makes_no_window lenv script :
  makes_windows 0 (process_screen lenv script).
Proof. unfold process_screen. windows. apply while_running_makes_no_window. Qed.

Lemma create_overlay_window_makes_one fault :
  makes_windows 1 (create_overlay_window fault).
Proof.
  unfold create_overlay_window, tk_Canvas.
  apply mw_bind_then; [windows|]. intros d.
  apply mw_bind_then; [windows|]. intros _.
  apply mw_try; [|intros; windows].
  apply mw_bind_first; [windows|]. intros w. windows.
Qed.

Lemma start_detection_makes_one caller env :
  makes_windows 1 (start_detection caller env).
Proof.
  unfold start_detection, tk_mainloop.
  apply mw_try.
  - apply mw_bind_then; [windows|]. intros _.
    apply mw_bind_first; [apply create_overlay_window_makes_one|]. intros _. windows.
  - intros e. windows. apply stop_detection_makes_no_window.
Qed.

Lemma live_along_bound evs : forall n,
  Forall (fun k => (k <= n + creates evs)%nat) (live_along n evs).
Proof.
  induction evs as [|e evs IH]; intros n; [constructor|].
  assert (Hrest : creates (e :: evs) = ((if is_create e then 1 else 0) + creates evs)%nat).
  { unfold creates, count. simpl. now destruct (is_create e). }
  rewrite Hrest. cbn [live_along].
  destruct e; cbn [is_create]; (constructor; [lia|]);
    (eapply Forall_impl; [apply IH|]); cbn beta; intros k Hk; lia.
Qed.

Lemma main_grows menv wd : grows 1 wd (main menv wd).
Proof.
  unfold main.
  set (booted := add_event (SignalInstalled "SIGTERM")
                   (add_event (SignalInstalled "SIGINT") wd)).
  assert (Hboot : grows 0 wd booted).
  { change 0%nat with (0 + 0)%nat.
    eapply grows_trans; now apply grows_add_event. }
  pose proof (init_world (init_env menv) "yolov8x.pt" (3 # 10) false booted) as Hw.
  rewrite andb_false_r in Hw.
  destruct (init (init_env menv) "yolov8x.pt" (3 # 10) false booted) as [[d|e] wd'];
    simpl in Hw; subst wd'.
  - pose proof (start_detection_makes_one MainThread (start_env menv)
                  (d, add_event (Print Banner) booted)) as Hs.
    destruct (start_detection MainThread (start_env menv)
                (d, add_event (Print Banner) booted)) as [[[]|e] [d' wd']]; simpl in Hs.
    + apply (grows_trans 0 1 _ booted); [exact Hboot|].
      apply (grows_trans 0 1 _ (add_event (Print Banner) booted));
        [now apply grows_add_event|exact Hs].
    + apply (grows_trans 0 1 _ booted); [exact Hboot|].
      apply (grows_trans 0 1 _ (add_event (Print Banner) booted));
        [now apply grows_add_event|].
      apply (grows_trans 1 0 _ wd'); [exact Hs|].
      apply (grows_trans 0 0 _ (add_event (Print (StartupFailed (str_exn e))) wd'));
        now apply grows_add_event.
  - apply (grows_trans 0 1 _ booted); [exact Hboot|].
    apply (grows_trans 0 1 _ (add_event (Print (StartupFailed (str_exn e))) booted));
      now apply grows_add_event.
Qed.

(** In a run of the program at most one window is ever created: [main]
    creates at most one, and neither the worker's loop nor
    [stop_detection] (the callbacks, the signal handler) creates any.  So
    from a toolkit without windows at most one exists after every event. *)
Lemma program_has_at_most_one_window menv lenv script caller finished wd :
  tk_windows wd = ∅ ->
  (exists new,
     events (main menv wd) = events wd ++ new /\
     Forall (fun k => (k <= 1)%nat) (live_along 0 new) /\
     (size (tk_windows (main menv wd)) <= 1)%nat) /\
  makes_windows 0 (process_screen lenv script) /\
  makes_windows 0 (stop_detection caller finished).
Proof.
  intros Hempty. split_and!.
  - destruct (main_grows menv wd) as (new & E & C & S). exists new.
    rewrite Hempty, map_size_empty in S. split_and!; [done| |lia].
    eapply Forall_impl; [apply live_along_bound|]. simpl. intros k Hk. lia.
  - apply process_screen_makes_no_window.
  - apply stop_detection_makes_no_window.
Qed.

(** ** Runs on concrete inputs *)

Example format_2f_examples :
  format_2f (87 # 100) = "0.87" /\
  format_2f (14596178 # 16777216) = "0.87" /\
  format_2f (1 # 8) = "0.12" /\
  format_2f (3 # 8) = "0.38" /\
  format_2f (1 # 1) = "1.00" /\
  format_2f (999 # 1000) = "1.00".
Proof. repeat split; reflexivity. Qed.

Example create_overlay_window_first_run :
  result_of first_run = Returned tt /\
  overlay_window (detector_of first_run) = Some 0%nat /\
  canvas (detector_of first_run) = Some 0%nat /\
  events (world_of first_run) = [TkCreate 0] /\
  (w_options <$> tk_windows (world_of first_run) !! 0%nat)
    = Some [("title", "Person Detection Overlay"); ("geometry", "1920x1080+0+0");
            ("overrideredirect", "True"); ("-topmost", "True");
            ("-transparentcolor", "white"); ("WM_DELETE_WINDOW", "stop_detection");
            ("<Escape>", "stop_detection")].
Proof. repeat split; reflexivity. Qed.

Example create_overlay_window_failed_run :
  result_of failed_run = Returned tt /\
  overlay_window (detector_of failed_run) = None /\
  events (world_of failed_run)
    = [TkCreate 0; Print (OverlayError "bad attribute -transparentcolor")] /\
  is_Some (tk_windows (world_of failed_run) !! 0%nat).
Proof. repeat split; try reflexivity. vm_compute. eauto. Qed.

Example process_screen_three_passes :
  result_of three_passes = Returned StillRunning /\
  frame_count (detector_of three_passes) = 3 /\
  running (detector_of three_passes) = true /\
  events (world_of three_passes)
    = [TkCreate 0; ThreadStart; TkUpdate 0; TkUpdate 0; Sleep (1 # 10); TkUpdate 0] /\
  (visible <$> (tk_windows (world_of three_passes) !! 0%nat ≫= w_canvas))
    = Some [Rectangle 10 10 50 90 "red" None 3;
            Rectangle 8 (-15) 130 5 "red" (Some "white") 1;
            Text 10 0 "Person: 0.87" "red" "sw" ("Arial", 14, "bold")].
Proof. repeat split; reflexivity. Qed.

(** * Further properties *)

(** ** More on the capture loop *)

Lemma while_running_returns device script : returns (while_running device script).
Proof.
  induction script as [|env script IH]; intros [d wd]; simpl.
  - now eexists _, _.
  - destruct (controller_stopped env); simpl when.
    + rewrite bind_assign, bind_self. simpl. now eexists _, _.
    + rewrite bind_ret, bind_self. destruct (running d); [|now eexists _, _].
      pose proof (iteration_returns device env (d, wd)) as H. unfold result_of in H.
      destruct (iteration device env (d, wd)) as [r st] eqn:Hrun. simpl in H. subst r.
      rewrite (bind_returned _ _ _ _ _ Hrun). apply IH.
Qed.

(** X1.  [process_screen] never raises: a failure of the set-up is answered by
    leaving, a failure inside a pass by the handler of the pass. *)
Theorem process_screen_returns lenv script st :
  exists status st', process_screen lenv script st = (Returned status, st').
Proof.
  unfold process_screen. destruct st as [d wd].
  unfold try_except.
  match goal with |- context [match ?b (d, wd) with _ => _ end] =>
    destruct (b (d, wd)) as [[status|e] [d' wd']] eqn:Hbody end.
  - now eexists _, _.
  - simpl. rewrite bind_self. destruct (verbose d'); simpl; now eexists _, _.
Qed.

(** X2.  When the screen capture cannot be set up ([mss.mss()] fails, or
    there is no [monitors[1]]), no pass runs. *)
Theorem process_screen_setup_failure lenv script d wd :
  is_Some (mss_fault lenv) \/ (length (monitors lenv) < 2)%nat ->
  exists e,
    process_screen lenv script (d, wd)
    = (Returned LoopExited,
       (d, if verbose d then add_event (Print (CaptureError (str_exn e))) wd else wd)) /\
    (mss_fault lenv = Some e \/
     mss_fault lenv = None /\ e = IndexError "list index out of range").
Proof.
  intros Hfail. unfold process_screen.
  destruct (mss_fault lenv) as [e|] eqn:Hmss.
  - exists e. split; [|now left].
    rewrite (try_caught _ _ _ _ e (d, wd)); [|reflexivity|reflexivity].
    rewrite bind_self. now destruct (verbose d).
  - destruct Hfail as [[e He]|Hlen]; [done|].
    exists (IndexError "list index out of range"). split; [|now right].
    assert (Hnth : nth_error (monitors lenv) 1 = None) by (apply nth_error_None; lia).
    rewrite (try_caught _ _ _ _ (IndexError "list index out of range") (d, wd));
      [|simpl external; rewrite bind_ret, Hnth; reflexivity|reflexivity].
    rewrite bind_self. now destruct (verbose d).
Qed.

Lemma process_screen_setup_failure_witness :
  exists e,
    process_screen (mkLoopEnv None [(0, 0, 1920, 1080)] 11 false) [good_capture]
      (sample_detector, sample_world)
    = (Returned LoopExited,
       (sample_detector,
        if verbose sample_detector
        then add_event (Print (CaptureError (str_exn e))) sample_world
        else sample_world)) /\
    (mss_fault (mkLoopEnv None [(0, 0, 1920, 1080)] 11 false) = Some e \/
     mss_fault (mkLoopEnv None [(0, 0, 1920, 1080)] 11 false) = None /\
     e = IndexError "list index out of range").
Proof.
  apply (process_screen_setup_failure (mkLoopEnv None [(0, 0, 1920, 1080)] 11 false)
           [good_capture] sample_detector sample_world).
  right. simpl. lia.
Defined.

(** X3.  As long as the flag stays set, every pass of the script runs and
    advances the frame counter, whatever fails inside the passes. *)
Theorem while_running_counts_every_pass device script : forall d wd,
  running d = true -> undisturbed script ->
  let after := while_running device script (d, wd) in
  result_of after = Returned StillRunning /\
  running (detector_of after) = true /\
  frame_count (detector_of after) = frame_count d + Z.of_nat (length script).
Proof.
  induction script as [|env script IH]; intros d wd Hr Hu; cbn zeta.
  - unfold result_of, detector_of. simpl. split_and!; [done|done|lia].
  - inversion Hu as [|? ? Henv Hrest]; subst.
    rewrite while_running_step by done.
    destruct (iteration_counts device env d wd) as [Hf Hr'].
    unfold detector_of in *.
    destruct (iteration device env (d, wd)) as [r [d1 wd1]]. cbn [fst snd] in *.
    destruct (IH d1 wd1) as (H1 & H2 & H3); [congruence|done|].
    unfold result_of, detector_of in *. split_and!; [done|done|].
    rewrite H3, Hf. simpl length. lia.
Qed.

Lemma while_running_counts_every_pass_witness :
  let after := while_running "cpu" [good_capture; failing_capture; good_capture]
                 (sample_detector, sample_world) in
  result_of after = Returned StillRunning /\
  running (detector_of after) = true /\
  frame_count (detector_of after) = 3.
Proof.
  apply (while_running_counts_every_pass "cpu"
           [good_capture; failing_capture; good_capture] sample_detector sample_world).
  - reflexivity.
  - repeat constructor.
Defined.

(** X4.  The flag is tested once before each pass: when the controller has
    cleared it, the loop leaves without running that pass or any later one. *)
Theorem while_running_stops_at_cleared_flag device pre env rest : forall d wd,
  running d = true -> undisturbed pre -> controller_stopped env = true ->
  let before := while_running device pre (d, wd) in
  while_running device (pre ++ env :: rest) (d, wd)
  = (Returned LoopExited,
     (set_running false (detector_of before), world_of before)).
Proof.
  induction pre as [|env0 pre IH]; intros d wd Hr Hu Hstop; cbn zeta.
  - simpl. rewrite Hstop. simpl when. now rewrite bind_assign, bind_self.
  - inversion Hu as [|? ? Henv Hrest]; subst.
    change ((env0 :: pre) ++ env :: rest) with (env0 :: (pre ++ env :: rest)).
    rewrite !while_running_step by done.
    destruct (iteration_counts device env0 d wd) as [_ Hr'].
    unfold detector_of in Hr'.
    destruct (iteration device env0 (d, wd)) as [r [d1 wd1]]. cbn [fst snd] in *.
    apply IH; [congruence|done|done].
Qed.

Lemma while_running_stops_at_cleared_flag_witness :
  let before := while_running "cpu" [good_capture] (sample_detector, sample_world) in
  while_running "cpu" ([good_capture] ++ stop_request :: [good_capture])
    (sample_detector, sample_world)
  = (Returned LoopExited,
     (set_running false (detector_of before), world_of before)).
Proof.
  apply (while_running_stops_at_cleared_flag "cpu" [good_capture] stop_request
           [good_capture] sample_detector sample_world).
  - reflexivity.
  - repeat constructor.
  - reflexivity.
Defined.

(** X5.  With a stride above one, a pass whose frame number is not a multiple
    of the stride only counts the frame and sleeps 10 ms: nothing is
    captured, nothing is drawn. *)
Theorem iteration_skips_frame device env d wd :
  frame_skip d <> 0 -> (frame_count d + 1) mod frame_skip d <> 0 ->
  iteration device env (d, wd)
  = (Returned tt,
     (set_frame_count (frame_count d + 1) d, add_event (Sleep (1 # 100)) wd)).
Proof.
  intros Hskip Hmod. unfold iteration. apply try_returned. unfold body.
  rewrite bind_self, bind_assign, bind_self.
  cbn [frame_skip frame_count set_frame_count].
  destruct (Z.eqb_spec (frame_skip d) 0) as [|_]; [done|].
  destruct (Z.eqb_spec ((frame_count d + 1) mod frame_skip d) 0) as [|_]; [done|].
  reflexivity.
Qed.

Lemma iteration_skips_frame_witness :
  iteration "cpu" good_capture (every_other_frame, sample_world)
  = (Returned tt,
     (set_frame_count 1 every_other_frame, add_event (Sleep (1 # 100)) sample_world)).
Proof.
  apply (iteration_skips_frame "cpu" good_capture every_other_frame sample_world);
    [discriminate|discriminate].
Defined.

(** When the body raises, it has not touched the clock of the last output,
    nor the verbosity. *)
Lemma body_raise_keeps_clock device env d wd e :
  result_of (body device env (d, wd)) = Raised e ->
  last_output_time (detector_of (body device env (d, wd))) = last_output_time d /\
  verbose (detector_of (body device env (d, wd))) = verbose d.
Proof.
  unfold body, result_of, detector_of.
  rewrite bind_self, bind_assign, bind_self.
  cbn [frame_skip frame_count set_frame_count].
  destruct (frame_skip d =? 0); [done|].
  destruct (negb _); [done|].
  destruct (grab env) as [shot|e0]; [|done]. simpl external_value. rewrite bind_ret.
  destruct (np_array_fault env); [done|]. simpl external. rewrite bind_ret.
  destruct (cvtColor_fault env); [done|]. simpl external. rewrite bind_ret, bind_self.
  destruct (inference_fault env); [done|]. simpl external. rewrite bind_ret.
  set (dets := collect _).
  pose proof (update_overlay_keeps last_output_time dets ltac:(done)
                (set_frame_count (frame_count d + 1) d, wd)) as Hclock.
  pose proof (update_overlay_keeps verbose dets ltac:(done)
                (set_frame_count (frame_count d + 1) d, wd)) as Hverb.
  destruct (update_overlay dets _) as [[[]|e0] [d1 wd1]] eqn:Hupd; cbn [fst snd] in *.
  - rewrite (bind_returned _ _ _ _ _ Hupd).
    match goal with |- context [?tail (d1, wd1)] =>
      assert (Htail : exists st', tail (d1, wd1) = (Returned tt, st')) end.
    { rewrite bind_self.
      assert (H : returns
                (when (verbose d1 &&
                       Qle_bool (output_interval d1) (Qminus (now env) (last_output_time d1)))
                   (emit (Print (Status (frame_count d1) (length dets))) ;;
                    assign (set_last_output_time (now env))) ;;
                 d2 <- self ;; when (frame_count d2 mod 30 =? 0) (emit GcCollect))).
      { apply returns_bind.
        - apply returns_when, returns_bind; [apply returns_emit|].
          intros _. apply returns_assign.
        - intros _ [d2 wd2]. rewrite bind_self. apply returns_when, returns_emit. }
      destruct (H (d1, wd1)) as ([] & st' & Hrun). now exists st'. }
    destruct Htail as [st' ->]. done.
  - rewrite (bind_raised _ _ _ _ _ Hupd). intros _. now split.
Qed.

(** X6.  The error log is rate-limited: when a failed pass has logged its
    error, a pass failing less than a second later logs nothing; it only
    sleeps. *)
Theorem error_log_rate_limited device env env' d wd e e' :
  result_of (body device env (d, wd)) = Raised e ->
  verbose d = true ->
  Qle_bool 1 (Qminus (now env) (last_output_time d)) = true ->
  let failed := iteration device env (d, wd) in
  result_of (body device env' (snd failed)) = Raised e' ->
  (Qminus (now env') (now env) < 1)%Q ->
  events (world_of failed)
    = events (world_of (body device env (d, wd)))
      ++ [Print (ProcessingError (substring 0 100 (str_exn e) +:+ "..."));
          Sleep (1 # 10)] /\
  events (world_of (iteration device env' (snd failed)))
    = events (world_of (body device env' (snd failed))) ++ [Sleep (1 # 10)].
Proof.
  intros Hraise Hv Hold. cbn zeta.
  destruct (body_raise_keeps_clock device env d wd e Hraise) as [Hclock Hverb].
  pose proof (iteration_handles device env d wd e Hraise) as Hlog.
  unfold error_log in Hlog. rewrite Hclock, Hverb, Hv, Hold in Hlog. simpl in Hlog.
  assert (Hafter : last_output_time (detector_of (iteration device env (d, wd))) = now env
                   /\ verbose (detector_of (iteration device env (d, wd))) = true).
  { unfold iteration, try_except, detector_of, result_of in *.
    destruct (body device env (d, wd)) as [[[]|e0] [d1 wd1]]; [done|].
    cbn [fst snd] in *. rewrite bind_self, Hclock, Hverb, Hv, Hold.
    unfold is_Exception, when, bind, emit, act, assign. simpl. split; [done|congruence]. }
  destruct (iteration device env (d, wd)) as [r [d1 wd1]].
  unfold detector_of, world_of in *. cbn [fst snd] in *.
  destruct Hafter as [Hclock1 Hverb1].
  intros Hraise' Hsoon. split; [exact Hlog|].
  destruct (body_raise_keeps_clock device env' d1 wd1 e' Hraise') as [Hclock' Hverb'].
  pose proof (iteration_handles device env' d1 wd1 e' Hraise') as Hlog'.
  unfold error_log, detector_of, world_of in *.
  rewrite Hclock', Hverb', Hclock1, Hverb1 in Hlog'.
  assert (Hno : Qle_bool 1 (Qminus (now env') (now env)) = false).
  { destruct (Qle_bool 1 (Qminus (now env') (now env))) eqn:Hle; [|done].
    apply Qle_bool_iff in Hle. exfalso. eapply Qlt_not_le; eassumption. }
  rewrite Hno in Hlog'. exact Hlog'.
Qed.

Lemma error_log_rate_limited_witness :
  let failed := iteration "cpu" failing_capture (talkative, sample_world) in
  events (world_of failed)
    = events sample_world
      ++ [Print (ProcessingError "XGetImage() failed..."); Sleep (1 # 10)] /\
  events (world_of (iteration "cpu" failing_again (snd failed)))
    = events (world_of failed) ++ [Sleep (1 # 10)].
Proof.
  destruct (error_log_rate_limited "cpu" failing_capture failing_again talkative
              sample_world (LibraryError "XGetImage() failed")
              (LibraryError "XGetImage() failed")
              eq_refl eq_refl eq_refl eq_refl eq_refl) as [H1 H2].
  split; [exact H1|exact H2].
Defined.

Lemma iteration_division_by_zero device env d wd :
  frame_skip d = 0 ->
  exists d' new,
    iteration device env (d, wd)
    = (Returned tt, (d', mkWorld (tk_windows wd) (tk_next wd) (tk_doom wd)
                           (worker_alive wd) (events wd ++ new))) /\
    frame_skip d' = 0 /\ running d' = running d /\
    frame_count d' = frame_count d + 1 /\
    forallb is_error_trace new = true.
Proof.
  intros Hzero. unfold iteration.
  rewrite (try_caught _ _ _ _ ZeroDivisionError
             (set_frame_count (frame_count d + 1) d, wd)); [|..|reflexivity].
  2: { unfold body. rewrite bind_self, bind_assign, bind_self.
       cbn [frame_skip set_frame_count]. now rewrite Hzero. }
  rewrite bind_self. cbn [verbose last_output_time set_frame_count].
  destruct wd as [m nx dm al ev].
  destruct (verbose d && _); simpl when.
  - eexists _, [_; _]. split.
    + unfold bind, emit, act, assign, add_event. simpl.
      now rewrite <- List.app_assoc.
    + simpl. now split_and!.
  - eexists _, [_]. split; [reflexivity|]. simpl. now split_and!.
Qed.

(** X7.  With a stride of zero every pass ends in [ZeroDivisionError], which
    the handler absorbs: the loop keeps counting and sleeping, and never
    captures a frame nor touches the toolkit. *)
Theorem while_running_zero_stride device script : forall d wd,
  frame_skip d = 0 -> running d = true -> undisturbed script ->
  exists d' new,
    while_running device script (d, wd)
    = (Returned StillRunning,
       (d', mkWorld (tk_windows wd) (tk_next wd) (tk_doom wd) (worker_alive wd)
              (events wd ++ new))) /\
    frame_count d' = frame_count d + Z.of_nat (length script) /\
    forallb is_error_trace new = true.
Proof.
  induction script as [|env script IH]; intros d wd Hzero Hr Hu.
  - exists d, []. simpl. rewrite List.app_nil_r. destruct wd. split_and!; [done|lia|done].
  - inversion Hu as [|? ? Henv Hrest]; subst.
    rewrite while_running_step by done.
    destruct (iteration_division_by_zero device env d wd Hzero)
      as (d1 & new1 & -> & Hz1 & Hr1 & Hf1 & Hn1). cbn [snd].
    destruct (IH d1 (mkWorld (tk_windows wd) (tk_next wd) (tk_doom wd) (worker_alive wd)
                       (events wd ++ new1)) Hz1 ltac:(congruence) Hrest)
      as (d2 & new2 & -> & Hf2 & Hn2).
    exists d2, (new1 ++ new2). cbn [tk_windows tk_next tk_doom worker_alive events].
    split_and!.
    + now rewrite <- List.app_assoc.
    + rewrite Hf2, Hf1. simpl length. lia.
    + rewrite forallb_app. now rewrite Hn1, Hn2.
Qed.

Lemma while_running_zero_stride_witness :
  exists d' new,
    while_running "cpu" [good_capture; good_capture] (zero_stride, sample_world)
    = (Returned StillRunning,
       (d', mkWorld (tk_windows sample_world) (tk_next sample_world)
              (tk_doom sample_world) (worker_alive sample_world)
              (events sample_world ++ new))) /\
    frame_count d' = 2 /\
    forallb is_error_trace new = true.
Proof.
  apply (while_running_zero_stride "cpu" [good_capture; good_capture]
           zero_stride sample_world); [reflexivity|reflexivity|repeat constructor].
Defined.

Lemma iteration_no_lifecycle_call device env :
  stable lifecycle_calls (iteration device env).
Proof.
  unfold lifecycle_calls, iteration, body, update_overlay, draw, tk_update.
  repeat first [stabilize_step | apply stable_external_value].
Qed.

(** X8.  The worker only draws: whatever happens, [process_screen] never
    creates, destroys or quits a window and never enters the event loop. *)
Theorem process_screen_no_lifecycle_call lenv script st :
  lifecycle_calls (world_of (process_screen lenv script st)) = lifecycle_calls (snd st).
Proof.
  assert (Hloop : forall device, stable lifecycle_calls (while_running device script)).
  { intros device. induction script as [|env script IH]; simpl.
    - apply stable_ret.
    - apply stable_bind; [apply stable_when, stable_assign|]. intros _.
      apply stable_bind; [apply stable_self|]. intros d.
      destruct (running d); [|apply stable_ret].
      apply stable_bind; [apply iteration_no_lifecycle_call|]. intros _. apply IH. }
  assert (H : stable lifecycle_calls (process_screen lenv script)).
  { unfold process_screen. apply stable_try.
    - apply stable_bind; [apply stable_external|]. intros _.
      apply stable_bind; [destruct (nth_error _ _); [apply stable_ret|apply stable_raise]|].
      intros _. apply stable_bind; [apply stable_assign|]. intros _.
      apply stable_bind; [apply stable_self|]. intros d.
      apply stable_bind; [|intros _; apply Hloop].
      unfold lifecycle_calls. stabilize.
    - intros e. unfold lifecycle_calls. stabilize. }
  apply H.
Qed.

(** ** A pass that draws *)

(** X9.  A pass in which nothing fails, on a live window: the frame is
    counted, the canvas is repainted with the glyphs of the detections of
    this frame, the window is updated once; the status line is printed, and
    the clock of the last output reset, exactly when [verbose] is set and
    the output interval has elapsed; the collector runs exactly on every
    30th frame. *)
Theorem iteration_full_pass device env d wd w win cv shot :
  tk_doom wd = None ->
  overlay_window d = Some w -> canvas d = Some w ->
  tk_windows wd !! w = Some win -> w_canvas win = Some cv ->
  frame_skip d <> 0 -> (frame_count d + 1) mod frame_skip d = 0 ->
  grab env = Returned shot -> np_array_fault env = None ->
  cvtColor_fault env = None -> inference_fault env = None ->
  let dets := collect (predict (model d) (map (map drop_alpha) shot)
                         (confidence_threshold d) [0%nat]) in
  let report := verbose d &&
                Qle_bool (output_interval d) (Qminus (now env) (last_output_time d)) in
  iteration device env (d, wd)
  = (Returned tt,
     ((if report then set_last_output_time (now env) else id)
        (set_frame_count (frame_count d + 1) d),
      (if (frame_count d + 1) mod 30 =? 0 then add_event GcCollect else id)
        ((if report
          then add_event (Print (Status (frame_count d + 1) (length dets)))
          else id)
           (add_event (TkUpdate w) (with_canvas w win (repaint dets cv) wd))))).
Proof.
  intros Hd How Hc Hw Hcv Hskip Hmod Hg Hn Hn' Hi dets report.
  unfold iteration. apply try_returned. unfold body.
  rewrite bind_self, bind_assign, bind_self. cbn [frame_skip frame_count set_frame_count].
  destruct (Z.eqb_spec (frame_skip d) 0) as [|_]; [done|].
  rewrite Hmod. change (negb (0 =? 0)) with false. cbv iota.
  rewrite Hg, Hn, Hn', Hi. simpl external_value. simpl external.
  rewrite !bind_ret, bind_self, bind_ret.
  cbn [model confidence_threshold set_frame_count]. fold dets.
  set (d1 := set_frame_count (frame_count d + 1) d).
  rewrite (bind_returned _ _ _ tt
             (d1, add_event (TkUpdate w) (with_canvas w win (repaint dets cv) wd))).
  2:{ rewrite (update_overlay_quiet dets w w win cv d1 wd) by done.
      cbn zeta. now rewrite with_canvas_lookup. }
  rewrite bind_self. cbn [verbose output_interval last_output_time frame_count d1
                           set_frame_count].
  fold report. destruct report; simpl when.
  - rewrite (bind_returned _ _ _ tt
               (set_last_output_time (now env) d1,
                add_event (Print (Status (frame_count d + 1) (length dets)))
                  (add_event (TkUpdate w) (with_canvas w win (repaint dets cv) wd))))
      by reflexivity.
    rewrite bind_self. cbn [frame_count set_last_output_time d1 set_frame_count].
    now destruct (_ =? 0).
  - rewrite bind_ret, bind_self. cbn [frame_count d1 set_frame_count].
    now destruct (_ =? 0).
Qed.

Lemma iteration_full_pass_witness :
  let after := iteration "cpu" good_capture (thirtieth_frame, sample_world) in
  frame_count (detector_of after) = 30 /\
  last_output_time (detector_of after) = 13%Q /\
  events (world_of after)
  = events sample_world ++ [TkUpdate 0; Print (Status 30 1); GcCollect].
Proof.
  cbn zeta.
  rewrite (iteration_full_pass "cpu" good_capture thirtieth_frame sample_world 0%nat
             sample_window _ _ eq_refl eq_refl eq_refl eq_refl eq_refl
             ltac:(discriminate) eq_refl eq_refl eq_refl eq_refl eq_refl).
  repeat split; reflexivity.
Defined.

(** ** What [update_overlay] can do to the detector *)

Lemma toolkit_calls_seq d m m' :
  toolkit_calls_of d m -> toolkit_calls_of d m' -> toolkit_calls_of d (m ;; m').
Proof.
  intros Hm Hm' wd. destruct (Hm wd) as [wd1 [H|H]].
  - rewrite (bind_returned _ _ _ _ _ H). apply Hm'.
  - exists wd1. right. now apply bind_raised.
Qed.

Lemma toolkit_calls_canvas d c op :
  canvas d = Some c -> toolkit_calls_of d (on_canvas (fun c => canvas_on c op)).
Proof.
  intros Hc wd. rewrite (on_canvas_some _ _ _ _ Hc).
  unfold canvas_on. rewrite bind_act, bind_world.
  destruct (tk_windows (tick wd) !! c) as [win|]; [|eexists; right; reflexivity].
  destruct (w_canvas win); eexists; [left; reflexivity|right; reflexivity].
Qed.

Lemma toolkit_calls_draw d c det : canvas d = Some c -> toolkit_calls_of d (draw det).
Proof.
  intros Hc. destruct det as [[[[x1 y1] x2] y2] confidence]. unfold draw.
  repeat apply toolkit_calls_seq; now apply toolkit_calls_canvas with c.
Qed.

Lemma toolkit_calls_for_each d c dets :
  canvas d = Some c -> toolkit_calls_of d (for_each dets draw).
Proof.
  intros Hc. induction dets as [|det dets IH]; simpl.
  - intros wd. exists wd. now left.
  - apply toolkit_calls_seq; [now apply toolkit_calls_draw with c|exact IH].
Qed.

Lemma toolkit_calls_update d w :
  overlay_window d = Some w -> toolkit_calls_of d (on_window tk_update).
Proof.
  intros How wd. rewrite (on_window_some _ _ _ _ How).
  destruct (toolkit_call_seq (tk_on w id) (emit (TkUpdate w))
              (toolkit_call_tk_on w id) (toolkit_call_emit _) d wd) as [wd' [[[] H]|H]];
    exists wd'; [left|right]; exact H.
Qed.

(** X10.  Once the detector has a canvas (or has no window at all),
    [update_overlay] raises nothing, whatever another thread does to the
    window in the meantime, and the only thing it may change in the
    detector is the window reference, which it can only clear. *)
Theorem update_overlay_only_forgets dets d wd :
  is_Some (canvas d) \/ overlay_window d = None ->
  let after := update_overlay dets (d, wd) in
  result_of after = Returned tt /\
  (detector_of after = d \/ detector_of after = set_overlay_window None d).
Proof.
  intros Hcase. cbn zeta. unfold update_overlay, result_of, detector_of.
  rewrite bind_self. destruct (overlay_window d) as [w|] eqn:How; [|split; [done|now left]].
  destruct Hcase as [[c Hc]|]; [|done].
  assert (Hbody : toolkit_calls_of d
            (on_canvas (fun c => canvas_on c delete_all) ;;
             for_each dets draw ;; on_window tk_update)).
  { apply toolkit_calls_seq; [now apply toolkit_calls_canvas with c|].
    apply toolkit_calls_seq; [now apply toolkit_calls_for_each with c|].
    now apply toolkit_calls_update with w. }
  destruct (Hbody wd) as [wd' [H|H]].
  - rewrite (try_returned _ _ _ _ _ _ H). split; [done|now left].
  - rewrite (try_caught _ _ _ _ _ _ H) by done. split; [done|now right].
Qed.

Lemma update_overlay_only_forgets_witness :
  let after := update_overlay [(10, 10, 50, 90, 87 # 100)] (sample_detector, doomed_world) in
  result_of after = Returned tt /\
  (detector_of after = sample_detector \/
   detector_of after = set_overlay_window None sample_detector).
Proof.
  apply (update_overlay_only_forgets _ sample_detector doomed_world).
  left. by eexists.
Defined.

(** ** The window that [create_overlay_window] makes *)

Lemma tk_doom_without_old d wd : tk_doom (without_old d wd) = tk_doom wd.
Proof.
  unfold without_old. destruct (overlay_window d) as [old|]; [|done].
  now destruct (tk_windows wd !! old).
Qed.

Lemma tk_next_without_old d wd : tk_next (without_old d wd) = tk_next wd.
Proof.
  unfold without_old. destruct (overlay_window d) as [old|]; [|done].
  now destruct (tk_windows wd !! old).
Qed.

Lemma worker_alive_without_old d wd :
  worker_alive (without_old d wd) = worker_alive wd.
Proof.
  unfold without_old. destruct (overlay_window d) as [old|]; [|done].
  now destruct (tk_windows wd !! old).
Qed.

Lemma create_overlay_window_quiet d wd :
  tk_doom wd = None ->
  create_overlay_window None (d, wd)
  = (Returned tt,
     (set_canvas (Some (tk_next wd)) (set_overlay_window (Some (tk_next wd)) d),
      add_event (TkCreate (tk_next wd))
        (set_next (S (tk_next wd))
           (set_windows <[tk_next wd := overlay_of d]> (without_old d wd))))).
Proof.
  intros Hd. unfold create_overlay_window. rewrite bind_self.
  assert (Hold : match overlay_window d with
                 | Some old => try_except (tk_destroy old) is_TclError (fun _ => ret tt)
                 | None => ret tt
                 end (d, wd) = (Returned tt, (d, without_old d wd))).
  { unfold without_old. destruct (overlay_window d) as [old|]; [|done].
    destruct (tk_windows wd !! old) as [win|] eqn:Hw.
    - apply try_returned. now apply tk_destroy_live with win.
    - rewrite (try_caught _ _ _ _ dead_window (d, wd)); [done| |done].
      now apply tk_destroy_dead. }
  rewrite (bind_returned _ _ _ _ _ Hold).
  assert (Hd' : tk_doom (without_old d wd) = None) by now rewrite tk_doom_without_old.
  pose proof (tk_next_without_old d wd) as Hn.
  rewrite <- Hn. destruct (without_old d wd) as [m nx dm al ev]. simpl in Hd'. subst dm.
  destruct d. unfold overlay_of. exec. reflexivity.
Qed.

(** X11.  With nothing failing and no other thread at work, the creation
    yields a window of its own, configured as the overlay: borderless,
    topmost, white as the transparent colour, placed at the origin with
    the size of the screen, the close button and Escape bound to
    [stop_detection], and holding an empty white canvas of the size of the
    screen.  The detector refers to it as window and as canvas; the only
    other window touched is the one held before, destroyed first. *)
Theorem create_overlay_window_configures d wd :
  tk_doom wd = None ->
  let after := create_overlay_window None (d, wd) in
  let w := tk_next wd in
  result_of after = Returned tt /\
  overlay_window (detector_of after) = Some w /\
  canvas (detector_of after) = Some w /\
  tk_windows (world_of after) !! w = Some (overlay_of d) /\
  (forall v, v <> w -> overlay_window d <> Some v ->
     tk_windows (world_of after) !! v = tk_windows wd !! v) /\
  events (world_of after) = events (without_old d wd) ++ [TkCreate w].
Proof.
  intros Hd. cbn zeta. rewrite (create_overlay_window_quiet d wd Hd).
  unfold result_of, detector_of, world_of. cbn [fst snd].
  split_and!; try done.
  - simpl. apply lookup_insert_eq.
  - intros v Hv Hold. simpl. rewrite lookup_insert_ne by done.
    unfold without_old. destruct (overlay_window d) as [old|]; [|done].
    destruct (tk_windows wd !! old); [|done]. simpl.
    apply lookup_delete_ne. congruence.
Qed.

Lemma create_overlay_window_configures_witness :
  let after := create_overlay_window None (sample_detector, sample_world) in
  overlay_window (detector_of after) = Some 1%nat /\
  canvas (detector_of after) = Some 1%nat /\
  tk_windows (world_of after) !! 1%nat = Some (overlay_of sample_detector) /\
  events (world_of after) = events sample_world ++ [TkDestroy 0; TkCreate 1].
Proof.
  destruct (create_overlay_window_configures sample_detector sample_world eq_refl)
    as (_ & H1 & H2 & H3 & _ & H4).
  split_and!; [exact H1|exact H2|exact H3|].
  rewrite H4. reflexivity.
Defined.

(** ** Creation under interference *)

Lemma tick_lookup w win wd :
  tk_windows (tick wd) !! w = Some win -> tk_windows wd !! w = Some win.
Proof.
  unfold tick. destruct (tk_doom wd) as [[v [|k]]|]; try done.
  destruct (tk_windows wd !! v) eqn:Hv; simpl; [|done].
  intros H. destruct (decide (v = w)) as [->|Hne].
  - now rewrite lookup_delete_eq in H.
  - now rewrite lookup_delete_ne in H.
Qed.

Lemma tick_next wd : tk_next (tick wd) = tk_next wd.
Proof.
  unfold tick. destruct (tk_doom wd) as [[v [|k]]|]; try done.
  now destruct (tk_windows wd !! v).
Qed.

Lemma holding_tk_on {B} d w win op (k : unit -> M B) G :
  hoare (holding d w (op win)) (k tt) (if_returned G) ->
  hoare (holding d w win) (bind (tk_on w op) k) (if_returned G).
Proof.
  intros Hk [d' wd] [Hd Hw]. simpl in Hd, Hw. subst d'.
  unfold tk_on. rewrite bind_assoc, bind_act, bind_assoc, bind_world.
  destruct (tk_windows (tick wd) !! w) as [win'|] eqn:Hlive; [|done].
  apply tick_lookup in Hlive. assert (win' = win) as -> by congruence.
  rewrite bind_act. apply Hk. split; [done|]. simpl. apply lookup_insert_eq.
Qed.

Lemma holding_window_call {B} d w win op (k : unit -> M B) G :
  overlay_window d = Some w ->
  hoare (holding d w (op win)) (k tt) (if_returned G) ->
  hoare (holding d w win) (bind (on_window (fun w => tk_on w op)) k) (if_returned G).
Proof.
  intros How Hk [d' wd] [Hd Hw]. simpl in Hd. subst d'.
  unfold on_window. rewrite bind_assoc, bind_self, How.
  now apply (holding_tk_on d w win op k G Hk (d, wd)).
Qed.

Lemma holding_self {B} d w win (k : Detector -> M B) G :
  hoare (holding d w win) (k d) (if_returned G) ->
  hoare (holding d w win) (bind self k) (if_returned G).
Proof. intros Hk [d' wd] [Hd Hw]. simpl in Hd. subst d'. rewrite bind_self. now apply Hk. Qed.

Lemma holding_assign {B} f d w win (k : unit -> M B) G :
  hoare (holding (f d) w win) (k tt) (if_returned G) ->
  hoare (holding d w win) (bind (assign f) k) (if_returned G).
Proof. intros Hk [d' wd] [Hd Hw]. simpl in Hd. subst d'. rewrite bind_assign. now apply Hk. Qed.

Lemma holding_canvas_call {B} d w win width height bg (k : nat -> M B) G :
  overlay_window d = Some w ->
  hoare (holding d w (mkWin (w_options win) (Some (mkCanvas width height bg 1 []))))
    (k w) (if_returned G) ->
  hoare (holding d w win)
    (bind (on_window (fun w => tk_Canvas w width height bg)) k) (if_returned G).
Proof.
  intros How Hk [d' wd] [Hd Hw]. simpl in Hd. subst d'.
  unfold on_window, tk_Canvas. rewrite bind_assoc, bind_self, How, bind_assoc.
  apply (holding_tk_on d w win _ (fun _ => bind (ret w) k) G); [|done].
  intros st Hst. rewrite bind_ret. now apply Hk.
Qed.

Lemma holding_pack {B} d w o cv (k : unit -> M B) G :
  canvas d = Some w ->
  hoare (holding d w (mkWin o (Some cv))) (k tt) (if_returned G) ->
  hoare (holding d w (mkWin o (Some cv)))
    (bind (on_canvas (fun c => canvas_on c id)) k) (if_returned G).
Proof.
  intros Hc Hk [d' wd] [Hd Hw]. simpl in Hd, Hw. subst d'.
  unfold on_canvas, canvas_on. rewrite bind_assoc, bind_self, Hc.
  rewrite bind_assoc, bind_act, bind_assoc, bind_world.
  destruct (tk_windows (tick wd) !! w) as [win'|] eqn:Hlive; [|done].
  apply tick_lookup in Hlive. assert (win' = mkWin o (Some cv)) as -> by congruence.
  simpl. rewrite bind_act. apply Hk. split; [done|]. simpl. apply lookup_insert_eq.
Qed.

Lemma holding_window_last d w win op (G : store -> Prop) :
  overlay_window d = Some w ->
  (forall st, holding d w (op win) st -> G st) ->
  hoare (holding d w win) (on_window (fun w => tk_on w op)) (if_returned (A:=unit) G).
Proof.
  intros How HG [d' wd] [Hd Hw]. simpl in Hd, Hw. subst d'.
  rewrite (on_window_some _ _ _ _ How).
  unfold tk_on. rewrite bind_act, bind_world.
  destruct (tk_windows (tick wd) !! w) as [win'|] eqn:Hlive; [|done].
  apply tick_lookup in Hlive. assert (win' = win) as -> by congruence.
  apply HG. split; [done|]. simpl. apply lookup_insert_eq.
Qed.

(** X12.  Creation is all or nothing, whatever fails and whatever another
    thread destroys meanwhile: it returns normally, and afterwards either
    the detector holds no window, or nothing has failed and it holds, as
    window and as canvas, the window just made, alive and fully configured. *)
Theorem create_overlay_window_all_or_nothing fault d wd :
  let after := create_overlay_window fault (d, wd) in
  let w := tk_next wd in
  result_of after = Returned tt /\
  (overlay_window (detector_of after) = None \/
   (fault = None /\
    overlay_window (detector_of after) = Some w /\
    canvas (detector_of after) = Some w /\
    tk_windows (world_of after) !! w = Some (overlay_of d))).
Proof.
  cbn zeta. split.
  { destruct (create_overlay_window_returns fault (d, wd)) as ([] & st' & ->). done. }
  destruct fault as [[s e]|]; [left; apply create_overlay_window_fault_clears|].
  unfold create_overlay_window, detector_of, world_of. rewrite bind_self.
  set (old := match overlay_window d with
              | Some old => try_except (tk_destroy old) is_TclError (fun _ => ret tt)
              | None => ret tt
              end).
  assert (Hold : exists wd1, old (d, wd) = (Returned tt, (d, wd1)) /\ tk_next wd1 = tk_next wd).
  { unfold old. destruct (overlay_window d) as [o|]; [|now exists wd].
    unfold try_except, tk_destroy. rewrite bind_act, bind_world.
    destruct (tk_windows (tick wd) !! o).
    - rewrite bind_act. eexists. split; [reflexivity|]. simpl. apply tick_next.
    - simpl. eexists. split; [reflexivity|]. apply tick_next. }
  destruct Hold as (wd1 & Hold & Hnext). rewrite (bind_returned _ _ _ _ _ Hold).
  rewrite <- Hnext. set (w := tk_next wd1).
  set (G := fun st : store =>
              fst st = set_canvas (Some w) (set_overlay_window (Some w) d) /\
              tk_windows (snd st) !! w = Some (overlay_of d)).
  match goal with |- context [try_except ?b _ ?h] =>
    assert (Hbody : hoare (fun st => st = (d, wd1)) b (if_returned G));
    [|specialize (Hbody (d, wd1) eq_refl); unfold try_except;
      destruct (b (d, wd1)) as [[[]|e] [d2 wd2]]] end.
  - unfold step. intros st ->. unfold tk_Tk at 1.
    rewrite bind_assoc, bind_world, bind_assoc, bind_act, bind_assoc, bind_emit, bind_ret.
    fold w.
    match goal with |- if_returned G (fst (?m ?st)) _ =>
      assert (H : hoare (holding d w (mkWin [] None)) m (if_returned G));
      [|apply H; split; [done|simpl; apply lookup_insert_eq]] end.
    apply holding_assign.
    apply holding_window_call; [done|]. apply holding_self.
    apply holding_window_call; [done|].
    apply holding_window_call; [done|].
    apply holding_window_call; [done|].
    apply holding_window_call; [done|].
    apply holding_window_call; [done|]. apply holding_self.
    apply holding_canvas_call; [done|].
    apply holding_assign.
    apply holding_pack; [done|].
    apply holding_window_call; [done|].
    apply holding_window_last; [done|].
    intros st [Hd Hw]. split; [exact Hd|]. rewrite Hw. reflexivity.
  - right. destruct Hbody as [Hd Hw]. simpl in Hd, Hw. subst d2. split_and!; done.
  - left. simpl. apply create_handler_clears.
Qed.

(** ** The order of the teardown *)

(** X13.  On the main thread, with the window alive, [stop_detection] first
    waits for the worker (once, one second at most, and only if it was
    started and is alive), then quits the event loop, then destroys the
    window, then reports when verbose.  A worker that does not end in time
    does not hold the teardown up: it is left alive. *)
Theorem stop_detection_teardown_order finished d wd w win :
  tk_doom wd = None -> overlay_window d = Some w -> tk_windows wd !! w = Some win ->
  let after := stop_detection MainThread finished (d, wd) in
  events (world_of after)
  = events wd
    ++ (if process_thread d && worker_alive wd then [ThreadJoin 1] else [])
    ++ [TkQuit w; TkDestroy w]
    ++ (if verbose d then [Print Stopped] else []) /\
  worker_alive (world_of after)
  = worker_alive wd && negb (process_thread d && finished).
Proof.
  intros Hd How Hw. cbn zeta.
  rewrite (stop_detection_main_live finished d wd w win Hd How Hw).
  unfold world_of, announced, joined. cbn [fst snd].
  destruct wd as [m nx dm al ev]. cbn [worker_alive events].
  destruct (verbose d), (process_thread d), al, finished; simpl;
    rewrite <- ?List.app_assoc; split; reflexivity.
Qed.

Lemma stop_detection_teardown_order_witness :
  let after := stop_detection MainThread false (sample_detector, sample_world) in
  events (world_of after)
  = events sample_world ++ [ThreadJoin 1; TkQuit 0; TkDestroy 0] /\
  worker_alive (world_of after) = true.
Proof.
  exact (stop_detection_teardown_order false sample_detector sample_world 0%nat
           sample_window eq_refl eq_refl eq_refl).
Defined.

(** X14.  Called by the worker itself while it runs, [stop_detection] clears
    [running] and then fails in the join, with [RuntimeError]: a thread
    cannot join itself.  Nothing else has happened: the window and the
    reference to it are as before and nothing is reported. *)
Theorem stop_detection_from_worker finished d wd :
  process_thread d = true -> worker_alive wd = true ->
  stop_detection WorkerThread finished (d, wd)
  = (Raised (RuntimeError "cannot join current thread"), (set_running false d, wd)).
Proof.
  intros Ht Ha. unfold stop_detection.
  rewrite bind_assign, bind_self, bind_world.
  cbn [process_thread set_running]. rewrite Ht, Ha. reflexivity.
Qed.

Lemma stop_detection_from_worker_witness :
  stop_detection WorkerThread true (sample_detector, sample_world)
  = (Raised (RuntimeError "cannot join current thread"),
     (set_running false sample_detector, sample_world)).
Proof.
  apply (stop_detection_from_worker true sample_detector sample_world); reflexivity.
Defined.

(** X15.  A stop is honoured at the next test of the loop condition: after
    [stop_detection], from any thread but the worker, the loop ends without
    another pass, whatever the environment would have offered. *)
Theorem stop_detection_ends_loop caller finished device env rest d wd :
  caller <> WorkerThread ->
  let stopped := stop_detection caller finished (d, wd) in
  result_of stopped = Returned tt /\
  while_running device (env :: rest) (snd stopped) = (Returned LoopExited, snd stopped).
Proof.
  intros Hcaller. cbn zeta.
  destruct (stop_detection_returns caller finished d wd Hcaller) as [wd' ->].
  split; [done|]. cbn [snd]. simpl while_running.
  destruct (controller_stopped env); simpl when.
  - rewrite bind_assign, bind_self. reflexivity.
  - rewrite bind_ret, bind_self. reflexivity.
Qed.

Lemma stop_detection_ends_loop_witness :
  let stopped := stop_detection MainThread true (sample_detector, sample_world) in
  while_running "cpu" [good_capture; good_capture] (snd stopped)
  = (Returned LoopExited, snd stopped).
Proof.
  apply (stop_detection_ends_loop MainThread true "cpu" good_capture [good_capture]
           sample_detector sample_world).
  discriminate.
Defined.

(** ** Starting *)

(** The body of [start_detection] as far as the thread object. *)
Ltac prepare Hd :=
  rewrite bind_assign;
  rewrite (bind_returned _ _ _ _ _ (create_overlay_window_quiet _ _ Hd));
  rewrite bind_assign, bind_act.

Lemma tk_mainloop_live w win d wd :
  tk_doom wd = None -> tk_windows wd !! w = Some win ->
  tk_mainloop w (d, wd) = (Returned tt, (d, add_event (TkMainloop w) wd)).
Proof.
  intros Hd Hw. unfold tk_mainloop.
  erewrite bind_returned by (rewrite tk_on_quiet, Hw by done; reflexivity).
  unfold emit, act, id. simpl. do 3 f_equal.
  destruct wd as [m n dm a ev]. unfold set_windows. simpl in *.
  now rewrite (insert_id _ _ _ Hw).
Qed.

(** [start_detection] when nothing fails and no other thread interferes. *)
Lemma start_detection_quiet caller env d wd :
  tk_doom wd = None ->
  create_fault env = None -> thread_fault env = None -> mainloop_fault env = None ->
  start_detection caller env (d, wd)
  = (Returned tt,
     (set_process_thread true
        (set_canvas (Some (tk_next wd))
           (set_overlay_window (Some (tk_next wd)) (set_running true d))),
      add_event (TkMainloop (tk_next wd))
        (add_event ThreadStart
           (set_worker_alive true
              (add_event (TkCreate (tk_next wd))
                 (set_next (S (tk_next wd))
                    (set_windows <[tk_next wd := overlay_of d]> (without_old d wd)))))))).
Proof.
  intros Hd Hc Ht Hm. unfold start_detection. rewrite Hc, Ht, Hm.
  apply try_returned. prepare Hd. simpl external.
  rewrite bind_ret, bind_act, bind_emit, bind_self.
  cbn [overlay_window set_process_thread set_canvas set_overlay_window].
  erewrite bind_returned; [reflexivity|].
  erewrite on_window_some by reflexivity.
  apply tk_mainloop_live with (overlay_of d);
    [simpl; now rewrite tk_doom_without_old|simpl; apply lookup_insert_eq].
Qed.

(** X16.  With nothing failing, [start_detection] sets [running], makes
    the overlay, starts the worker and enters the event loop of the window
    just made, in this order: the worker is started with [running] set and
    the window in place, and the event loop is entered last. *)
Theorem start_detection_order caller env d wd :
  tk_doom wd = None ->
  create_fault env = None -> thread_fault env = None -> mainloop_fault env = None ->
  let after := start_detection caller env (d, wd) in
  let w := tk_next wd in
  result_of after = Returned tt /\
  running (detector_of after) = true /\
  overlay_window (detector_of after) = Some w /\
  process_thread (detector_of after) = true /\
  worker_alive (world_of after) = true /\
  tk_windows (world_of after) !! w = Some (overlay_of d) /\
  events (world_of after)
  = events (without_old d wd) ++ [TkCreate w; ThreadStart; TkMainloop w].
Proof.
  intros Hd Hc Ht Hm. cbn zeta. rewrite (start_detection_quiet caller env d wd Hd Hc Ht Hm).
  unfold result_of, detector_of, world_of. cbn [fst snd].
  split_and!; try done.
  - simpl. apply lookup_insert_eq.
  - simpl. rewrite <- !List.app_assoc. reflexivity.
Qed.

Lemma start_detection_order_witness :
  let after := start_detection MainThread plain_start
                 (mkDetector false sample_model (3 # 10) 1920 1080 false None None
                    1 0 0 5 false, fresh_world) in
  result_of after = Returned tt /\
  running (detector_of after) = true /\
  worker_alive (world_of after) = true /\
  events (world_of after) = [TkCreate 0; ThreadStart; TkMainloop 0].
Proof.
  destruct (start_detection_order MainThread plain_start
              (mkDetector false sample_model (3 # 10) 1920 1080 false None None
                 1 0 0 5 false) fresh_world eq_refl eq_refl eq_refl eq_refl)
    as (H1 & H2 & _ & _ & H3 & _ & H4).
  split_and!; [exact H1|exact H2|exact H3|exact H4].
Defined.

(** X17.  When the worker cannot be started, or an error escapes the event
    loop, [start_detection] itself stops the detection and returns
    normally: the error is reported when verbose, the window just made is
    quit and destroyed, [running] is cleared and the reference dropped.
    The worker is waited for exactly when it was started.  When it is the
    start that failed, no worker was started, the event loop was never
    entered and nothing is joined, not even a worker of an earlier start
    that is still alive: the thread object held is the new one, which
    never ran. *)
Theorem start_detection_failure_stops env d wd e :
  tk_doom wd = None -> create_fault env = None ->
  thread_fault env = Some e \/ (thread_fault env = None /\ mainloop_fault env = Some e) ->
  let after := start_detection MainThread env (d, wd) in
  let w := tk_next wd in
  let started := bool_decide (thread_fault env = None) in
  result_of after = Returned tt /\
  running (detector_of after) = false /\
  overlay_window (detector_of after) = None /\
  tk_windows (world_of after) !! w = None /\
  worker_alive (world_of after) = started && negb (join_finished env) /\
  events (world_of after)
  = events (without_old d wd) ++ [TkCreate w]
    ++ (if started then [ThreadStart; TkMainloop w] else [])
    ++ (if verbose d then [Print (StartError (str_exn e))] else [])
    ++ (if started then [ThreadJoin 1] else [])
    ++ [TkQuit w; TkDestroy w]
    ++ (if verbose d then [Print Stopped] else []).
Proof.
  intros Hd Hc Hcase. cbn zeta. unfold start_detection. rewrite Hc.
  set (d1 := set_process_thread true
               (set_canvas (Some (tk_next wd))
                  (set_overlay_window (Some (tk_next wd)) (set_running true d)))).
  set (wd1 := set_worker_alive false
                (add_event (TkCreate (tk_next wd))
                   (set_next (S (tk_next wd))
                      (set_windows <[tk_next wd := overlay_of d]> (without_old d wd))))).
  assert (Hd1 : tk_doom wd1 = None) by (simpl; now rewrite tk_doom_without_old).
  assert (Hw1 : tk_windows wd1 !! tk_next wd = Some (overlay_of d))
    by (simpl; apply lookup_insert_eq).
  assert (Hstop : forall wd2,
            tk_doom wd2 = None -> tk_windows wd2 !! tk_next wd = Some (overlay_of d) ->
            (d0 <- self ;;
             when (verbose d0) (emit (Print (StartError (str_exn e)))) ;;
             stop_detection MainThread (join_finished env)) (d1, wd2)
            = (Returned tt,
               (set_overlay_window None (set_running false d1),
                let wd3 := if verbose d then add_event (Print (StartError (str_exn e))) wd2
                           else wd2 in
                announced d1
                  (add_event (TkDestroy (tk_next wd))
                     (set_windows (delete (tk_next wd))
                        (add_event (TkQuit (tk_next wd))
                           (joined (join_finished env) d1 wd3))))))).
  { intros wd2 Hd2 Hw2. rewrite bind_self. change (verbose d1) with (verbose d).
    destruct (verbose d); simpl when.
    - rewrite bind_emit.
      now apply stop_detection_main_live with (overlay_of d).
    - rewrite bind_ret. now apply stop_detection_main_live with (overlay_of d). }
  destruct Hcase as [Ht|[Ht Hm]]; rewrite Ht.
  - rewrite (try_caught _ _ _ _ e (d1, wd1)); [|by prepare Hd|done].
    rewrite (Hstop wd1 Hd1 Hw1).
    unfold result_of, detector_of, world_of, announced, joined. cbn [fst snd].
    change (verbose d1) with (verbose d). change (process_thread d1) with true.
    rewrite bool_decide_eq_false_2 by done. unfold wd1.
    generalize (tk_next wd). intros nx.
    destruct (without_old d wd) as [m nx' dm al ev].
    destruct (verbose d); simpl; rewrite <- ?List.app_assoc;
      (split_and!; [done|done|done|apply lookup_delete_eq|done|done]).
  - rewrite Hm.
    set (wd2 := add_event (TkMainloop (tk_next wd))
                  (add_event ThreadStart (set_worker_alive true wd1))).
    rewrite (try_caught _ _ _ _ e (d1, wd2)); [| |done].
    2:{ prepare Hd. simpl external. rewrite bind_ret, bind_act, bind_emit, bind_self.
        cbn [overlay_window set_process_thread set_canvas set_overlay_window].
        rewrite (bind_returned _ _ _ tt (d1, wd2)); [reflexivity|].
        erewrite on_window_some by reflexivity.
        now apply tk_mainloop_live with (overlay_of d). }
    rewrite (Hstop wd2); [|exact Hd1|exact Hw1].
    unfold result_of, detector_of, world_of, announced, joined. cbn [fst snd].
    change (verbose d1) with (verbose d). change (process_thread d1) with true.
    rewrite bool_decide_eq_true_2 by done. unfold wd2, wd1.
    generalize (tk_next wd). intros nx.
    destruct (without_old d wd) as [m nx' dm al ev].
    destruct (verbose d), (join_finished env); simpl; rewrite <- ?List.app_assoc;
      (split_and!; [done|done|done|apply lookup_delete_eq|done|done]).
Qed.

Lemma start_detection_failure_stops_witness :
  let after := start_detection MainThread no_threads (talkative, sample_world) in
  worker_alive sample_world = true /\
  result_of after = Returned tt /\
  running (detector_of after) = false /\
  overlay_window (detector_of after) = None /\
  tk_windows (world_of after) !! 1%nat = None /\
  worker_alive (world_of after) = false /\
  events (world_of after)
  = events sample_world
    ++ [TkDestroy 0; TkCreate 1; Print (StartError "can't start new thread");
        TkQuit 1; TkDestroy 1; Print Stopped].
Proof.
  split; [reflexivity|].
  exact (start_detection_failure_stops no_threads talkative sample_world
           (RuntimeError "can't start new thread") eq_refl eq_refl (or_introl eq_refl)).
Defined.

(** ** The program when nothing fails *)

(** X18.  A run of the program in which nothing fails: the two signal
    handlers are installed first, the banner is printed, then the overlay
    is made, the worker started and the event loop entered; nothing else
    is printed.  The overlay and its canvas have the size of the screen
    as the screen-size query reported it at construction. *)
Theorem main_overlay_covers_screen env wd m width height :
  tk_doom wd = None ->
  path_exists (init_env env) "yolov8x.pt" = true ->
  load_model (init_env env) "yolov8x.pt" = Returned m ->
  screen_size (init_env env) = Returned (width, height) ->
  create_fault (start_env env) = None ->
  thread_fault (start_env env) = None ->
  mainloop_fault (start_env env) = None ->
  let after := main env wd in
  let w := tk_next wd in
  events after
  = events wd ++ [SignalInstalled "SIGINT"; SignalInstalled "SIGTERM"; Print Banner;
                  TkCreate w; ThreadStart; TkMainloop w] /\
  exists win cv,
    tk_windows after !! w = Some win /\
    In ("geometry", str_int width +:+ "x" +:+ str_int height +:+ "+0+0") (w_options win) /\
    w_canvas win = Some cv /\ cv_width cv = width /\ cv_height cv = height.
Proof.
  intros Hd Hp Hl Hs Hc Ht Hm. cbn zeta. unfold main, init. rewrite Hp, Hl, Hs.
  rewrite start_detection_quiet by done. split.
  - simpl. rewrite <- !List.app_assoc. reflexivity.
  - eexists _, _. split; [simpl; apply lookup_insert_eq|].
    simpl. split_and!; try reflexivity. right. left. reflexivity.
Qed.

Lemma main_overlay_covers_screen_witness :
  events (main all_well fresh_world)
  = [SignalInstalled "SIGINT"; SignalInstalled "SIGTERM"; Print Banner;
     TkCreate 0; ThreadStart; TkMainloop 0] /\
  exists win cv,
    tk_windows (main all_well fresh_world) !! 0%nat = Some win /\
    In ("geometry", "2560x1440+0+0") (w_options win) /\
    w_canvas win = Some cv /\ cv_width cv = 2560 /\ cv_height cv = 1440.
Proof.
  exact (main_overlay_covers_screen all_well fresh_world sample_model 2560 1440
           eq_refl eq_refl eq_refl eq_refl eq_refl eq_refl eq_refl).
Defined.

(** ** From boxes to detections *)

Lemma int_of_float_toward_zero (x : Q) : toward_zero x (int_of_float x).
Proof.
  destruct x as [n d]. unfold toward_zero, int_of_float. cbn [Qnum Qden].
  pose proof (Z.quot_rem' n (Zpos d)) as Hqr.
  unfold Qle, Qlt, Qminus, Qplus, Qopp, inject_Z. cbn [Qnum Qden].
  rewrite !Z.mul_1_r, ?Pos.mul_1_l. split; intros Hsign.
  - assert (Hn : 0 <= n) by lia.
    pose proof (Z.rem_bound_pos n (Zpos d) Hn ltac:(lia)) as Hr.
    pose proof (Z.quot_pos n (Zpos d) Hn ltac:(lia)) as Hq.
    split_and!; [nia| |lia].
    change (Z.pos (1 * d)) with (Z.pos d). nia.
  - assert (Hn : n <= 0) by lia.
    pose proof (Z.rem_bound_pos_neg n (Zpos d) ltac:(lia) Hn) as Hr.
    assert (Hq : n ÷ Zpos d <= 0).
    { rewrite <- (Z.opp_involutive n), Z.quot_opp_l by lia.
      pose proof (Z.quot_pos (- n) (Zpos d) ltac:(lia) ltac:(lia)). lia. }
    split_and!; [nia| |lia].
    change (Z.pos (1 * d)) with (Z.pos d). nia.
Qed.

(** X19.  The detections of a frame are its boxes, one for one and in the
    order of the results: each keeps the confidence of its box, and its
    corners are those of the box with the fraction dropped, so less than
    a pixel away and never farther from the origin. *)
Theorem collect_one_per_box results :
  length (collect results) = length (concat results) /\
  forall i box,
    concat results !! i = Some box ->
    exists x1 y1 x2 y2,
      collect results !! i = Some (x1, y1, x2, y2, conf box) /\
      let '(bx1, by1, bx2, by2) := xyxy box in
      toward_zero bx1 x1 /\ toward_zero by1 y1 /\
      toward_zero bx2 x2 /\ toward_zero by2 y2.
Proof.
  rewrite collect_flat.
  assert (Hflat : flat_map (map to_detection) results = map to_detection (concat results)).
  { induction results as [|boxes results IH]; simpl; [done|].
    now rewrite IH, map_app. }
  rewrite Hflat. split; [apply length_map|].
  intros i box Hi. unfold to_detection.
  destruct (xyxy box) as [[[bx1 by1] bx2] by2] eqn:Hbox.
  exists (int_of_float bx1), (int_of_float by1), (int_of_float bx2), (int_of_float by2).
  split.
  - rewrite list_lookup_fmap, Hi. simpl. now rewrite Hbox.
  - split_and!; apply int_of_float_toward_zero.
Qed.

Lemma collect_one_per_box_witness :
  let results := [[mkPrediction 0 (10.7, 10.2, 50.9, 90.1)%Q (87 # 100)]] in
  length (collect results) = 1%nat /\
  exists x1 y1 x2 y2,
    collect results !! 0%nat = Some (x1, y1, x2, y2, 87 # 100) /\
    toward_zero 10.7 x1.
Proof.
  destruct (collect_one_per_box [[mkPrediction 0 (10.7, 10.2, 50.9, 90.1)%Q (87 # 100)]])
    as [H1 H2].
  split; [exact H1|].
  destruct (H2 0%nat _ eq_refl) as (x1 & y1 & x2 & y2 & Ha & Hb & _).
  exists x1, y1, x2, y2. split; assumption.
Defined.

(** ** The label *)

Lemma round_half_even_percent n d :
  0 <= n <= d -> 0 < d -> 0 <= round_half_even (n * 100) d <= 100.
Proof.
  intros Hn Hd. unfold round_half_even.
  pose proof (Z.div_mod (n * 100) d ltac:(lia)) as Hdm.
  pose proof (Z.mod_pos_bound (n * 100) d Hd) as Hr.
  assert (Hk : 0 <= n * 100 / d) by (apply Z.div_pos; lia).
  assert (Hk' : n * 100 / d <= 100) by (apply Z.div_le_upper_bound; lia).
  assert (Hfull : n * 100 / d = 100 -> (n * 100) mod d = 0) by nia.
  destruct (2 * ((n * 100) mod d) ?= d) eqn:Hcmp.
  - apply Z.compare_eq in Hcmp. destruct (Z.even _); lia.
  - lia.
  - apply Z.compare_gt_iff in Hcmp. lia.
Qed.

Lemma percent_width (h : Z) :
  0 <= h <= 100 ->
  String.length (str_int (h / 100) +:+ "." +:+ two_digits (h mod 100)) = 4%nat.
Proof.
  intros Hh. rewrite <- (Z2Nat.id h) by lia.
  assert (Hn : (Z.to_nat h <= 100)%nat) by lia.
  remember (Z.to_nat h) as n eqn:Heq. clear Heq Hh.
  do 101 (destruct n as [|n]; [reflexivity|]). lia.
Qed.

(** X20.  For a confidence between 0 and 1 the label is twelve characters
    long, whatever the value: one digit, the point and two decimals after
    the prefix. *)
Theorem label_has_fixed_width (confidence : Q) :
  (0 <= confidence)%Q -> (confidence <= 1)%Q ->
  String.length ("Person: " +:+ format_2f confidence) = 12%nat.
Proof.
  intros H0 H1. destruct confidence as [n d]. unfold format_2f. cbn [Qnum Qden].
  unfold Qle in H0, H1. simpl in H0, H1.
  assert (Hn : 0 <= n) by lia.
  destruct (Z.ltb_spec n 0) as [|_]; [lia|].
  rewrite Z.abs_eq by lia.
  change ("Person: " +:+ "" +:+ ?s) with ("Person: " +:+ s).
  simpl String.length. do 8 f_equal.
  apply percent_width, round_half_even_percent; lia.
Qed.

Lemma label_has_fixed_width_witness :
  String.length ("Person: " +:+ format_2f (87 # 100)) = 12%nat.
Proof.
  apply (label_has_fixed_width (87 # 100)); discriminate.
Defined.

(** ** The loop without a window *)

Section Preserves.
Context (I : store -> Prop).

Lemma preserves_ret {A} (a : A) : preserves I (ret a).
Proof. now intros st. Qed.

Lemma preserves_raise {A} e : preserves I (@raise A e).
Proof. now intros st. Qed.

Lemma preserves_bind {A B} (m : M A) (k : A -> M B) :
  preserves I m -> (forall a, preserves I (k a)) -> preserves I (bind m k).
Proof.
  intros Hm Hk st Hst. specialize (Hm st Hst). unfold bind.
  destruct (m st) as [[a|e] st']; [now apply Hk|done].
Qed.

Lemma preserves_try {A} (m : M A) c h :
  preserves I m -> (forall e, preserves I (h e)) -> preserves I (try_except m c h).
Proof.
  intros Hm Hh st Hst. specialize (Hm st Hst). unfold try_except.
  destruct (m st) as [[a|e] st']; [done|]. destruct (c e); [now apply Hh|done].
Qed.

Lemma preserves_when b m : preserves I m -> preserves I (when b m).
Proof. destruct b; [done|]. intros _. apply preserves_ret. Qed.

Lemma preserves_external fault : preserves I (external fault).
Proof. destruct fault; [apply preserves_raise|apply preserves_ret]. Qed.

Lemma preserves_external_value {A} (r : outcome A) : preserves I (external_value r).
Proof. destruct r; [apply preserves_ret|apply preserves_raise]. Qed.
End Preserves.

Section Headless.
Context (c : gmap nat tkwin * option (nat * nat) * nat).

Lemma headless_self {B} (k : Detector -> M B) :
  (forall d, overlay_window d = None -> preserves (headless c) (k d)) ->
  preserves (headless c) (bind self k).
Proof. intros Hk [d wd] Hst. rewrite bind_self. apply Hk; [apply Hst|done]. Qed.

Lemma headless_assign f :
  (forall d, overlay_window (f d) = overlay_window d) -> preserves (headless c) (assign f).
Proof. intros Hf [d wd] [H1 H2]. split; [|done]. simpl in *. now rewrite Hf. Qed.

Lemma headless_emit e : is_tk_call e = false -> preserves (headless c) (emit e).
Proof.
  intros He [d wd] [H1 H2]. split; [done|]. simpl fst. simpl snd.
  rewrite <- H2. unfold tk_calls. rewrite count_add_event, He. simpl.
  now rewrite Nat.add_0_r.
Qed.

Lemma headless_update_overlay dets : preserves (headless c) (update_overlay dets).
Proof.
  intros [d wd] Hst. now rewrite (update_overlay_without_window dets d wd (proj1 Hst)).
Qed.
End Headless.

Ltac headless_step :=
  lazymatch goal with
  | |- preserves _ (ret _) => apply preserves_ret
  | |- preserves _ (raise _) => apply preserves_raise
  | |- preserves _ (bind self _) => apply headless_self; intros ? ?
  | |- preserves _ (assign _) => apply headless_assign; done
  | |- preserves _ (emit _) => apply headless_emit; done
  | |- preserves _ (external _) => apply preserves_external
  | |- preserves _ (external_value _) => apply preserves_external_value
  | |- preserves _ (update_overlay _) => apply headless_update_overlay
  | |- preserves _ (when _ _) => apply preserves_when
  | |- preserves _ (bind _ _) => apply preserves_bind; [|intros]
  | |- preserves _ (try_except _ _ _) => apply preserves_try; [|intros]
  | |- preserves _ (match ?x with _ => _ end) => destruct x
  | |- preserves _ (if ?x then _ else _) => destruct x
  end.

Lemma iteration_headless c device env : preserves (headless c) (iteration device env).
Proof. unfold iteration, body. repeat headless_step. Qed.

Lemma while_running_headless c device script :
  preserves (headless c) (while_running device script).
Proof.
  induction script as [|env script IH]; simpl; [apply preserves_ret|].
  repeat headless_step; [apply iteration_headless|apply IH].
Qed.

(** X21.  Without a window the worker goes on without the toolkit: when
    the detector holds no window (the creation failed, or the window was
    found closed), [process_screen] makes no toolkit call at all, leaves
    the windows of the toolkit as they are, and still holds no window at
    the end. *)
Theorem process_screen_headless lenv script d wd :
  overlay_window d = None ->
  let after := process_screen lenv script (d, wd) in
  overlay_window (detector_of after) = None /\
  tk_windows (world_of after) = tk_windows wd /\
  tk_doom (world_of after) = tk_doom wd /\
  tk_calls (world_of after) = tk_calls wd.
Proof.
  intros How. cbn zeta.
  assert (H : preserves (headless (tk_windows wd, tk_doom wd, tk_calls wd))
                (process_screen lenv script)).
  { unfold process_screen. repeat headless_step. apply while_running_headless. }
  destruct (H (d, wd)) as [H1 H2]; [now split|].
  unfold detector_of, world_of. split; [exact H1|].
  injection H2 as -> -> ->. done.
Qed.

Lemma process_screen_headless_witness :
  let after := process_screen (mkLoopEnv None [(0, 0, 3840, 1080); (0, 0, 1920, 1080)] 11 false)
                 [good_capture; failing_capture; good_capture]
                 (set_overlay_window None sample_detector, sample_world) in
  overlay_window (detector_of after) = None /\
  tk_windows (world_of after) = tk_windows sample_world /\
  tk_doom (world_of after) = tk_doom sample_world /\
  tk_calls (world_of after) = tk_calls sample_world.
Proof.
  apply (process_screen_headless _ _ (set_overlay_window None sample_detector) sample_world).
  reflexivity.
Defined.

(** ** The stride *)

(** A pass either skips its frame, with one short sleep, or goes on to the
    capture, with none. *)
Lemma iteration_short_sleeps device env d wd :
  frame_skip d <> 0 ->
  short_sleeps (world_of (iteration device env (d, wd)))
  = (short_sleeps wd
     + if ((frame_count d + 1) mod frame_skip d =? 0)%Z then 0 else 1)%nat.
Proof.
  intros Hk. unfold world_of, iteration, body.
  unfold try_except at 1. rewrite bind_self, bind_assign, bind_self.
  cbn [frame_skip frame_count set_frame_count].
  destruct (Z.eqb_spec (frame_skip d) 0) as [|_]; [done|].
  destruct (_ =? 0).
  - cbn [negb]. rewrite Nat.add_0_r.
    match goal with
    | |- short_sleeps (snd (snd match ?m ?st with _ => _ end)) = _ =>
        assert (H : stable short_sleeps (try_except m is_Exception
                      (fun e =>
                         let current_time := now env in
                         d0 <- self ;;
                         when (verbose d0 &&
                               Qle_bool 1 (Qminus current_time (last_output_time d0)))
                           (emit (Print (ProcessingError
                                           (substring 0 100 (str_exn e) +:+ "..."))) ;;
                            assign (set_last_output_time current_time)) ;;
                         emit (Sleep (1 # 10)))));
        [|exact (H st)]
    end.
    unfold short_sleeps, update_overlay, draw, tk_update.
    repeat first [stabilize_step | apply stable_external_value].
  - cbn [negb]. unfold short_sleeps. simpl. rewrite count_app. reflexivity.
Qed.

Lemma stride_step (f k : Z) :
  0 < k -> (f + 1) / k = f / k + if (f + 1) mod k =? 0 then 1 else 0.
Proof.
  intros Hk.
  pose proof (Z.div_mod f k ltac:(lia)) as Hf.
  pose proof (Z.mod_pos_bound f k Hk) as Hfb.
  pose proof (Z.div_mod (f + 1) k ltac:(lia)) as Hg.
  pose proof (Z.mod_pos_bound (f + 1) k Hk) as Hgb.
  destruct (Z.eqb_spec ((f + 1) mod k) 0) as [H0|H0]; nia.
Qed.

(** X22.  With a positive stride [k], one frame in [k] is processed: over
    a run of passes, those whose frame number is a multiple of [k] go on to
    the capture, and each of the others sleeps 10 ms instead, once. *)
Theorem while_running_one_frame_in_k device script : forall d wd,
  running d = true -> undisturbed script -> 0 < frame_skip d ->
  let after := while_running device script (d, wd) in
  let n := Z.of_nat (length script) in
  Z.of_nat (short_sleeps (world_of after))
  = Z.of_nat (short_sleeps wd)
    + n - ((frame_count d + n) / frame_skip d - frame_count d / frame_skip d).
Proof.
  induction script as [|env script IH]; intros d wd Hr Hu Hk; cbn zeta.
  - change (while_running device [] (d, wd)) with (Returned StillRunning, (d, wd)).
    unfold world_of. cbn [snd length Z.of_nat]. rewrite !Z.add_0_r. lia.
  - inversion Hu as [|? ? Henv Hrest]; subst.
    rewrite while_running_step by done.
    destruct (iteration_counts device env d wd) as [Hf Hr'].
    pose proof (iteration_short_sleeps device env d wd ltac:(lia)) as Hs.
    assert (Hskip : frame_skip (detector_of (iteration device env (d, wd))) = frame_skip d).
    { assert (H : keeps frame_skip (iteration device env)).
      { unfold iteration, body. keep. apply update_overlay_keeps. done. }
      apply (H (d, wd)). }
    unfold detector_of, world_of in *.
    destruct (iteration device env (d, wd)) as [r [d1 wd1]]. cbn [fst snd] in *.
    rewrite (IH d1 wd1) by (try done; congruence).
    rewrite Hskip, Hf, Hs. simpl length.
    pose proof (stride_step (frame_count d) (frame_skip d) Hk) as Hstep.
    replace (frame_count d + 1 + Z.of_nat (length script))
      with (frame_count d + Z.of_nat (S (length script))) by lia.
    destruct (_ =? 0); lia.
Qed.

Lemma while_running_one_frame_in_k_witness :
  let after := while_running "cpu"
                 [good_capture; good_capture; failing_capture; good_capture; good_capture]
                 (every_other_frame, sample_world) in
  Z.of_nat (short_sleeps (world_of after)) = 3.
Proof.
  apply (while_running_one_frame_in_k "cpu"
           [good_capture; good_capture; failing_capture; good_capture; good_capture]
           every_other_frame sample_world).
  - reflexivity.
  - repeat constructor.
  - reflexivity.
Defined.
